(** * OMI_V2 firmware: PWM audio engine, stream reassembler and SD audio file store

    A shallow embedding of the C sources
    - [PAM8403/src/pwm_audio.h], [PAM8403/src/pwm_audio.c]  (module [PwmAudio]),
    - [speaker_pwm.h], [speaker_pwm.c]                      (module [Speaker]),
    - the SD card driver                        (modules [SdCard], [SdCardIo]),
    followed by the properties of the design document that were checked
    against them and by further properties of the code.

    Conventions.  Fixed-width C integers are values of [Z] with the
    conversions written out ([to_uint8], [to_uint16], ...).  C's [/] and [%]
    truncate towards zero and are [Z.quot] and [Z.rem].  The process-wide
    variables of a translation unit are the fields of one record that every
    function receives and returns.  The drivers of the RTOS (PWM, GPIO, timer,
    file system) are outside the repository; each is represented by the
    smallest state that lets the calls made by the firmware succeed or fail. *)

From Stdlib Require Import ZArith Lia Ascii String.
From stdpp Require Import base list strings gmap.

Local Open Scope Z_scope.

(** ** Fixed-width integer conversions *)

Definition to_uint8 (x : Z) : Z := x mod 256.
Definition to_uint16 (x : Z) : Z := x mod 65536.
Definition to_uint32 (x : Z) : Z := x mod 4294967296.
Definition to_int16 (x : Z) : Z := (x + 32768) mod 65536 - 32768.
Definition to_int32 (x : Z) : Z := (x + 2147483648) mod 4294967296 - 2147483648.

Definition is_uint8 (x : Z) : Prop := 0 <= x <= 255.
Definition is_int16 (x : Z) : Prop := -32768 <= x <= 32767.

(** errno values used by the firmware *)
Definition ENODEV : Z := 19.
Definition ENOMEM : Z := 12.
Definition EINVAL : Z := 22.
Definition ENOENT : Z := 2.
Definition EEXIST : Z := 17.
Definition EBADF : Z := 9.
Definition EIO : Z := 5.

(** ** Driver state *)

(** One PWM peripheral.  [pwm_fault] is the code its driver answers to
    [pwm_set] (0 when healthy); [pwm_log] lists the (period, pulse) pairs
    programmed so far, most recent first. *)
Record pwm_dev := mk_pwm {
  pwm_ready : bool;
  pwm_fault : Z;
  pwm_log : list (Z * Z)
}.

Definition pwm_set (d : pwm_dev) (period pulse : Z) : Z * pwm_dev :=
  if pwm_fault d =? 0
  then (0, mk_pwm (pwm_ready d) (pwm_fault d) ((period, pulse) :: pwm_log d))
  else (pwm_fault d, d).

(** The duty currently programmed on a channel. *)
Definition pwm_current (d : pwm_dev) : option (Z * Z) := head (pwm_log d).

(** One GPIO line described in the devicetree. *)
Record gpio_pin := mk_pin {
  pin_ready : bool;
  pin_fault : Z;
  pin_level : option Z
}.

(** [gpio_pin_configure_dt(pin, GPIO_OUTPUT_INACTIVE)], the only
    configuration the firmware asks for. *)
Definition gpio_pin_configure_dt (p : gpio_pin) : Z * gpio_pin :=
  if pin_fault p =? 0
  then (0, mk_pin (pin_ready p) (pin_fault p) (Some 0))
  else (pin_fault p, p).

Definition gpio_pin_set_dt (p : gpio_pin) (v : Z) : Z * gpio_pin :=
  if pin_fault p =? 0
  then (0, mk_pin (pin_ready p) (pin_fault p) (Some (if v =? 0 then 0 else 1)))
  else (pin_fault p, p).

Module PwmAudio.

(** *** pwm_audio.h *)

Definition PWM_AUDIO_SAMPLE_RATE : Z := 16000.
Definition PWM_AUDIO_PWM_FREQ : Z := 1000000.
Definition PWM_AUDIO_RESOLUTION : Z := 256.
Definition PWM_AUDIO_PERIOD_NS : Z := Z.quot 1000000000 PWM_AUDIO_PWM_FREQ.
Definition PWM_AUDIO_MAX_VOLUME : Z := 180.
Definition PWM_AUDIO_MUTE_RAMP_MS : Z := 100.
Definition PWM_AUDIO_MUTE_RAMP_STEPS : Z := 20.

Definition PAM8403_GAIN_6DB : Z := 0.
Definition PAM8403_GAIN_15DB : Z := 1.
Definition PAM8403_GAIN_20DB : Z := 2.
Definition PAM8403_GAIN_24DB : Z := 3.

(** *** pwm_audio.c: the state of the translation unit *)

Definition MAX_BLOCK_SIZE : Z := 10000.
Definition BLOCK_COUNT : nat := 2.

Record engine := mk_engine {
  (* Global state *)
  current_volume : Z;
  is_muted : bool;
  is_initialized : bool;
  (* statics of mute_ramp_callback *)
  ramp_step : Z;
  target_volume : Z;
  ramping_to_mute : bool;
  (* mute_ramp_timer: its period in ms while it runs *)
  mute_ramp_timer : option Z;
  (* devices *)
  pwm_audio_l : pwm_dev;
  pwm_audio_r : pwm_dev;
  pam8403_shutdown_pin : gpio_pin;
  pam8403_gain0_pin : gpio_pin;
  pam8403_gain1_pin : gpio_pin;
  (* free blocks of audio_mem_slab *)
  audio_mem_slab : nat
}.

Definition with_volume (v : Z) (e : engine) : engine :=
  mk_engine v (is_muted e) (is_initialized e) (ramp_step e) (target_volume e)
    (ramping_to_mute e) (mute_ramp_timer e) (pwm_audio_l e) (pwm_audio_r e)
    (pam8403_shutdown_pin e) (pam8403_gain0_pin e) (pam8403_gain1_pin e)
    (audio_mem_slab e).

Definition with_muted (b : bool) (e : engine) : engine :=
  mk_engine (current_volume e) b (is_initialized e) (ramp_step e)
    (target_volume e) (ramping_to_mute e) (mute_ramp_timer e) (pwm_audio_l e)
    (pwm_audio_r e) (pam8403_shutdown_pin e) (pam8403_gain0_pin e)
    (pam8403_gain1_pin e) (audio_mem_slab e).

Definition with_initialized (b : bool) (e : engine) : engine :=
  mk_engine (current_volume e) (is_muted e) b (ramp_step e) (target_volume e)
    (ramping_to_mute e) (mute_ramp_timer e) (pwm_audio_l e) (pwm_audio_r e)
    (pam8403_shutdown_pin e) (pam8403_gain0_pin e) (pam8403_gain1_pin e)
    (audio_mem_slab e).

Definition with_ramp_step (k : Z) (e : engine) : engine :=
  mk_engine (current_volume e) (is_muted e) (is_initialized e) k
    (target_volume e) (ramping_to_mute e) (mute_ramp_timer e) (pwm_audio_l e)
    (pwm_audio_r e) (pam8403_shutdown_pin e) (pam8403_gain0_pin e)
    (pam8403_gain1_pin e) (audio_mem_slab e).

Definition with_ramp_target (t : Z) (to_mute : bool) (e : engine) : engine :=
  mk_engine (current_volume e) (is_muted e) (is_initialized e) (ramp_step e)
    t to_mute (mute_ramp_timer e) (pwm_audio_l e) (pwm_audio_r e)
    (pam8403_shutdown_pin e) (pam8403_gain0_pin e) (pam8403_gain1_pin e)
    (audio_mem_slab e).

Definition with_timer (t : option Z) (e : engine) : engine :=
  mk_engine (current_volume e) (is_muted e) (is_initialized e) (ramp_step e)
    (target_volume e) (ramping_to_mute e) t (pwm_audio_l e) (pwm_audio_r e)
    (pam8403_shutdown_pin e) (pam8403_gain0_pin e) (pam8403_gain1_pin e)
    (audio_mem_slab e).

Definition with_pwm_l (d : pwm_dev) (e : engine) : engine :=
  mk_engine (current_volume e) (is_muted e) (is_initialized e) (ramp_step e)
    (target_volume e) (ramping_to_mute e) (mute_ramp_timer e) d
    (pwm_audio_r e) (pam8403_shutdown_pin e) (pam8403_gain0_pin e)
    (pam8403_gain1_pin e) (audio_mem_slab e).

Definition with_pwm_r (d : pwm_dev) (e : engine) : engine :=
  mk_engine (current_volume e) (is_muted e) (is_initialized e) (ramp_step e)
    (target_volume e) (ramping_to_mute e) (mute_ramp_timer e) (pwm_audio_l e)
    d (pam8403_shutdown_pin e) (pam8403_gain0_pin e) (pam8403_gain1_pin e)
    (audio_mem_slab e).

Definition with_shutdown_pin (p : gpio_pin) (e : engine) : engine :=
  mk_engine (current_volume e) (is_muted e) (is_initialized e) (ramp_step e)
    (target_volume e) (ramping_to_mute e) (mute_ramp_timer e) (pwm_audio_l e)
    (pwm_audio_r e) p (pam8403_gain0_pin e) (pam8403_gain1_pin e)
    (audio_mem_slab e).

Definition with_gain0_pin (p : gpio_pin) (e : engine) : engine :=
  mk_engine (current_volume e) (is_muted e) (is_initialized e) (ramp_step e)
    (target_volume e) (ramping_to_mute e) (mute_ramp_timer e) (pwm_audio_l e)
    (pwm_audio_r e) (pam8403_shutdown_pin e) p (pam8403_gain1_pin e)
    (audio_mem_slab e).

Definition with_gain1_pin (p : gpio_pin) (e : engine) : engine :=
  mk_engine (current_volume e) (is_muted e) (is_initialized e) (ramp_step e)
    (target_volume e) (ramping_to_mute e) (mute_ramp_timer e) (pwm_audio_l e)
    (pwm_audio_r e) (pam8403_shutdown_pin e) (pam8403_gain0_pin e) p
    (audio_mem_slab e).

Definition with_slab (n : nat) (e : engine) : engine :=
  mk_engine (current_volume e) (is_muted e) (is_initialized e) (ramp_step e)
    (target_volume e) (ramping_to_mute e) (mute_ramp_timer e) (pwm_audio_l e)
    (pwm_audio_r e) (pam8403_shutdown_pin e) (pam8403_gain0_pin e)
    (pam8403_gain1_pin e) n.

(** The values the static initialisers give at power-on, on a given board. *)
Definition power_on (l r : pwm_dev) (sd g0 g1 : gpio_pin) : engine :=
  mk_engine PWM_AUDIO_MAX_VOLUME false false 0 0 false None l r sd g0 g1
    BLOCK_COUNT.

(** *** Sample codec *)

(** [audio_sample_to_pwm(sample)], reading the global [current_volume]. *)
Definition audio_sample_to_pwm (current_volume : Z) (sample : Z) : Z :=
  let scaled := Z.quot (sample * current_volume) 256 in
  let scaled := if scaled >? 127 then 127 else scaled in
  let scaled := if scaled <? -128 then -128 else scaled in
  let unsigned_sample := to_uint8 (scaled + 128) in
  let pulse_width :=
    to_uint32 (Z.quot (unsigned_sample * PWM_AUDIO_PERIOD_NS) 256) in
  let pulse_width :=
    if pulse_width <? Z.quot PWM_AUDIO_PERIOD_NS 256
    then Z.quot PWM_AUDIO_PERIOD_NS 256 else pulse_width in
  let pulse_width :=
    if pulse_width >? PWM_AUDIO_PERIOD_NS - Z.quot PWM_AUDIO_PERIOD_NS 256
    then PWM_AUDIO_PERIOD_NS - Z.quot PWM_AUDIO_PERIOD_NS 256
    else pulse_width in
  pulse_width.

(** *** Volume, timer and ramp *)

Definition pwm_audio_set_volume (volume : Z) (e : engine) : engine :=
  let volume :=
    if volume >? PWM_AUDIO_MAX_VOLUME then PWM_AUDIO_MAX_VOLUME else volume in
  with_volume volume e.

Definition k_timer_start (period_ms : Z) (e : engine) : engine :=
  with_timer (Some period_ms) e.

Definition k_timer_stop (e : engine) : engine := with_timer None e.

Definition mute_ramp_callback (e : engine) : engine :=
  let e :=
    if ramp_step e =? 0 then
      if is_muted e
      then with_ramp_target 0 true e
      else with_ramp_target PWM_AUDIO_MAX_VOLUME false e
    else e in
  let step_volume :=
    to_uint8 (Z.quot (target_volume e * ramp_step e) PWM_AUDIO_MUTE_RAMP_STEPS) in
  let step_volume :=
    if ramping_to_mute e
    then to_uint8 (current_volume e - step_volume) else step_volume in
  let e := pwm_audio_set_volume step_volume e in
  let e := with_ramp_step (to_uint8 (ramp_step e + 1)) e in
  if ramp_step e >=? PWM_AUDIO_MUTE_RAMP_STEPS then
    let e := with_ramp_step 0 e in
    let e := k_timer_stop e in
    if ramping_to_mute e then
      let '(err_l, l) :=
        pwm_set (pwm_audio_l e) PWM_AUDIO_PERIOD_NS (Z.quot PWM_AUDIO_PERIOD_NS 2) in
      let e := with_pwm_l l e in
      let '(err_r, r) :=
        pwm_set (pwm_audio_r e) PWM_AUDIO_PERIOD_NS (Z.quot PWM_AUDIO_PERIOD_NS 2) in
      with_pwm_r r e
    else e
  else e.

(** One expiry of [mute_ramp_timer]: the callback runs only while the timer
    is armed. *)
Definition timer_tick (e : engine) : engine :=
  match mute_ramp_timer e with
  | Some _ => mute_ramp_callback e
  | None => e
  end.

Fixpoint timer_ticks (n : nat) (e : engine) : engine :=
  match n with
  | O => e
  | S k => timer_ticks k (timer_tick e)
  end.

(** *** PAM8403 amplifier *)

Definition pam8403_set_gain (gain_level : Z) (e : engine) : engine :=
  let gain_level := if gain_level >? 3 then 1 else gain_level in
  let e :=
    if pin_ready (pam8403_gain0_pin e) then
      let '(err, p) := gpio_pin_set_dt (pam8403_gain0_pin e) (Z.land gain_level 1) in
      with_gain0_pin p e
    else e in
  let e :=
    if pin_ready (pam8403_gain1_pin e) then
      let '(err, p) :=
        gpio_pin_set_dt (pam8403_gain1_pin e) (Z.land (Z.shiftr gain_level 1) 1) in
      with_gain1_pin p e
    else e in
  e.

Definition pam8403_shutdown (e : engine) : engine :=
  let '(err, p) := gpio_pin_set_dt (pam8403_shutdown_pin e) 0 in
  with_shutdown_pin p e.

Definition pam8403_wakeup (e : engine) : engine :=
  let '(err, p) := gpio_pin_set_dt (pam8403_shutdown_pin e) 1 in
  with_shutdown_pin p e.

Definition pam8403_init (e : engine) : Z * engine :=
  if pin_ready (pam8403_shutdown_pin e) then
    let '(err, p) := gpio_pin_configure_dt (pam8403_shutdown_pin e) in
    let e := with_shutdown_pin p e in
    if negb (err =? 0) then (err, e) else
    let e :=
      if pin_ready (pam8403_gain0_pin e) then
        let '(err, p) := gpio_pin_configure_dt (pam8403_gain0_pin e) in
        with_gain0_pin p e
      else e in
    let e :=
      if pin_ready (pam8403_gain1_pin e) then
        let '(err, p) := gpio_pin_configure_dt (pam8403_gain1_pin e) in
        with_gain1_pin p e
      else e in
    let e := pam8403_set_gain PAM8403_GAIN_15DB e in
    let e := pam8403_wakeup e in
    (0, e)
  else (- ENODEV, e).

(** *** Engine entry points *)

Definition pwm_audio_init (e : engine) : Z * engine :=
  if is_initialized e then (0, e) else
  if negb (pwm_ready (pwm_audio_l e)) then (- ENODEV, e) else
  if negb (pwm_ready (pwm_audio_r e)) then (- ENODEV, e) else
  let '(err, l) :=
    pwm_set (pwm_audio_l e) PWM_AUDIO_PERIOD_NS (Z.quot PWM_AUDIO_PERIOD_NS 2) in
  let e := with_pwm_l l e in
  if negb (err =? 0) then (err, e) else
  let '(err, r) :=
    pwm_set (pwm_audio_r e) PWM_AUDIO_PERIOD_NS (Z.quot PWM_AUDIO_PERIOD_NS 2) in
  let e := with_pwm_r r e in
  if negb (err =? 0) then (err, e) else
  let '(err, e) := pam8403_init e in
  if negb (err =? 0) then (err, e) else
  let e := with_muted true e in
  let e := with_initialized true e in
  (0, e).

(** The body of the loop of [pwm_audio_play]; [buffer] holds the [samples]
    values the pointer designates.  The loop runs while [i + 1 < samples]:
    a trailing unpaired sample is not played. *)
Fixpoint play_stereo_loop (buffer : list Z) (e : engine) : Z * engine :=
  match buffer with
  | left_sample :: right_sample :: rest =>
      let left_pulse := audio_sample_to_pwm (current_volume e) left_sample in
      let right_pulse := audio_sample_to_pwm (current_volume e) right_sample in
      let '(err, l) := pwm_set (pwm_audio_l e) PWM_AUDIO_PERIOD_NS left_pulse in
      let e := with_pwm_l l e in
      if negb (err =? 0) then (err, e) else
      let '(err, r) := pwm_set (pwm_audio_r e) PWM_AUDIO_PERIOD_NS right_pulse in
      let e := with_pwm_r r e in
      if negb (err =? 0) then (err, e) else
      play_stereo_loop rest e
  | _ => (0, e)
  end.

Definition pwm_audio_play (buffer : list Z) (e : engine) : Z * engine :=
  if negb (is_initialized e) then (- ENODEV, e) else
  if is_muted e then (0, e) else
  play_stereo_loop buffer e.

Fixpoint play_mono_loop (buffer : list Z) (e : engine) : Z * engine :=
  match buffer with
  | sample :: rest =>
      let pulse := audio_sample_to_pwm (current_volume e) sample in
      let '(err, l) := pwm_set (pwm_audio_l e) PWM_AUDIO_PERIOD_NS pulse in
      let e := with_pwm_l l e in
      if negb (err =? 0) then (err, e) else
      let '(err, r) := pwm_set (pwm_audio_r e) PWM_AUDIO_PERIOD_NS pulse in
      let e := with_pwm_r r e in
      if negb (err =? 0) then (err, e) else
      play_mono_loop rest e
  | [] => (0, e)
  end.

Definition pwm_audio_play_mono (buffer : list Z) (e : engine) : Z * engine :=
  if negb (is_initialized e) then (- ENODEV, e) else
  if is_muted e then (0, e) else
  play_mono_loop buffer e.

Definition ramp_period_ms : Z :=
  Z.quot PWM_AUDIO_MUTE_RAMP_MS PWM_AUDIO_MUTE_RAMP_STEPS.

Definition pwm_audio_mute (e : engine) : engine :=
  if negb (is_initialized e) then e else
  if negb (is_muted e) then
    let e := with_muted true e in
    k_timer_start ramp_period_ms e
  else e.

Definition pwm_audio_unmute (e : engine) : engine :=
  if negb (is_initialized e) then e else
  if is_muted e then
    let e := with_muted false e in
    k_timer_start ramp_period_ms e
  else e.

(** *** Self tests.  The sample values come from floating-point code ([sinf])
    or from [rand]; they are supplied by [gen], index to int16 sample. *)

Definition test_samples (duration_ms : Z) : Z :=
  let samples := Z.quot (PWM_AUDIO_SAMPLE_RATE * duration_ms) 1000 in
  if samples >? Z.quot MAX_BLOCK_SIZE 2 then Z.quot MAX_BLOCK_SIZE 2 else samples.

Definition test_buffer (gen : Z -> Z) (samples : Z) : list Z :=
  map (fun i => gen (Z.of_nat i)) (seq 0 (Z.to_nat samples)).

Definition pwm_audio_test_sine_wave (gen : Z -> Z) (volume duration_ms : Z)
    (e : engine) : Z * engine :=
  if negb (is_initialized e) then (- ENODEV, e) else
  let original_volume := current_volume e in
  let e := pwm_audio_set_volume volume e in
  let samples := test_samples duration_ms in
  match audio_mem_slab e with
  | O => (- ENOMEM, e)
  | S free =>
      let e := with_slab free e in
      let buffer := test_buffer gen samples in
      let '(ret, e) := pwm_audio_play_mono buffer e in
      let e := with_slab (S (audio_mem_slab e)) e in
      let e := pwm_audio_set_volume original_volume e in
      (ret, e)
  end.

Definition pwm_audio_test_sweep (gen : Z -> Z) (duration_ms : Z)
    (e : engine) : Z * engine :=
  if negb (is_initialized e) then (- ENODEV, e) else
  let samples := test_samples duration_ms in
  match audio_mem_slab e with
  | O => (- ENOMEM, e)
  | S free =>
      let e := with_slab free e in
      let buffer := test_buffer gen samples in
      let '(ret, e) := pwm_audio_play_mono buffer e in
      let e := with_slab (S (audio_mem_slab e)) e in
      (ret, e)
  end.

Definition pwm_audio_test_white_noise (gen : Z -> Z) (duration_ms : Z)
    (e : engine) : Z * engine :=
  if negb (is_initialized e) then (- ENODEV, e) else
  let samples := test_samples duration_ms in
  match audio_mem_slab e with
  | O => (- ENOMEM, e)
  | S free =>
      let e := with_slab free e in
      let buffer := test_buffer gen samples in
      let '(ret, e) := pwm_audio_play_mono buffer e in
      let e := with_slab (S (audio_mem_slab e)) e in
      (ret, e)
  end.

(** The calls a client of the engine can make, and the timer expiry. *)
Inductive engine_op :=
| OpInit
| OpPlay (buffer : list Z)
| OpPlayMono (buffer : list Z)
| OpMute
| OpUnmute
| OpSetVolume (volume : Z)
| OpTimerTick
| OpTestSineWave (gen : Z -> Z) (volume duration_ms : Z)
| OpTestSweep (gen : Z -> Z) (duration_ms : Z)
| OpTestWhiteNoise (gen : Z -> Z) (duration_ms : Z)
| OpPamInit
| OpPamShutdown
| OpPamWakeup
| OpPamSetGain (gain_level : Z).

(** Arguments declared [uint8_t] are bytes. *)
Definition op_args_ok (op : engine_op) : Prop :=
  match op with
  | OpSetVolume v => is_uint8 v
  | OpTestSineWave _ v _ => is_uint8 v
  | OpPamSetGain g => is_uint8 g
  | _ => True
  end.

Definition run_op (op : engine_op) (e : engine) : engine :=
  match op with
  | OpInit => snd (pwm_audio_init e)
  | OpPlay b => snd (pwm_audio_play b e)
  | OpPlayMono b => snd (pwm_audio_play_mono b e)
  | OpMute => pwm_audio_mute e
  | OpUnmute => pwm_audio_unmute e
  | OpSetVolume v => pwm_audio_set_volume v e
  | OpTimerTick => timer_tick e
  | OpTestSineWave g v d => snd (pwm_audio_test_sine_wave g v d e)
  | OpTestSweep g d => snd (pwm_audio_test_sweep g d e)
  | OpTestWhiteNoise g d => snd (pwm_audio_test_white_noise g d e)
  | OpPamInit => snd (pam8403_init e)
  | OpPamShutdown => pam8403_shutdown e
  | OpPamWakeup => pam8403_wakeup e
  | OpPamSetGain g => pam8403_set_gain g e
  end.

Definition run_ops (ops : list engine_op) (e : engine) : engine :=
  fold_left (fun e op => run_op op e) ops e.

(** The volume invariant of the data model. *)
Definition volume_ok (e : engine) : Prop :=
  0 <= current_volume e <= PWM_AUDIO_MAX_VOLUME.

End PwmAudio.

Module Speaker.

(** *** speaker_pwm.h *)

Definition MAX_BLOCK_SIZE : Z := 10000.
Definition BLOCK_COUNT : nat := 2.
Definition SAMPLE_FREQUENCY : Z := 8000.
Definition NUMBER_OF_CHANNELS : Z := 2.
Definition PACKET_SIZE : Z := 400.
Definition WORD_SIZE : Z := 16.
Definition NUM_CHANNELS : Z := 2.

(** Number of [int16_t] slots in one block of [mem_slab]. *)
Definition BLOCK_SAMPLES : nat := Z.to_nat (Z.quot MAX_BLOCK_SIZE 2).

(** *** speaker_pwm.c: the state of the translation unit

    A block of the slab is the list of its [int16_t] slots.  [rx_buffer] is
    [None] while the pointer is null.  [ptr2] and [clear_ptr] point into the
    block of [rx_buffer]: [Some i] is the address of slot [i], [None] is the
    null pointer.  [play_calls] records the sample count of every
    [pwm_audio_play_mono] call issued by [speak], most recent first. *)
Record speaker := mk_speaker {
  audio : PwmAudio.engine;
  mem_slab : nat;
  rx_buffer : option (list Z);
  buzz_buffer : option (list Z);
  ptr2 : option nat;
  clear_ptr : option nat;
  current_length : Z;
  offset : Z;
  play_calls : list Z
}.

Definition with_audio (a : PwmAudio.engine) (s : speaker) : speaker :=
  mk_speaker a (mem_slab s) (rx_buffer s) (buzz_buffer s) (ptr2 s)
    (clear_ptr s) (current_length s) (offset s) (play_calls s).

Definition with_mem_slab (n : nat) (s : speaker) : speaker :=
  mk_speaker (audio s) n (rx_buffer s) (buzz_buffer s) (ptr2 s) (clear_ptr s)
    (current_length s) (offset s) (play_calls s).

Definition with_rx_buffer (b : option (list Z)) (s : speaker) : speaker :=
  mk_speaker (audio s) (mem_slab s) b (buzz_buffer s) (ptr2 s) (clear_ptr s)
    (current_length s) (offset s) (play_calls s).

Definition with_buzz_buffer (b : option (list Z)) (s : speaker) : speaker :=
  mk_speaker (audio s) (mem_slab s) (rx_buffer s) b (ptr2 s) (clear_ptr s)
    (current_length s) (offset s) (play_calls s).

Definition with_ptr2 (p : option nat) (s : speaker) : speaker :=
  mk_speaker (audio s) (mem_slab s) (rx_buffer s) (buzz_buffer s) p
    (clear_ptr s) (current_length s) (offset s) (play_calls s).

Definition with_clear_ptr (p : option nat) (s : speaker) : speaker :=
  mk_speaker (audio s) (mem_slab s) (rx_buffer s) (buzz_buffer s) (ptr2 s) p
    (current_length s) (offset s) (play_calls s).

Definition with_current_length (n : Z) (s : speaker) : speaker :=
  mk_speaker (audio s) (mem_slab s) (rx_buffer s) (buzz_buffer s) (ptr2 s)
    (clear_ptr s) n (offset s) (play_calls s).

Definition with_offset (n : Z) (s : speaker) : speaker :=
  mk_speaker (audio s) (mem_slab s) (rx_buffer s) (buzz_buffer s) (ptr2 s)
    (clear_ptr s) (current_length s) n (play_calls s).

Definition with_play_calls (c : list Z) (s : speaker) : speaker :=
  mk_speaker (audio s) (mem_slab s) (rx_buffer s) (buzz_buffer s) (ptr2 s)
    (clear_ptr s) (current_length s) (offset s) c.

Definition power_on (a : PwmAudio.engine) : speaker :=
  mk_speaker a BLOCK_COUNT None None None None 0 0 [].

(** [k_mem_slab_alloc]: a block, or failure when none is free. *)
Definition k_mem_slab_alloc (s : speaker) : Z * speaker :=
  match mem_slab s with
  | O => (- ENOMEM, s)
  | S n => (0, with_mem_slab n s)
  end.

Definition zero_block : list Z := replicate BLOCK_SAMPLES 0.

Definition speaker_init (s : speaker) : Z * speaker :=
  let '(err, a) := PwmAudio.pwm_audio_init (audio s) in
  let s := with_audio a s in
  if negb (err =? 0) then (err, s) else
  (* A block is handed out with unspecified contents; its slots are given
     the value 0 here already, the value the two memsets below write.  A
     failed allocation stores the null pointer. *)
  let '(err, s) := k_mem_slab_alloc s in
  let s := with_rx_buffer (if err =? 0 then Some zero_block else None) s in
  if negb (err =? 0) then (-1, s) else
  let '(err, s) := k_mem_slab_alloc s in
  let s := with_buzz_buffer (if err =? 0 then Some zero_block else None) s in
  if negb (err =? 0) then (-1, s) else
  let s := with_rx_buffer (Some zero_block) s in
  let s := with_buzz_buffer (Some zero_block) s in
  let s := with_audio (PwmAudio.pwm_audio_unmute (audio s)) s in
  (0, s).

(** *** Reading the transport buffer: [buf] is the list of its bytes. *)

(** [((uint32_t * )buf)[0]], little endian. *)
Definition read_uint32 (buf : list Z) : option Z :=
  b0 ← buf !! 0%nat; b1 ← buf !! 1%nat; b2 ← buf !! 2%nat; b3 ← buf !! 3%nat;
  Some (Z.lor (Z.lor b0 (Z.shiftl b1 8))
              (Z.lor (Z.shiftl b2 16) (Z.shiftl b3 24))).

(** [((int16_t * )buf)[i]], little endian. *)
Definition read_int16 (buf : list Z) (i : nat) : option Z :=
  lo ← buf !! (2 * i)%nat; hi ← buf !! (2 * i + 1)%nat;
  Some (to_int16 (Z.lor lo (Z.shiftl hi 8))).

(** [*ptr2++ = v]: undefined through a null pointer or past the block. *)
Definition store_ptr2 (v : Z) (s : speaker) : option speaker :=
  p ← ptr2 s;
  block ← rx_buffer s;
  if decide (p < length block)%nat
  then Some (with_ptr2 (Some (S p)) (with_rx_buffer (Some (<[p:=v]> block)) s))
  else None.

(** [for (i = ...; i < len/2; i++) { *ptr2++ = buf[i]; *ptr2++ = buf[i]; }]
    with [count] iterations left. *)
Fixpoint copy_samples (count : nat) (i : nat) (buf : list Z) (s : speaker)
    : option speaker :=
  match count with
  | O => Some s
  | S k =>
      v ← read_int16 buf i;
      s ← store_ptr2 v s;
      s ← store_ptr2 v s;
      copy_samples k (S i) buf s
  end.

(** [pwm_audio_play_mono(rx_buffer, MAX_BLOCK_SIZE / sizeof(int16_t))].  The
    engine returns before it reads the buffer when it is not initialised or
    muted; otherwise it reads the whole block. *)
Definition play_rx_buffer (s : speaker) : option (Z * speaker) :=
  let samples := Z.quot MAX_BLOCK_SIZE 2 in
  let s := with_play_calls (samples :: play_calls s) s in
  match rx_buffer s with
  | Some block =>
      let '(res, a) :=
        PwmAudio.pwm_audio_play_mono (take (Z.to_nat samples) block) (audio s) in
      Some (res, with_audio a s)
  | None =>
      if negb (PwmAudio.is_initialized (audio s)) || PwmAudio.is_muted (audio s)
      then Some (fst (PwmAudio.pwm_audio_play_mono [] (audio s)), s)
      else None
  end.

(** [memset(clear_ptr, 0, MAX_BLOCK_SIZE)] *)
Definition clear_block (s : speaker) : option speaker :=
  p ← clear_ptr s;
  block ← rx_buffer s;
  if decide (p = 0%nat ∧ length block = BLOCK_SAMPLES)
  then Some (with_rx_buffer (Some zero_block) s)
  else None.

(** The pointer value [(int16_t * )rx_buffer]. *)
Definition block_base (b : option (list Z)) : option nat :=
  match b with
  | Some _ => Some 0%nat
  | None => None
  end.

(** [speak(len, buf)]; [None] stands for undefined behaviour. *)
Definition speak (len : Z) (buf : list Z) (s : speaker) : option (Z * speaker) :=
  let amount := len in
  if len =? 4 then
    v ← read_uint32 buf;
    let s := with_current_length (to_uint16 v) s in
    let s := with_ptr2 (block_base (rx_buffer s)) s in
    let s := with_clear_ptr (block_base (rx_buffer s)) s in
    Some (amount, s)
  else if current_length s >? PACKET_SIZE then
    let s := with_current_length (to_uint16 (current_length s - PACKET_SIZE)) s in
    s ← copy_samples (Z.to_nat (Z.quot len 2)) 0 buf s;
    let s := with_offset (to_uint16 (offset s + len)) s in
    Some (amount, s)
  else if current_length s <? PACKET_SIZE then
    let s := with_current_length (to_uint16 (current_length s - len)) s in
    s ← copy_samples (Z.to_nat (Z.quot len 2)) 0 buf s;
    let s := with_offset (to_uint16 (offset s + len)) s in
    let s := with_offset 0 s in
    '(res, s) ← play_rx_buffer s;
    s ← clear_block s;
    Some (amount, s)
  else Some (amount, s).

(** Feeding a sequence of transport chunks, each with its length. *)
Fixpoint speak_all (chunks : list (Z * list Z)) (s : speaker) : option speaker :=
  match chunks with
  | [] => Some s
  | (len, buf) :: rest => '(_, s) ← speak len buf s; speak_all rest s
  end.

(** *** Boot chime and the thin wrappers *)

(** [buffer[k] = v] in the block of [buzz_buffer]. *)
Definition store_buzz (k : nat) (v : Z) (s : speaker) : option speaker :=
  block ← buzz_buffer s;
  if decide (k < length block)%nat
  then Some (with_buzz_buffer (Some (<[k:=v]> block)) s)
  else None.

(** The loop of [generate_gentle_chime(buffer, num_samples)] with [count]
    iterations left, on the block of [buzz_buffer] (its only caller passes
    that block).  [int_sample] is computed in floating point ([sinf]); it is
    supplied by [gen], index to int16 sample. *)
Fixpoint chime_loop (count : nat) (i : nat) (gen : Z -> Z) (s : speaker)
    : option speaker :=
  match count with
  | O => Some s
  | S k =>
      let int_sample := gen (Z.of_nat i) in
      s ← store_buzz (i * Z.to_nat NUM_CHANNELS) int_sample s;
      s ← store_buzz (i * Z.to_nat NUM_CHANNELS + 1) int_sample s;
      chime_loop k (S i) gen s
  end.

Definition generate_gentle_chime (gen : Z -> Z) (num_samples : Z) (s : speaker)
    : option speaker :=
  chime_loop (Z.to_nat num_samples) 0 gen s.

(** [play_boot_sound()]; [None] stands for undefined behaviour. *)
Definition play_boot_sound (gen : Z -> Z) (s : speaker) : option (Z * speaker) :=
  let samples_per_block := Z.quot MAX_BLOCK_SIZE (NUM_CHANNELS * 2) in
  s ← generate_gentle_chime gen samples_per_block s;
  block ← buzz_buffer s;
  let '(ret, a) :=
    PwmAudio.pwm_audio_play_mono (take (Z.to_nat samples_per_block) block)
      (audio s) in
  let s := with_audio a s in
  if negb (ret =? 0) then Some (ret, s) else Some (0, s).

Definition speaker_off (s : speaker) : speaker :=
  with_audio (PwmAudio.pwm_audio_mute (audio s)) s.

Definition pwm_speaker_init (s : speaker) : Z * speaker :=
  let '(err, a) := PwmAudio.pwm_audio_init (audio s) in (err, with_audio a s).

Definition pwm_speaker_set_volume (volume : Z) (s : speaker) : speaker :=
  with_audio (PwmAudio.pwm_audio_set_volume volume (audio s)) s.

Definition pwm_speaker_mute (s : speaker) : speaker :=
  with_audio (PwmAudio.pwm_audio_mute (audio s)) s.

Definition pwm_speaker_unmute (s : speaker) : speaker :=
  with_audio (PwmAudio.pwm_audio_unmute (audio s)) s.

End Speaker.

Module SdCard.

(** *** The file system of the RTOS

    The firmware uses the file system as a black box.  It is represented by
    the set of path names that exist; a path is a name, compared as a string.
    [fs_full] makes the creation of new entries fail.  [fs_calls] records the
    calls that change or query the name space, oldest first. *)
Inductive fs_call :=
| FsStat (path : string)
| FsUnlink (path : string)
| FsMkdir (path : string)
| FsCreate (path : string).

Record fs_t := mk_fs {
  fs_paths : gset string;
  fs_full : bool;
  fs_calls : list fs_call
}.

Definition ENOSPC : Z := 28.

Definition fs_stat (path : string) (f : fs_t) : Z * fs_t :=
  let f' := mk_fs (fs_paths f) (fs_full f) (fs_calls f ++ [FsStat path]) in
  if decide (path ∈ fs_paths f) then (0, f') else (- ENOENT, f').

Definition fs_unlink (path : string) (f : fs_t) : Z * fs_t :=
  let calls := fs_calls f ++ [FsUnlink path] in
  if decide (path ∈ fs_paths f)
  then (0, mk_fs (fs_paths f ∖ {[path]}) (fs_full f) calls)
  else (- ENOENT, mk_fs (fs_paths f) (fs_full f) calls).

Definition fs_mkdir (path : string) (f : fs_t) : Z * fs_t :=
  let calls := fs_calls f ++ [FsMkdir path] in
  if decide (path ∈ fs_paths f)
  then (- EEXIST, mk_fs (fs_paths f) (fs_full f) calls)
  else if fs_full f
  then (- ENOSPC, mk_fs (fs_paths f) (fs_full f) calls)
  else (0, mk_fs ({[path]} ∪ fs_paths f) (fs_full f) calls).

(** [fs_open(path, FS_O_WRITE | FS_O_CREATE)] followed by [fs_close]. *)
Definition fs_open_create (path : string) (f : fs_t) : Z * fs_t :=
  let calls := fs_calls f ++ [FsCreate path] in
  if decide (path ∈ fs_paths f)
  then (0, mk_fs (fs_paths f) (fs_full f) calls)
  else if fs_full f
  then (- ENOSPC, mk_fs (fs_paths f) (fs_full f) calls)
  else (0, mk_fs ({[path]} ∪ fs_paths f) (fs_full f) calls).

(** *** SD card driver *)

Definition SD_MOUNT_PT : string := "/SD:".
Definition AUDIO_DIR : string := "/SD:/audio".
Definition MAX_AUDIO_FILES : Z := 99.

Record sd := mk_sd {
  fs : fs_t;
  file_count : Z;
  current_read_file : Z;
  current_write_file : Z;
  current_full_path : string;
  read_buffer : string;
  write_buffer : string
}.

Definition with_fs (f : fs_t) (s : sd) : sd :=
  mk_sd f (file_count s) (current_read_file s) (current_write_file s)
    (current_full_path s) (read_buffer s) (write_buffer s).

Definition with_file_count (n : Z) (s : sd) : sd :=
  mk_sd (fs s) n (current_read_file s) (current_write_file s)
    (current_full_path s) (read_buffer s) (write_buffer s).

Definition with_current_read_file (n : Z) (s : sd) : sd :=
  mk_sd (fs s) (file_count s) n (current_write_file s) (current_full_path s)
    (read_buffer s) (write_buffer s).

Definition with_current_write_file (n : Z) (s : sd) : sd :=
  mk_sd (fs s) (file_count s) (current_read_file s) n (current_full_path s)
    (read_buffer s) (write_buffer s).

Definition with_current_full_path (p : string) (s : sd) : sd :=
  mk_sd (fs s) (file_count s) (current_read_file s) (current_write_file s) p
    (read_buffer s) (write_buffer s).

Definition with_read_buffer (p : string) (s : sd) : sd :=
  mk_sd (fs s) (file_count s) (current_read_file s) (current_write_file s)
    (current_full_path s) p (write_buffer s).

Definition with_write_buffer (p : string) (s : sd) : sd :=
  mk_sd (fs s) (file_count s) (current_read_file s) (current_write_file s)
    (current_full_path s) (read_buffer s) p.

(** The values of the static initialisers, on a card holding [f]. *)
Definition power_on (f : fs_t) : sd := mk_sd f 0 1 1 "" "" "".

Definition char_of (code : Z) : Ascii.ascii := Ascii.ascii_of_N (Z.to_N code).

(** [generate_new_audio_header(num)]: [None] is the null pointer. *)
Definition generate_new_audio_header (num : Z) : option string :=
  if num >? 99 then None else
  Some (String "a"%char (String "u"%char (String "d"%char (String "i"%char
       (String "o"%char (String "/"%char (String "a"%char
       (String (char_of (48 + Z.quot num 10))
       (String (char_of (48 + Z.rem num 10))
       (String "."%char (String "t"%char (String "x"%char (String "t"%char
        EmptyString))))))))))))).

(** *** Directory streams

    An open directory is the list of the answers its successive [fs_readdir]
    calls give, each a return value and an entry.  At the end of the
    directory [fs_readdir] returns 0 and an entry with an empty name. *)
Record fs_dirent := mk_dirent {
  d_name : string;
  d_size : Z
}.

Definition fs_dir_t : Type := list (Z * fs_dirent).

Definition fs_readdir (zdp : fs_dir_t) : Z * fs_dirent * fs_dir_t :=
  match zdp with
  | [] => (0, mk_dirent "" 0, [])
  | (ret, entry) :: rest => (ret, entry, rest)
  end.

(** [name[0] == 0] *)
Definition name_is_empty (name : string) : bool :=
  match name with
  | EmptyString => true
  | String c _ => bool_decide (c = Ascii.zero)
  end.

(** [file_num_array[count] = size] on [uint32_t file_num_array[2]];
    undefined outside the array. *)
Definition store_file_num (count size : Z) (file_num_array : list Z)
    : option (list Z) :=
  if decide (0 <= count < Z.of_nat (length file_num_array))
  then Some (<[Z.to_nat count := to_uint32 size]> file_num_array)
  else None.

(** [while (fs_readdir(zdp, entry) == 0) { if (entry->name[0] == 0) break;
    file_num_array[count] = entry->size; count++; }]; the match is
    [fs_readdir] on the rest of the stream. *)
Fixpoint get_file_contents_loop (zdp : fs_dir_t) (count : Z)
    (file_num_array : list Z) : option (Z * list Z) :=
  match zdp with
  | [] => Some (count, file_num_array)
  | (ret, entry) :: rest =>
      if negb (ret =? 0) then Some (count, file_num_array) else
      if name_is_empty (d_name entry) then Some (count, file_num_array) else
      file_num_array ← store_file_num count (d_size entry) file_num_array;
      get_file_contents_loop rest (count + 1) file_num_array
  end.

(** [get_file_contents(zdp, entry)]: the count it returns and the contents
    of [file_num_array]; [None] stands for undefined behaviour. *)
Definition get_file_contents (zdp : fs_dir_t) (file_num_array : list Z)
    : option (Z * list Z) :=
  let '(ret, entry, zdp) := fs_readdir zdp in
  if negb (ret =? 0) then Some (-1, file_num_array) else
  if name_is_empty (d_name entry) then Some (0, file_num_array) else
  let count := 0 in
  file_num_array ← store_file_num count (d_size entry) file_num_array;
  let count := count + 1 in
  get_file_contents_loop zdp count file_num_array.

Section Driver.

(** What the C library prints for a null pointer under [%s]: the code passes
    the result of [generate_new_audio_header] to [snprintf] unchecked. *)
Variable null_text : string.

(** [snprintf(dst, MAX_PATH, "%s%s", SD_MOUNT_PT, header)] *)
Definition mount_path (header : option string) : string :=
  SD_MOUNT_PT +:+ (match header with Some h => h | None => null_text end).

Definition create_file (file_path : string) (s : sd) : Z * sd :=
  let s := with_current_full_path (SD_MOUNT_PT +:+ file_path) s in
  let '(ret, f) := fs_open_create (current_full_path s) (fs s) in
  let s := with_fs f s in
  if negb (ret =? 0) then (-2, s) else (0, s).

Definition move_read_pointer (num : Z) (s : sd) : Z * sd :=
  let read_ptr := generate_new_audio_header num in
  let s := with_read_buffer (mount_path read_ptr) s in
  let '(res, f) := fs_stat (read_buffer s) (fs s) in
  let s := with_fs f s in
  if negb (res =? 0) then (-1, s) else
  let s := with_current_read_file num s in
  (0, s).

Definition move_write_pointer (num : Z) (s : sd) : Z * sd :=
  let write_ptr := generate_new_audio_header num in
  let s := with_write_buffer (mount_path write_ptr) s in
  let '(res, f) := fs_stat (write_buffer s) (fs s) in
  let s := with_fs f s in
  if negb (res =? 0) then (-1, s) else
  let s := with_current_write_file num s in
  (0, s).

Definition delete_audio_file (num : Z) (s : sd) : Z * sd :=
  let ptr := generate_new_audio_header num in
  let s := with_current_full_path (mount_path ptr) s in
  let '(res, f) := fs_unlink (current_full_path s) (fs s) in
  let s := with_fs f s in
  if negb (res =? 0) then (-1, s) else (0, s).

(** [for (uint8_t i = file_count; i > 0; i--)] of [clear_audio_directory];
    a failed deletion leaves the function with -1. *)
Fixpoint delete_down_from (i : nat) (s : sd) : Z * sd :=
  match i with
  | O => (0, s)
  | S k =>
      let '(res, s) := delete_audio_file (Z.of_nat i) s in
      if negb (res =? 0) then (-1, s) else delete_down_from k s
  end.

Definition clear_audio_directory (s : sd) : Z * sd :=
  if file_count s =? 1 then (0, s) else
  let '(res, s) := delete_down_from (Z.to_nat (file_count s)) s in
  if negb (res =? 0) then (-1, s) else
  let '(res, f) := fs_unlink "/SD:/audio" (fs s) in
  let s := with_fs f s in
  if negb (res =? 0) then (-1, s) else
  let '(res, f) := fs_mkdir "/SD:/audio" (fs s) in
  let s := with_fs f s in
  if negb (res =? 0) then (-1, s) else
  let '(res, s) := create_file "audio/a01.txt" s in
  if negb (res =? 0) then (-1, s) else
  let s := with_file_count 1 s in
  let '(_, s) := move_write_pointer 1 s in
  (0, s).

(** [clear_audio_file(num)]: the second header goes to [create_file]
    unchecked, a null pointer reaches [snprintf] there. *)
Definition clear_audio_file (num : Z) (s : sd) : Z * sd :=
  let clear_header := generate_new_audio_header num in
  let s := with_current_full_path (mount_path clear_header) s in
  let '(res, f) := fs_unlink (current_full_path s) (fs s) in
  let s := with_fs f s in
  if negb (res =? 0) then (-1, s) else
  let create_file_header := generate_new_audio_header num in
  let '(res, s) :=
    create_file (match create_file_header with
                 | Some h => h
                 | None => null_text
                 end) s in
  if negb (res =? 0) then (-1, s) else (0, s).

End Driver.

End SdCard.

Module SdCardIo.

(** *** File contents

    The functions of the SD card driver that read and write the contents of
    files.  For them the volume, mounted throughout, is the map from the
    paths that exist to their bytes; [sd_card_state] is the driver's own
    record of the mount.  An [fs_file_t] is [None] after [fs_file_t_init] and after
    a failed [fs_open]; the calls on such an object answer [-EBADF].  An
    open one holds its path, its position and whether it was opened with
    [FS_O_APPEND].  [fs_close] has no effect that the driver can see. *)
Abbreviation volume := (gmap string (list Z)).

Record fs_file_t := mk_file {
  f_path : string;
  f_pos : nat;
  f_append : bool
}.

(** [fs_open(file, path, flags)]; [create] and [append] are the flags
    [FS_O_CREATE] and [FS_O_APPEND].  An existing file is opened as it is,
    at position 0. *)
Definition fs_open (path : string) (create append : bool) (v : volume)
    : Z * option fs_file_t * volume :=
  match v !! path with
  | Some _ => (0, Some (mk_file path 0 append), v)
  | None =>
      if create then (0, Some (mk_file path 0 append), <[path := []]> v)
      else (- ENOENT, None, v)
  end.

(** [fs_write(file, data, n)]: at the end of the file under [FS_O_APPEND],
    at the position otherwise.  [None] when [data] holds fewer than [n]
    bytes. *)
Definition fs_write (file : option fs_file_t) (data : list Z) (n : nat)
    (v : volume) : option (Z * option fs_file_t * volume) :=
  match file with
  | None => Some (- EBADF, None, v)
  | Some h =>
      match v !! f_path h with
      | None => Some (- EBADF, file, v)
      | Some bytes =>
          if decide (n <= length data)%nat then
            let pos := if f_append h then length bytes else f_pos h in
            let bytes' := take pos bytes ++ take n data ++ drop (pos + n) bytes in
            Some (Z.of_nat n,
                  Some (mk_file (f_path h) (pos + n) (f_append h)),
                  <[f_path h := bytes']> v)
          else None
      end
  end.

(** [fs_seek(file, offset, FS_SEEK_SET)] *)
Definition fs_seek (file : option fs_file_t) (offset : Z) (v : volume)
    : Z * option fs_file_t :=
  match file with
  | None => (- EBADF, None)
  | Some h =>
      match v !! f_path h with
      | None => (- EBADF, file)
      | Some bytes =>
          if decide (0 <= offset <= Z.of_nat (length bytes))
          then (0, Some (mk_file (f_path h) (Z.to_nat offset) (f_append h)))
          else (- EINVAL, file)
      end
  end.

(** [fs_read(file, dst, n)]: the return value and the bytes stored at the
    start of [dst]. *)
Definition fs_read (file : option fs_file_t) (n : nat) (v : volume)
    : Z * list Z * option fs_file_t :=
  match file with
  | None => (- EBADF, [], None)
  | Some h =>
      match v !! f_path h with
      | None => (- EBADF, [], file)
      | Some bytes =>
          let got := take n (drop (f_pos h) bytes) in
          (Z.of_nat (length got), got,
           Some (mk_file (f_path h) (f_pos h + length got) (f_append h)))
      end
  end.

Definition fs_unlink (path : string) (v : volume) : Z * volume :=
  match v !! path with
  | Some _ => (0, delete path v)
  | None => (- ENOENT, v)
  end.

(** *** C strings: the bytes of a text, and the bytes before the first NUL *)

Definition bytes_of_string (text : string) : list Z :=
  map (fun c => Z.of_N (Ascii.N_of_ascii c)) (String.list_ascii_of_string text).

Fixpoint c_str (bytes : list Z) : list Z :=
  match bytes with
  | [] => []
  | b :: rest => if b =? 0 then [] else b :: c_str rest
  end.

(** *** SD card driver *)

Definition MAX_PATH : nat := 128.

Inductive sd_card_state_t :=
| SD_CARD_UNINITIALIZED
| SD_CARD_INITIALIZED
| SD_CARD_MOUNTED
| SD_CARD_ERROR.

Definition is_mounted (state : sd_card_state_t) : bool :=
  match state with
  | SD_CARD_MOUNTED => true
  | _ => false
  end.

Record card := mk_card {
  sd_card_state : sd_card_state_t;
  vol : volume;
  read_buffer : string;
  write_buffer : string
}.

Definition with_vol (v : volume) (c : card) : card :=
  mk_card (sd_card_state c) v (read_buffer c) (write_buffer c).

(** [snprintf(filepath, sizeof(filepath), "%s/%s", SD_MOUNT_PT, filename)] *)
Definition snprintf_path (filename : string) : string :=
  String.substring 0 (MAX_PATH - 1) (SdCard.SD_MOUNT_PT +:+ "/" +:+ filename).

(** [sd_card_create_file(filename, content)]; [content] is [None] for the
    null pointer. *)
Definition sd_card_create_file (filename : string) (content : option string)
    (c : card) : option (Z * card) :=
  if negb (is_mounted (sd_card_state c)) then Some (- ENODEV, c) else
  let filepath := snprintf_path filename in
  let '(ret, file, v) := fs_open filepath true false (vol c) in
  let c := with_vol v c in
  if negb (ret =? 0) then Some (ret, c) else
  match content with
  | Some text =>
      let data := c_str (bytes_of_string text) in
      '(ret, file, v) ← fs_write file data (length data) (vol c);
      let c := with_vol v c in
      if ret <? 0 then Some (ret, c) else Some (0, c)
  | None => Some (0, c)
  end.

(** [sd_card_read_file(filename, buffer, buffer_size)]: the return value
    and the caller's array afterwards; [buffer] is that array before the
    call.  [None] when the function writes past its end. *)
Definition sd_card_read_file (filename : string) (buffer : list Z)
    (buffer_size : Z) (c : card) : option (Z * list Z) :=
  if negb (is_mounted (sd_card_state c)) then Some (- ENODEV, buffer) else
  let filepath := snprintf_path filename in
  let '(ret, file, v) := fs_open filepath false false (vol c) in
  if negb (ret =? 0) then Some (ret, buffer) else
  let '(ret, got, file) :=
    fs_read file (Z.to_nat (to_uint32 (buffer_size - 1))) (vol c) in
  if ret <? 0 then Some (ret, buffer) else
  if decide (length got < length buffer)%nat
  then Some (ret, got ++ 0 :: drop (S (length got)) buffer)
  else None.

Definition sd_card_delete_file (filename : string) (c : card) : Z * card :=
  if negb (is_mounted (sd_card_state c)) then (- ENODEV, c) else
  let filepath := snprintf_path filename in
  let '(ret, v) := fs_unlink filepath (vol c) in
  let c := with_vol v c in
  if negb (ret =? 0) then (ret, c) else (0, c).

(** [sd_card_test_read_write()]; [stack] is what the 256 bytes of the local
    [read_buffer] hold on entry. *)
Definition sd_card_test_read_write (stack : list Z) (c : card)
    : option (Z * card) :=
  let test_filename := "test.txt" in
  let test_content := "Hello from OMI Triangle v2 SD Card!" in
  '(ret, c) ← sd_card_create_file test_filename (Some test_content) c;
  if negb (ret =? 0) then Some (ret, c) else
  '(ret, read_buffer) ← sd_card_read_file test_filename stack 256 c;
  if ret <? 0 then Some (ret, c) else
  if negb (bool_decide (c_str read_buffer = c_str (bytes_of_string test_content)))
  then Some (- EIO, c) else
  let '(ret, c) := sd_card_delete_file test_filename c in
  if negb (ret =? 0) then Some (ret, c) else
  Some (0, c).

(** [write_to_file(data, length)]: the results of [fs_open] and [fs_write]
    are not looked at. *)
Definition write_to_file (data : list Z) (length : Z) (c : card)
    : option (Z * card) :=
  let '(_, write_file, v) := fs_open (write_buffer c) false true (vol c) in
  let c := with_vol v c in
  '(_, write_file, v) ← fs_write write_file data (Z.to_nat length) (vol c);
  let c := with_vol v c in
  Some (0, c).

(** [read_audio_data(buf, amount, offset)]: the return value and the bytes
    stored at the start of [buf]. *)
Definition read_audio_data (amount offset : Z) (c : card) : Z * list Z :=
  let '(rc, read_file, v) := fs_open (read_buffer c) false false (vol c) in
  let '(rc, read_file) := fs_seek read_file offset (vol c) in
  let '(rc, got, read_file) :=
    fs_read read_file (Z.to_nat (to_uint32 amount)) (vol c) in
  (rc, got).

Definition save_offset (offset : Z) (c : card) : option (Z * card) :=
  let buf := [Z.land offset 255;
              Z.land (Z.shiftr offset 8) 255;
              Z.land (Z.shiftr offset 16) 255;
              Z.land (Z.shiftr offset 24) 255] in
  let '(res, write_file, v) := fs_open "/SD:/info.txt" true false (vol c) in
  let c := with_vol v c in
  if negb (res =? 0) then Some (res, c) else
  '(res, write_file, v) ← fs_write write_file buf 4 (vol c);
  let c := with_vol v c in
  if res <? 0 then Some (res, c) else
  Some (0, c).

(** [get_offset()]: [None] when [buf] is read before it was filled. *)
Definition get_offset (c : card) : option Z :=
  let '(rc, read_file, v) := fs_open "/SD:/info.txt" false false (vol c) in
  if rc <? 0 then Some rc else
  let '(rc, read_file) := fs_seek read_file 0 (vol c) in
  if rc <? 0 then Some rc else
  let '(rc, buf, read_file) := fs_read read_file 4 (vol c) in
  if rc <? 0 then Some rc else
  offset ← Speaker.read_uint32 buf;
  Some (to_int32 offset).

Definition is_sd_on (c : card) : bool := is_mounted (sd_card_state c).

End SdCardIo.

(** * Reference values and specification functions *)

(** The codec without its casts: clip, re-centre, rescale, keep off the
    rails. *)
Definition codec_closed_form (volume sample : Z) : Z :=
  Z.max 3 (Z.min 997
    ((Z.max (-128) (Z.min 127 (Z.quot (sample * volume) 256)) + 128)
       * 1000 / 256)).

(** The engine [e] in the middle of a ramp: same devices and flags, the
    timer armed, and the given volume, mute flag and ramp statics. *)
Definition ramping (e : PwmAudio.engine) (volume : Z) (muted : bool)
    (k target : Z) (to_mute : bool) : PwmAudio.engine :=
  PwmAudio.mk_engine volume muted (PwmAudio.is_initialized e) k target to_mute
    (Some PwmAudio.ramp_period_ms) (PwmAudio.pwm_audio_l e)
    (PwmAudio.pwm_audio_r e) (PwmAudio.pam8403_shutdown_pin e)
    (PwmAudio.pam8403_gain0_pin e) (PwmAudio.pam8403_gain1_pin e)
    (PwmAudio.audio_mem_slab e).

(** A board on which every driver answers. *)
Definition healthy_pwm : pwm_dev := mk_pwm true 0 [].
Definition healthy_pin : gpio_pin := mk_pin true 0 None.

Definition engine_at_power_on : PwmAudio.engine :=
  PwmAudio.power_on healthy_pwm healthy_pwm healthy_pin healthy_pin healthy_pin.

(** After [pwm_audio_init]: initialised and muted. *)
Definition engine_muted : PwmAudio.engine :=
  snd (PwmAudio.pwm_audio_init engine_at_power_on).

(** After [pwm_audio_unmute], the 20 ticks of its ramp and
    [pwm_audio_set_volume(180)]: playing at full volume, ramp idle. *)
Definition engine_playing : PwmAudio.engine :=
  PwmAudio.pwm_audio_set_volume 180
    (PwmAudio.timer_ticks 20 (PwmAudio.pwm_audio_unmute engine_muted)).

(** The speaker after [speaker_init] on that board. *)
Definition speaker_ready : Speaker.speaker :=
  snd (Speaker.speaker_init (Speaker.power_on engine_at_power_on)).

(** The control chunk announcing 800 bytes (little endian), the one
    announcing 799, and data chunks whose samples are all 0x0101. *)
Definition header_800 : list Z := [32; 3; 0; 0].
Definition header_799 : list Z := [31; 3; 0; 0].
Definition packet_0101 : list Z := replicate 400 1.
Definition packet_0101_short : list Z := replicate 399 1.

Definition chunks_800 (d1 d2 : list Z) : list (Z * list Z) :=
  [(4, header_800); (400, d1); (400, d2)].

(** The path under which the driver looks for audio file [num]. *)
Definition audio_path (null_text : string) (num : Z) : string :=
  SdCard.mount_path null_text (SdCard.generate_new_audio_header num).

(** The paths of the audio files numbered 1 to [n]. *)
Fixpoint numbered (null_text : string) (n : nat) : gset string :=
  match n with
  | O => ∅
  | S k => {[audio_path null_text (Z.of_nat n)]} ∪ numbered null_text k
  end.

(** The [fs_unlink] calls of the deletion loop started at [n]. *)
Fixpoint unlinks_down_from (null_text : string) (n : nat)
    : list SdCard.fs_call :=
  match n with
  | O => []
  | S k => SdCard.FsUnlink (audio_path null_text (Z.of_nat n))
             :: unlinks_down_from null_text k
  end.

(** A card holding the audio directory and the files 1 to 5, with the read
    cursor on file 3 and the write cursor on file 5. *)
Definition card_five_files : SdCard.fs_t :=
  SdCard.mk_fs
    (list_to_set ["/SD:/audio"; "/SD:audio/a01.txt"; "/SD:audio/a02.txt";
                  "/SD:audio/a03.txt"; "/SD:audio/a04.txt"; "/SD:audio/a05.txt"])
    false [].

Definition sd_five_files : SdCard.sd :=
  SdCard.mk_sd card_five_files 5 3 5 "" "/SD:audio/a03.txt" "/SD:audio/a05.txt".



(** A PWM channel after the (period, pulse) pairs [writes] were programmed,
    first to last. *)
Definition pwm_written (d : pwm_dev) (writes : list (Z * Z)) : pwm_dev :=
  mk_pwm (pwm_ready d) (pwm_fault d) (rev writes ++ pwm_log d).

(** The pairs [pwm_audio_play_mono] programs for a buffer at a volume. *)
Definition mono_writes (volume : Z) (buffer : list Z) : list (Z * Z) :=
  map (fun sample => (PwmAudio.PWM_AUDIO_PERIOD_NS,
                      PwmAudio.audio_sample_to_pwm volume sample)) buffer.

(** The complete (left, right) pairs of an interleaved buffer. *)
Fixpoint stereo_pairs (buffer : list Z) : list (Z * Z) :=
  match buffer with
  | l :: r :: rest => (l, r) :: stereo_pairs rest
  | _ => []
  end.

(** The block [generate_gentle_chime] leaves for [n] samples: every sample
    twice, left slot then right slot. *)
Definition chime_block (gen : Z -> Z) (first n : nat) : list Z :=
  flat_map (fun i => [gen (Z.of_nat i); gen (Z.of_nat i)]) (seq first n).

(** A directory entry as [fs_readdir] reports it without error. *)
Definition listed (name : string) (size : Z) : Z * SdCard.fs_dirent :=
  (0, SdCard.mk_dirent name size).

(** The answers of a stream that are regular entries: no error, a name. *)
Definition regular_entry (answer : Z * SdCard.fs_dirent) : Prop :=
  fst answer = 0 /\ SdCard.name_is_empty (SdCard.d_name (snd answer)) = false.

Definition entry_sizes (zdp : SdCard.fs_dir_t) : list Z :=
  map (fun answer => to_uint32 (SdCard.d_size (snd answer))) zdp.

(** Sample [i] of a transport buffer, as [speak] reads it. *)
Definition sample_at (buf : list Z) (i : nat) : Z :=
  default 0 (Speaker.read_int16 buf i).

(** What the copy loop of [speak] stores for the samples [first], ...,
    [first + count - 1]: every sample twice. *)
Definition doubled_samples (buf : list Z) (first count : nat) : list Z :=
  flat_map (fun i => [sample_at buf i; sample_at buf i]) (seq first count).

(** The receive block after that loop wrote [count] samples at slot [p]. *)
Definition block_with_samples (block : list Z) (p : nat) (buf : list Z)
    (count : nat) : list Z :=
  take p block ++ doubled_samples buf 0 count ++ drop (p + 2 * count) block.

(** The bytes of the self-test text of [sd_card_test_read_write]. *)
Definition test_text : list Z :=
  Eval cbv in
    SdCardIo.c_str
      (SdCardIo.bytes_of_string "Hello from OMI Triangle v2 SD Card!").

(** * Properties *)

#[local] Set Warnings "-clear-no-such-hyp".

(** Case analysis on every integer comparison in sight. *)
Ltac split_cmp :=
  repeat match goal with
  | |- context [?a >? ?b] => destruct (Z.gtb_spec a b)
  | |- context [?a <? ?b] => destruct (Z.ltb_spec a b)
  | |- context [?a >=? ?b] => destruct (Z.geb_spec a b)
  | |- context [?a <=? ?b] => destruct (Z.leb_spec a b)
  | |- context [?a =? ?b] => destruct (Z.eqb_spec a b)
  | H : context [?a >? ?b] |- _ => destruct (Z.gtb_spec a b)
  | H : context [?a <? ?b] |- _ => destruct (Z.ltb_spec a b)
  | H : context [?a >=? ?b] |- _ => destruct (Z.geb_spec a b)
  | H : context [?a <=? ?b] |- _ => destruct (Z.leb_spec a b)
  | H : context [?a =? ?b] |- _ => destruct (Z.eqb_spec a b)
  end.

Lemma to_uint8_small x : 0 <= x <= 255 -> to_uint8 x = x.
Proof. intros H. unfold to_uint8. apply Z.mod_small. lia. Qed.

Lemma to_uint8_range x : 0 <= to_uint8 x <= 255.
Proof. unfold to_uint8. pose proof (Z.mod_pos_bound x 256). lia. Qed.

Lemma to_uint16_small x : 0 <= x <= 65535 -> to_uint16 x = x.
Proof. intros H. unfold to_uint16. apply Z.mod_small. lia. Qed.

(** ** Sample codec *)

Section Codec.
Import PwmAudio.

Lemma period_ns_value : PWM_AUDIO_PERIOD_NS = 1000.
Proof. reflexivity. Qed.

Lemma audio_sample_to_pwm_closed_form volume sample :
  audio_sample_to_pwm volume sample = codec_closed_form volume sample.
Proof.
  unfold audio_sample_to_pwm, codec_closed_form.
  rewrite period_ns_value.
  change (Z.quot 1000 256) with 3. change (1000 - 3) with 997.
  set (q := Z.quot (sample * volume) 256).
  set (c := Z.max (-128) (Z.min 127 q)).
  assert (Hc : (if (if q >? 127 then 127 else q) <? -128 then -128
                else if q >? 127 then 127 else q) = c).
  { unfold c. split_cmp; lia. }
  rewrite Hc. clear Hc.
  assert (Hr : -128 <= c <= 127) by (unfold c; lia).
  rewrite (to_uint8_small (c + 128)) by lia.
  rewrite Z.quot_div_nonneg by lia.
  set (p := (c + 128) * 1000 / 256).
  assert (Hp : 0 <= p <= 996).
  { split; [unfold p|].
    - apply Z.div_pos; lia.
    - enough (p < 997) by lia. apply Z.div_lt_upper_bound; lia. }
  assert (Hw : to_uint32 p = p).
  { unfold to_uint32. apply Z.mod_small. lia. }
  rewrite Hw.
  split_cmp; lia.
Qed.

Lemma codec_closed_form_mono volume s1 s2 :
  0 <= volume -> s1 <= s2 ->
  codec_closed_form volume s1 <= codec_closed_form volume s2.
Proof.
  intros Hv Hs. unfold codec_closed_form.
  assert (Hq : Z.quot (s1 * volume) 256 <= Z.quot (s2 * volume) 256).
  { apply Z.quot_le_mono; [lia | nia]. }
  assert (Hd :
    (Z.max (-128) (Z.min 127 (Z.quot (s1 * volume) 256)) + 128) * 1000 / 256
    <= (Z.max (-128) (Z.min 127 (Z.quot (s2 * volume) 256)) + 128) * 1000 / 256).
  { apply Z.div_le_mono; lia. }
  lia.
Qed.

End Codec.

(** C3.  For every 16-bit sample and every volume in [0, 180] the pulse
    width computed by [audio_sample_to_pwm] lies in
    [PERIOD_NS/256, PERIOD_NS - PERIOD_NS/256], which is [3, 997] for the
    period of 1000 ns: neither the 0% nor the 100% rail is reached. *)
Theorem codec_keeps_off_the_rails (sample volume : Z) :
  is_int16 sample ->
  0 <= volume <= PwmAudio.PWM_AUDIO_MAX_VOLUME ->
  let duty := PwmAudio.audio_sample_to_pwm volume sample in
  Z.quot PwmAudio.PWM_AUDIO_PERIOD_NS 256 <= duty
    <= PwmAudio.PWM_AUDIO_PERIOD_NS - Z.quot PwmAudio.PWM_AUDIO_PERIOD_NS 256
  /\ PwmAudio.PWM_AUDIO_PERIOD_NS = 1000
  /\ 3 <= duty <= 997
  /\ 0 < duty < PwmAudio.PWM_AUDIO_PERIOD_NS.
Proof.
  intros _ _ duty. subst duty.
  rewrite audio_sample_to_pwm_closed_form, period_ns_value.
  change (Z.quot 1000 256) with 3.
  unfold codec_closed_form. lia.
Qed.

Lemma codec_keeps_off_the_rails_witness :
  3 <= PwmAudio.audio_sample_to_pwm 180 (-32768) <= 997.
Proof.
  apply (codec_keeps_off_the_rails (-32768) 180);
    unfold is_int16, PwmAudio.PWM_AUDIO_MAX_VOLUME; lia.
Defined.

(** C6.  At a fixed volume v > 0 the codec is monotone: for 16-bit samples
    s1 <= s2 the duty of s1 is at most the duty of s2. *)
Theorem codec_monotone (v s1 s2 : Z) :
  0 < v ->
  is_int16 s1 -> is_int16 s2 ->
  s1 <= s2 ->
  PwmAudio.audio_sample_to_pwm v s1 <= PwmAudio.audio_sample_to_pwm v s2.
Proof.
  intros Hv _ _ Hs.
  rewrite !audio_sample_to_pwm_closed_form.
  apply codec_closed_form_mono; lia.
Qed.

Lemma codec_monotone_witness :
  PwmAudio.audio_sample_to_pwm 180 (-100) <= PwmAudio.audio_sample_to_pwm 180 100.
Proof.
  apply (codec_monotone 180 (-100) 100); unfold is_int16; lia.
Defined.

(** ** Engine state *)

Section Volume.
Import PwmAudio.

Lemma pam8403_set_gain_volume g e :
  current_volume (pam8403_set_gain g e) = current_volume e.
Proof. unfold pam8403_set_gain. repeat case_match; reflexivity. Qed.

Lemma pam8403_shutdown_volume e :
  current_volume (pam8403_shutdown e) = current_volume e.
Proof. unfold pam8403_shutdown. repeat case_match; reflexivity. Qed.

Lemma pam8403_wakeup_volume e :
  current_volume (pam8403_wakeup e) = current_volume e.
Proof. unfold pam8403_wakeup. repeat case_match; reflexivity. Qed.

Lemma pam8403_init_volume e :
  current_volume (snd (pam8403_init e)) = current_volume e.
Proof.
  unfold pam8403_init. repeat case_match; cbn [snd]; try reflexivity.
  all: rewrite ?pam8403_wakeup_volume, ?pam8403_set_gain_volume.
  all: repeat case_match; reflexivity.
Qed.

Lemma pwm_audio_init_volume e :
  current_volume (snd (pwm_audio_init e)) = current_volume e.
Proof.
  unfold pwm_audio_init. repeat case_match; cbn [snd]; try reflexivity.
  all: match goal with
       | H : pam8403_init ?x = (_, ?y) |- _ =>
           change y with (snd (pair (A:=Z) 0 y));
           pose proof (pam8403_init_volume x) as Hv; rewrite H in Hv;
           cbn [snd] in Hv
       end.
  all: cbn [snd current_volume with_initialized with_muted] in *; try (rewrite Hv; reflexivity).
Qed.

Lemma play_mono_loop_volume buffer e :
  current_volume (snd (play_mono_loop buffer e)) = current_volume e.
Proof.
  revert e. induction buffer as [|sample rest IH]; intros e; [reflexivity|].
  cbn [play_mono_loop].
  destruct (pwm_set (pwm_audio_l e) _ _) as [err l].
  destruct (negb (err =? 0)); [reflexivity|].
  destruct (pwm_set (pwm_audio_r (with_pwm_l l e)) _ _) as [err' r].
  destruct (negb (err' =? 0)); [reflexivity|].
  rewrite IH. reflexivity.
Qed.

Lemma play_stereo_loop_volume buffer e :
  current_volume (snd (play_stereo_loop buffer e)) = current_volume e.
Proof.
  revert e.
  enough (H : forall e,
    current_volume (snd (play_stereo_loop buffer e)) = current_volume e /\
    forall x, current_volume (snd (play_stereo_loop (x :: buffer) e))
              = current_volume e) by (intros e; apply H).
  induction buffer as [|y rest IH]; intros e.
  - split; [reflexivity | intros x; reflexivity].
  - split; [apply IH|]. intros x.
    cbn [play_stereo_loop].
    destruct (pwm_set (pwm_audio_l e) _ _) as [err l].
    destruct (negb (err =? 0)); [reflexivity|].
    destruct (pwm_set (pwm_audio_r (with_pwm_l l e)) _ _) as [err' r].
    destruct (negb (err' =? 0)); [reflexivity|].
    destruct (IH (with_pwm_r r (with_pwm_l l e))) as [IH1 _].
    rewrite IH1. reflexivity.
Qed.

Lemma pwm_audio_play_volume buffer e :
  current_volume (snd (pwm_audio_play buffer e)) = current_volume e.
Proof.
  unfold pwm_audio_play. repeat case_match; try reflexivity.
  apply play_stereo_loop_volume.
Qed.

Lemma pwm_audio_play_mono_volume buffer e :
  current_volume (snd (pwm_audio_play_mono buffer e)) = current_volume e.
Proof.
  unfold pwm_audio_play_mono. repeat case_match; try reflexivity.
  apply play_mono_loop_volume.
Qed.

Lemma pwm_audio_mute_volume e :
  current_volume (pwm_audio_mute e) = current_volume e.
Proof. unfold pwm_audio_mute. repeat case_match; reflexivity. Qed.

Lemma pwm_audio_unmute_volume e :
  current_volume (pwm_audio_unmute e) = current_volume e.
Proof. unfold pwm_audio_unmute. repeat case_match; reflexivity. Qed.

Lemma pwm_audio_set_volume_min v e :
  current_volume (pwm_audio_set_volume v e) = Z.min v PWM_AUDIO_MAX_VOLUME.
Proof.
  unfold pwm_audio_set_volume. cbn [current_volume with_volume].
  split_cmp; lia.
Qed.

Lemma pwm_audio_set_volume_ok v e :
  0 <= v -> volume_ok (pwm_audio_set_volume v e).
Proof.
  intros Hv. unfold volume_ok. rewrite pwm_audio_set_volume_min.
  unfold PWM_AUDIO_MAX_VOLUME. lia.
Qed.

Lemma mute_ramp_callback_volume_ok e : volume_ok (mute_ramp_callback e).
Proof.
  unfold mute_ramp_callback.
  set (e1 := if ramp_step e =? 0 then _ else _).
  set (sv := if ramping_to_mute e1 then _ else _).
  assert (Hsv : 0 <= sv).
  { unfold sv. destruct (ramping_to_mute e1); apply to_uint8_range. }
  pose proof (pwm_audio_set_volume_ok sv e1 Hsv) as Hok.
  set (e2 := pwm_audio_set_volume sv e1) in *.
  unfold volume_ok in *.
  repeat case_match; exact Hok.
Qed.

Lemma timer_tick_volume_ok e : volume_ok e -> volume_ok (timer_tick e).
Proof.
  intros H. unfold timer_tick. destruct (mute_ramp_timer e); [|exact H].
  apply mute_ramp_callback_volume_ok.
Qed.

Lemma pwm_audio_test_sine_wave_volume_ok gen v d e :
  0 <= v -> volume_ok e -> volume_ok (snd (pwm_audio_test_sine_wave gen v d e)).
Proof.
  intros Hv He. unfold pwm_audio_test_sine_wave.
  destruct (negb (is_initialized e)); [exact He|].
  destruct (audio_mem_slab (pwm_audio_set_volume v e)) as [|free].
  - apply pwm_audio_set_volume_ok, Hv.
  - destruct (pwm_audio_play_mono _ _) as [ret e'].
    apply pwm_audio_set_volume_ok, He.
Qed.

Lemma pwm_audio_test_sweep_volume gen d e :
  current_volume (snd (pwm_audio_test_sweep gen d e)) = current_volume e.
Proof.
  unfold pwm_audio_test_sweep.
  destruct (negb (is_initialized e)); [reflexivity|].
  destruct (audio_mem_slab e) as [|free]; [reflexivity|].
  pose proof (pwm_audio_play_mono_volume
                (test_buffer gen (test_samples d)) (with_slab free e)) as H.
  destruct (pwm_audio_play_mono _ _) as [ret e']. exact H.
Qed.

Lemma pwm_audio_test_white_noise_volume gen d e :
  current_volume (snd (pwm_audio_test_white_noise gen d e)) = current_volume e.
Proof.
  unfold pwm_audio_test_white_noise.
  destruct (negb (is_initialized e)); [reflexivity|].
  destruct (audio_mem_slab e) as [|free]; [reflexivity|].
  pose proof (pwm_audio_play_mono_volume
                (test_buffer gen (test_samples d)) (with_slab free e)) as H.
  destruct (pwm_audio_play_mono _ _) as [ret e']. exact H.
Qed.

Lemma run_op_volume_ok op e :
  op_args_ok op -> volume_ok e -> volume_ok (run_op op e).
Proof.
  intros Hop He. unfold volume_ok in *.
  destruct op; cbn [run_op op_args_ok] in *.
  - rewrite pwm_audio_init_volume. exact He.
  - rewrite pwm_audio_play_volume. exact He.
  - rewrite pwm_audio_play_mono_volume. exact He.
  - rewrite pwm_audio_mute_volume. exact He.
  - rewrite pwm_audio_unmute_volume. exact He.
  - apply pwm_audio_set_volume_ok. apply Hop.
  - apply timer_tick_volume_ok, He.
  - apply pwm_audio_test_sine_wave_volume_ok; [apply Hop | exact He].
  - rewrite pwm_audio_test_sweep_volume. exact He.
  - rewrite pwm_audio_test_white_noise_volume. exact He.
  - rewrite pam8403_init_volume. exact He.
  - rewrite pam8403_shutdown_volume. exact He.
  - rewrite pam8403_wakeup_volume. exact He.
  - rewrite pam8403_set_gain_volume. exact He.
Qed.

Lemma run_ops_volume_ok ops e :
  Forall op_args_ok ops -> volume_ok e -> volume_ok (run_ops ops e).
Proof.
  intros Hops. revert e. unfold run_ops.
  induction Hops as [|op ops Hop _ IH]; intros e He; [exact He|].
  cbn [fold_left]. apply IH, run_op_volume_ok; assumption.
Qed.

End Volume.

(** C8.  The volume invariant 0 <= current_volume <= MAX_VOLUME (= 180)
    holds at power-on on every board, is preserved by every engine operation
    (hence holds after any sequence of operations), and
    [pwm_audio_set_volume v] stores min(v, MAX_VOLUME) for every byte v. *)
Theorem volume_invariant :
  (forall l r sd g0 g1, PwmAudio.volume_ok (PwmAudio.power_on l r sd g0 g1))
  /\ (forall op e,
        PwmAudio.op_args_ok op -> PwmAudio.volume_ok e ->
        PwmAudio.volume_ok (PwmAudio.run_op op e))
  /\ (forall ops l r sd g0 g1,
        Forall PwmAudio.op_args_ok ops ->
        PwmAudio.volume_ok
          (PwmAudio.run_ops ops (PwmAudio.power_on l r sd g0 g1)))
  /\ (forall v e,
        is_uint8 v ->
        PwmAudio.current_volume (PwmAudio.pwm_audio_set_volume v e)
        = Z.min v PwmAudio.PWM_AUDIO_MAX_VOLUME).
Proof.
  assert (Hinit : forall l r sd g0 g1,
            PwmAudio.volume_ok (PwmAudio.power_on l r sd g0 g1)).
  { intros. unfold PwmAudio.volume_ok, PwmAudio.power_on.
    cbn [PwmAudio.current_volume]. unfold PwmAudio.PWM_AUDIO_MAX_VOLUME. lia. }
  split; [exact Hinit|]. split; [exact run_op_volume_ok|]. split.
  - intros ops l r sd g0 g1 Hops. apply run_ops_volume_ok; [exact Hops|].
    apply Hinit.
  - intros v e _. apply pwm_audio_set_volume_min.
Qed.

Lemma volume_invariant_witness :
  PwmAudio.volume_ok
    (PwmAudio.run_op (PwmAudio.OpSetVolume 200) engine_at_power_on)
  /\ PwmAudio.current_volume
       (PwmAudio.pwm_audio_set_volume 200 engine_at_power_on) = 180.
Proof.
  destruct volume_invariant as (Hinit & Hstep & _ & Hset). split.
  - apply Hstep; [unfold PwmAudio.op_args_ok, is_uint8; lia | apply Hinit].
  - rewrite Hset by (unfold is_uint8; lia). reflexivity.
Defined.

(** C7.  [pwm_audio_play] and [pwm_audio_play_mono] return -ENODEV when the
    engine is not initialised; when it is initialised and muted they return
    0.  In both cases the engine, and with it the log of duty cycles written
    to either PWM channel, is unchanged. *)
Theorem play_guards (buffer : list Z) (e : PwmAudio.engine) :
  (PwmAudio.is_initialized e = false ->
     PwmAudio.pwm_audio_play buffer e = (- ENODEV, e)
     /\ PwmAudio.pwm_audio_play_mono buffer e = (- ENODEV, e))
  /\ (PwmAudio.is_initialized e = true -> PwmAudio.is_muted e = true ->
        PwmAudio.pwm_audio_play buffer e = (0, e)
        /\ PwmAudio.pwm_audio_play_mono buffer e = (0, e)).
Proof.
  unfold PwmAudio.pwm_audio_play, PwmAudio.pwm_audio_play_mono.
  split.
  - intros ->. split; reflexivity.
  - intros -> ->. split; reflexivity.
Qed.

Lemma play_guards_witness :
  PwmAudio.pwm_audio_play_mono [1000; -1000] engine_at_power_on
    = (-19, engine_at_power_on)
  /\ PwmAudio.pwm_audio_play [1000; -1000] engine_muted = (0, engine_muted).
Proof.
  split.
  - apply (play_guards [1000; -1000] engine_at_power_on). reflexivity.
  - apply (play_guards [1000; -1000] engine_muted); reflexivity.
Defined.

(** ** Anti-pop ramp *)

Section Ramp.
Import PwmAudio.

Lemma timer_ticks_succ n e : timer_ticks (S n) e = timer_tick (timer_ticks n e).
Proof.
  revert e. induction n as [|n IH]; intros e; [reflexivity|].
  change (timer_ticks (S (S n)) e) with (timer_ticks (S n) (timer_tick e)).
  rewrite IH. reflexivity.
Qed.

Lemma ramp_quot k :
  Z.quot (PWM_AUDIO_MAX_VOLUME * k) PWM_AUDIO_MUTE_RAMP_STEPS = 9 * k.
Proof.
  unfold PWM_AUDIO_MAX_VOLUME, PWM_AUDIO_MUTE_RAMP_STEPS.
  replace (180 * k) with (9 * k * 20) by lia. apply Z.quot_mul. lia.
Qed.

Ltac ramp_fields :=
  cbn [ramp_step target_volume ramping_to_mute current_volume
       pwm_audio_set_volume with_volume with_ramp_step with_ramp_target
       with_timer with_pwm_l with_pwm_r k_timer_stop
       is_muted is_initialized mute_ramp_timer pwm_audio_l pwm_audio_r
       pam8403_shutdown_pin pam8403_gain0_pin pam8403_gain1_pin audio_mem_slab].

Ltac ramp_close :=
  unfold pwm_audio_set_volume, PWM_AUDIO_MAX_VOLUME, PWM_AUDIO_MUTE_RAMP_STEPS;
  repeat match goal with
  | |- context [to_uint8 ?x] => rewrite (to_uint8_small x) by lia
  end;
  split_cmp; try lia; reflexivity.

Ltac ramp_open :=
  unfold timer_tick, ramping; cbn [mute_ramp_timer];
  unfold mute_ramp_callback; cbn [ramp_step Z.eqb is_muted].

Variable e : engine.

Lemma unmute_first_tick v t m :
  timer_tick (ramping e v false 0 t m)
  = ramping e 0 false 1 PWM_AUDIO_MAX_VOLUME false.
Proof. reflexivity. Qed.

Lemma unmute_mid_tick v k :
  1 <= k < 19 ->
  timer_tick (ramping e v false k PWM_AUDIO_MAX_VOLUME false)
  = ramping e (Z.quot (PWM_AUDIO_MAX_VOLUME * k) PWM_AUDIO_MUTE_RAMP_STEPS)
      false (k + 1) PWM_AUDIO_MAX_VOLUME false.
Proof.
  intros Hk. ramp_open.
  destruct (Z.eqb_spec k 0) as [|_]; [lia|].
  ramp_fields. rewrite ramp_quot. ramp_close.
Qed.

Lemma unmute_last_tick v :
  timer_tick (ramping e v false 19 PWM_AUDIO_MAX_VOLUME false)
  = k_timer_stop (ramping e 171 false 0 PWM_AUDIO_MAX_VOLUME false).
Proof. reflexivity. Qed.

Lemma mute_first_tick v t m :
  0 <= v <= PWM_AUDIO_MAX_VOLUME ->
  timer_tick (ramping e v true 0 t m) = ramping e v true 1 0 true.
Proof.
  intros Hv. unfold PWM_AUDIO_MAX_VOLUME in Hv. ramp_open.
  ramp_fields. rewrite Z.mul_0_l.
  change (to_uint8 (Z.quot 0 PWM_AUDIO_MUTE_RAMP_STEPS)) with 0.
  rewrite Z.sub_0_r. ramp_close.
Qed.

Lemma mute_mid_tick v k :
  0 <= v <= PWM_AUDIO_MAX_VOLUME ->
  1 <= k < 19 ->
  timer_tick (ramping e v true k 0 true) = ramping e v true (k + 1) 0 true.
Proof.
  intros Hv Hk. unfold PWM_AUDIO_MAX_VOLUME in Hv. ramp_open.
  destruct (Z.eqb_spec k 0) as [|_]; [lia|].
  ramp_fields. rewrite Z.mul_0_l.
  change (to_uint8 (Z.quot 0 PWM_AUDIO_MUTE_RAMP_STEPS)) with 0.
  rewrite Z.sub_0_r. ramp_close.
Qed.

(** The last tick of a mute ramp: the timer stops, the step counter returns
    to 0 and both channels are sent the 50% duty; the volume is written back
    as it was. *)
Lemma mute_last_tick v :
  0 <= v <= PWM_AUDIO_MAX_VOLUME ->
  timer_tick (ramping e v true 19 0 true)
  = let half := Z.quot PWM_AUDIO_PERIOD_NS 2 in
    with_pwm_r (snd (pwm_set (pwm_audio_r e) PWM_AUDIO_PERIOD_NS half))
      (with_pwm_l (snd (pwm_set (pwm_audio_l e) PWM_AUDIO_PERIOD_NS half))
         (k_timer_stop (ramping e v true 0 0 true))).
Proof.
  intros Hv. unfold PWM_AUDIO_MAX_VOLUME in Hv. ramp_open.
  ramp_fields. rewrite Z.mul_0_l.
  change (to_uint8 (Z.quot 0 PWM_AUDIO_MUTE_RAMP_STEPS)) with 0.
  rewrite Z.sub_0_r. rewrite (to_uint8_small v) by lia.
  change (to_uint8 (19 + 1) >=? PWM_AUDIO_MUTE_RAMP_STEPS) with true.
  unfold pwm_audio_set_volume, PWM_AUDIO_MAX_VOLUME.
  destruct (Z.gtb_spec v 180); [lia|].
  ramp_fields.
  destruct (pwm_set (pwm_audio_l e) _ _) as [el l'].
  destruct (pwm_set (pwm_audio_r e) _ _) as [er r']. reflexivity.
Qed.

Lemma unmute_ticks v t m (n : nat) :
  (n < 19)%nat ->
  timer_ticks (S n) (ramping e v false 0 t m)
  = ramping e (Z.quot (PWM_AUDIO_MAX_VOLUME * Z.of_nat n) PWM_AUDIO_MUTE_RAMP_STEPS)
      false (Z.of_nat (S n)) PWM_AUDIO_MAX_VOLUME false.
Proof.
  induction n as [|n IH]; intros Hn.
  - reflexivity.
  - rewrite timer_ticks_succ, IH by lia.
    rewrite unmute_mid_tick by lia.
    f_equal; lia.
Qed.

Lemma mute_ticks v t m (n : nat) :
  0 <= v <= PWM_AUDIO_MAX_VOLUME ->
  (n < 19)%nat ->
  timer_ticks (S n) (ramping e v true 0 t m)
  = ramping e v true (Z.of_nat (S n)) 0 true.
Proof.
  intros Hv. induction n as [|n IH]; intros Hn.
  - apply mute_first_tick, Hv.
  - rewrite timer_ticks_succ, IH by lia.
    rewrite mute_mid_tick by lia.
    f_equal; lia.
Qed.

Lemma unmute_starts_ramp :
  is_initialized e = true -> is_muted e = true -> ramp_step e = 0 ->
  pwm_audio_unmute e
  = ramping e (current_volume e) false 0 (target_volume e) (ramping_to_mute e).
Proof.
  intros Hi Hm Hs. unfold pwm_audio_unmute, ramping.
  rewrite Hi, Hm. cbn [negb]. unfold k_timer_start, with_timer, with_muted.
  ramp_fields. rewrite Hs, Hi. reflexivity.
Qed.

Lemma mute_starts_ramp :
  is_initialized e = true -> is_muted e = false -> ramp_step e = 0 ->
  pwm_audio_mute e
  = ramping e (current_volume e) true 0 (target_volume e) (ramping_to_mute e).
Proof.
  intros Hi Hm Hs. unfold pwm_audio_mute, ramping.
  rewrite Hi, Hm. cbn [negb]. unfold k_timer_start, with_timer, with_muted.
  ramp_fields. rewrite Hs, Hi. reflexivity.
Qed.

End Ramp.

(** C10.  An unmute request on an initialised, muted engine whose ramp is
    idle starts a ramp whose tick k (k = 0 .. STEPS-1) stores the volume
    MAX_VOLUME * k / STEPS: the first tick stores 0 whatever the volume was,
    and after the last tick the timer is stopped, the step counter is back
    at 0 and the stored volume is MAX_VOLUME * (STEPS-1) / STEPS = 171, below
    MAX_VOLUME = 180. *)
Theorem unmute_ramp_profile (e : PwmAudio.engine) (k : nat) :
  PwmAudio.is_initialized e = true ->
  PwmAudio.is_muted e = true ->
  PwmAudio.ramp_step e = 0 ->
  (k < 20)%nat ->
  let ramp n := PwmAudio.timer_ticks n (PwmAudio.pwm_audio_unmute e) in
  PwmAudio.current_volume (ramp (S k))
    = Z.quot (PwmAudio.PWM_AUDIO_MAX_VOLUME * Z.of_nat k)
             PwmAudio.PWM_AUDIO_MUTE_RAMP_STEPS
  /\ PwmAudio.current_volume (ramp 1%nat) = 0
  /\ PwmAudio.mute_ramp_timer (ramp 20%nat) = None
  /\ PwmAudio.ramp_step (ramp 20%nat) = 0
  /\ PwmAudio.current_volume (ramp 20%nat)
     = Z.quot (PwmAudio.PWM_AUDIO_MAX_VOLUME * (PwmAudio.PWM_AUDIO_MUTE_RAMP_STEPS - 1))
              PwmAudio.PWM_AUDIO_MUTE_RAMP_STEPS
  /\ PwmAudio.current_volume (ramp 20%nat) = 171
  /\ PwmAudio.current_volume (ramp 20%nat) < PwmAudio.PWM_AUDIO_MAX_VOLUME.
Proof.
  intros Hi Hm Hs Hk ramp. subst ramp. cbv beta.
  rewrite (unmute_starts_ramp e Hi Hm Hs).
  assert (H20 : PwmAudio.timer_ticks 20
                  (ramping e (PwmAudio.current_volume e) false 0
                     (PwmAudio.target_volume e) (PwmAudio.ramping_to_mute e))
                = PwmAudio.k_timer_stop
                    (ramping e 171 false 0 PwmAudio.PWM_AUDIO_MAX_VOLUME false)).
  { rewrite timer_ticks_succ, unmute_ticks by lia. apply unmute_last_tick. }
  rewrite H20.
  split; [|repeat split].
  - destruct (decide (k = 19%nat)) as [->|Hne].
    + rewrite H20. reflexivity.
    + rewrite unmute_ticks by lia. reflexivity.
Qed.

Lemma unmute_ramp_profile_witness :
  PwmAudio.current_volume
    (PwmAudio.timer_ticks 20 (PwmAudio.pwm_audio_unmute engine_muted)) = 171.
Proof.
  apply (unmute_ramp_profile engine_muted 0); [reflexivity .. | lia].
Defined.

(** C2.  What the code does after a mute request on an initialised, unmuted
    engine with an idle ramp and healthy PWM drivers: after STEPS = 20 ticks
    both channels carry the 50% duty PERIOD_NS/2, the timer is stopped and
    the step counter is 0, but the stored volume is the one the engine had
    before the request, not 0 (the ramp target 0 makes every step volume 0,
    and the callback stores current_volume - 0). *)
Theorem mute_ramp_keeps_volume (e : PwmAudio.engine) :
  PwmAudio.is_initialized e = true ->
  PwmAudio.is_muted e = false ->
  PwmAudio.ramp_step e = 0 ->
  PwmAudio.volume_ok e ->
  pwm_fault (PwmAudio.pwm_audio_l e) = 0 ->
  pwm_fault (PwmAudio.pwm_audio_r e) = 0 ->
  let e' := PwmAudio.timer_ticks 20 (PwmAudio.pwm_audio_mute e) in
  let half := (PwmAudio.PWM_AUDIO_PERIOD_NS, Z.quot PwmAudio.PWM_AUDIO_PERIOD_NS 2) in
  PwmAudio.current_volume e' = PwmAudio.current_volume e
  /\ pwm_current (PwmAudio.pwm_audio_l e') = Some half
  /\ pwm_current (PwmAudio.pwm_audio_r e') = Some half
  /\ PwmAudio.mute_ramp_timer e' = None
  /\ PwmAudio.ramp_step e' = 0.
Proof.
  intros Hi Hm Hs Hv Hl Hr e' half. subst e' half.
  rewrite (mute_starts_ramp e Hi Hm Hs).
  rewrite timer_ticks_succ, mute_ticks by (try exact Hv; lia).
  rewrite mute_last_tick by exact Hv.
  unfold pwm_set. rewrite Hl, Hr. cbn. repeat split.
Qed.

Lemma mute_ramp_keeps_volume_witness :
  PwmAudio.current_volume
    (PwmAudio.timer_ticks 20 (PwmAudio.pwm_audio_mute engine_playing)) = 180.
Proof.
  apply (mute_ramp_keeps_volume engine_playing); try reflexivity.
  unfold PwmAudio.volume_ok.
  change (PwmAudio.current_volume engine_playing) with 180.
  unfold PwmAudio.PWM_AUDIO_MAX_VOLUME. lia.
Defined.

(** ** Stream reassembler *)

Section Reassembler.
Import Speaker.

Lemma store_ptr2_ok v s p block :
  ptr2 s = Some p -> rx_buffer s = Some block -> (p < length block)%nat ->
  store_ptr2 v s
  = Some (with_ptr2 (Some (S p)) (with_rx_buffer (Some (<[p:=v]> block)) s)).
Proof.
  intros Hp Hb Hlt. unfold store_ptr2. rewrite Hp, Hb. cbn.
  rewrite decide_True by exact Hlt. reflexivity.
Qed.

Lemma read_int16_ok buf i :
  (2 * i + 1 < length buf)%nat -> is_Some (read_int16 buf i).
Proof.
  intros H. unfold read_int16.
  destruct (lookup_lt_is_Some_2 buf (2 * i)%nat) as [lo Hlo]; [lia|].
  destruct (lookup_lt_is_Some_2 buf (2 * i + 1)%nat) as [hi Hhi]; [lia|].
  rewrite Hlo, Hhi. cbn. eauto.
Qed.

(** The copy loop inside the block: it succeeds and touches only the block
    and the write pointer. *)
Lemma copy_samples_ok buf count : forall i s p block,
  ptr2 s = Some p -> rx_buffer s = Some block ->
  (p + 2 * count <= length block)%nat ->
  (2 * (i + count) <= length buf)%nat ->
  exists block',
    copy_samples count i buf s
    = Some (with_ptr2 (Some (p + 2 * count)%nat) (with_rx_buffer (Some block') s))
    /\ length block' = length block.
Proof.
  induction count as [|count IH]; intros i s p block Hp Hb Hroom Hbuf.
  - exists block. split; [|reflexivity]. cbn [copy_samples].
    rewrite Nat.add_0_r. destruct s; cbn in *; subst; reflexivity.
  - cbn [copy_samples].
    destruct (read_int16_ok buf i) as [v Hv]; [lia|]. rewrite Hv. cbn [mbind option_bind].
    rewrite (store_ptr2_ok v s p block) by (assumption || lia).
    cbn [mbind option_bind].
    rewrite (store_ptr2_ok v _ (S p) (<[p:=v]> block))
      by (try reflexivity; rewrite length_insert; lia).
    cbn [mbind option_bind].
    edestruct (IH (S i) (with_ptr2 (Some (S (S p)))
                 (with_rx_buffer (Some (<[S p:=v]> (<[p:=v]> block)))
                    (with_ptr2 (Some (S p))
                       (with_rx_buffer (Some (<[p:=v]> block)) s)))))
      as (block' & Hcopy & Hlen); [reflexivity | reflexivity | | | ].
    + rewrite !length_insert. lia.
    + lia.
    + exists block'. split; [|rewrite Hlen, !length_insert; reflexivity].
      rewrite Hcopy. f_equal. unfold with_ptr2, with_rx_buffer. cbn.
      f_equal. f_equal. lia.
Qed.


Lemma speak_control_chunk s block :
  rx_buffer s = Some block ->
  speak 4 header_800 s
  = Some (4, with_clear_ptr (Some 0%nat)
               (with_ptr2 (Some 0%nat) (with_current_length 800 s))).
Proof.
  intros Hb. unfold speak. cbn [Z.eqb Pos.eqb].
  change (read_uint32 header_800) with (Some 800).
  cbn [mbind option_bind]. change (to_uint16 800) with 800.
  cbn [rx_buffer with_current_length with_ptr2]. rewrite Hb. reflexivity.
Qed.

(** A data chunk of [PACKET_SIZE] bytes that arrives while more than
    [PACKET_SIZE] bytes are outstanding is copied, and nothing is played. *)
Lemma speak_middle_chunk s p block d :
  ptr2 s = Some p -> rx_buffer s = Some block ->
  (p + 400 <= length block)%nat ->
  length d = 400%nat ->
  PACKET_SIZE < current_length s <= 65535 ->
  exists block',
    speak 400 d s
    = Some (400,
        with_offset (to_uint16 (offset s + 400))
          (with_ptr2 (Some (p + 400)%nat)
             (with_rx_buffer (Some block')
                (with_current_length (current_length s - PACKET_SIZE) s))))
    /\ length block' = length block.
Proof.
  intros Hp Hb Hroom Hd Hlen. unfold speak. cbn [Z.eqb Pos.eqb].
  destruct (Z.gtb_spec (current_length s) PACKET_SIZE) as [_|]; [|lia].
  change (Z.to_nat (Z.quot 400 2)) with 200%nat.
  rewrite to_uint16_small by (unfold PACKET_SIZE in *; lia).
  destruct (copy_samples_ok d 200 0
              (with_current_length (current_length s - PACKET_SIZE) s) p block)
    as (block' & Hcopy & Hl); [exact Hp | exact Hb | lia | lia |].
  exists block'. split; [|exact Hl].
  rewrite Hcopy. reflexivity.
Qed.

(** A data chunk that arrives while exactly [PACKET_SIZE] bytes are
    outstanding falls between the two branches of [speak]. *)
Lemma speak_exact_chunk len d s :
  len <> 4 -> current_length s = PACKET_SIZE -> speak len d s = Some (len, s).
Proof.
  intros Hlen Hc. unfold speak.
  destruct (Z.eqb_spec len 4); [contradiction|].
  rewrite Hc. reflexivity.
Qed.

End Reassembler.

(** C1.  What the code does with a control chunk announcing 800 bytes
    followed by two 400-byte data chunks, from any state in which the
    working buffer is allocated: the first data chunk is copied, the second
    meets [current_length == PACKET_SIZE], which neither branch of [speak]
    handles.  No [pwm_audio_play_mono] call is made, the engine is untouched,
    400 bytes stay outstanding and the buffer is not cleared. *)
Theorem speak_800_in_two_packets_never_plays
    (s : Speaker.speaker) (block d1 d2 : list Z) :
  Speaker.rx_buffer s = Some block ->
  length block = Speaker.BLOCK_SAMPLES ->
  length d1 = 400%nat ->
  length d2 = 400%nat ->
  exists s' block',
    Speaker.speak_all (chunks_800 d1 d2) s = Some s'
    /\ Speaker.play_calls s' = Speaker.play_calls s
    /\ Speaker.audio s' = Speaker.audio s
    /\ Speaker.current_length s' = Speaker.PACKET_SIZE
    /\ Speaker.ptr2 s' = Some 400%nat
    /\ Speaker.rx_buffer s' = Some block'
    /\ length block' = Speaker.BLOCK_SAMPLES.
Proof.
  intros Hb Hlen Hd1 Hd2.
  unfold chunks_800. cbn [Speaker.speak_all].
  rewrite (speak_control_chunk s block Hb). cbn [mbind option_bind].
  edestruct (speak_middle_chunk
               (Speaker.with_clear_ptr (Some 0%nat)
                  (Speaker.with_ptr2 (Some 0%nat)
                     (Speaker.with_current_length 800 s))) 0 block d1)
    as (block' & Hmid & Hl);
    [reflexivity | exact Hb | | exact Hd1 | |].
  { rewrite Hlen. change Speaker.BLOCK_SAMPLES with (Z.to_nat 5000). lia. }
  { cbn. unfold Speaker.PACKET_SIZE. lia. }
  rewrite Hmid. cbn [mbind option_bind].
  rewrite speak_exact_chunk by (reflexivity || lia).
  cbn [mbind option_bind].
  eexists. exists block'. split; [reflexivity|].
  repeat split. rewrite Hl. exact Hlen.
Qed.

Lemma speak_800_in_two_packets_never_plays_witness :
  exists s',
    Speaker.speak_all (chunks_800 packet_0101 packet_0101) speaker_ready = Some s'
    /\ Speaker.play_calls s' = []
    /\ Speaker.rx_buffer s' = Some (replicate 400 257 ++ replicate 4600 0).
Proof.
  destruct (speak_800_in_two_packets_never_plays speaker_ready
              Speaker.zero_block packet_0101 packet_0101)
    as (s' & block' & Hrun & Hcalls & _); [reflexivity .. |].
  exists s'. split; [exact Hrun|]. split; [exact Hcalls|].
  assert (Hs : Speaker.speak_all (chunks_800 packet_0101 packet_0101) speaker_ready
               = Some s') by exact Hrun.
  vm_compute in Hs. injection Hs as <-. vm_compute. reflexivity.
Defined.

(** For comparison: when 799 bytes are announced, the second data chunk
    arrives with 399 < PACKET_SIZE bytes outstanding and takes the final
    branch, which plays the whole block once and clears it. *)
Lemma speak_799_plays_once :
  (fun s' => (Speaker.play_calls s', Speaker.current_length s',
              bool_decide (Speaker.rx_buffer s' = Some Speaker.zero_block)))
    <$> Speaker.speak_all
          [(4, header_799); (400, packet_0101); (399, packet_0101_short)]
          speaker_ready
  = Some ([5000], 0, true).
Proof. vm_compute. reflexivity. Qed.

(** ** SD audio file store *)

Section Sd.
Import SdCard.
Variable null_text : string.

Lemma char_of_inj a b :
  0 <= a <= 255 -> 0 <= b <= 255 -> char_of a = char_of b -> a = b.
Proof.
  intros Ha Hb H. unfold char_of in H.
  apply (f_equal Ascii.N_of_ascii) in H.
  rewrite !Ascii.N_ascii_embedding in H by lia. lia.
Qed.

Lemma header_inj i j :
  0 <= i <= 99 -> 0 <= j <= 99 ->
  generate_new_audio_header i = generate_new_audio_header j -> i = j.
Proof.
  intros Hi Hj. unfold generate_new_audio_header.
  destruct (Z.gtb_spec i 99); [lia|]. destruct (Z.gtb_spec j 99); [lia|].
  intros Heq. injection Heq as Hq Hr.
  pose proof (Z.quot_rem' i 10) as Ei. pose proof (Z.quot_rem' j 10) as Ej.
  assert (Hdigit : forall n, 0 <= n <= 99 -> 0 <= Z.quot n 10 <= 9).
  { intros n Hn. split; [apply Z.quot_pos; lia|].
    enough (Z.quot n 10 < 10) by lia. apply Z.quot_lt_upper_bound; lia. }
  pose proof (Hdigit i Hi). pose proof (Hdigit j Hj).
  pose proof (Z.rem_bound_pos i 10). pose proof (Z.rem_bound_pos j 10).
  apply char_of_inj in Hq; [|lia|lia].
  apply char_of_inj in Hr; [|lia|lia].
  lia.
Qed.

Lemma audio_path_inj i j :
  0 <= i <= 99 -> 0 <= j <= 99 ->
  audio_path null_text i = audio_path null_text j -> i = j.
Proof.
  intros Hi Hj Heq. apply header_inj; [assumption..|].
  unfold audio_path, mount_path, generate_new_audio_header in *.
  destruct (Z.gtb_spec i 99); [lia|]. destruct (Z.gtb_spec j 99); [lia|].
  cbn in Heq. injection Heq as Hq Hr. rewrite Hq, Hr. reflexivity.
Qed.

Lemma audio_path_not_dir i :
  0 <= i <= 99 -> audio_path null_text i <> "/SD:/audio".
Proof.
  intros Hi. unfold audio_path, mount_path, generate_new_audio_header.
  destruct (Z.gtb_spec i 99); [lia|]. cbn. discriminate.
Qed.

Lemma audio_path_1 : audio_path null_text 1 = "/SD:audio/a01.txt".
Proof. reflexivity. Qed.

Lemma elem_of_numbered p n :
  p ∈ numbered null_text n <->
  exists i, (1 <= i <= n)%nat /\ p = audio_path null_text (Z.of_nat i).
Proof.
  induction n as [|n IH].
  - cbn. split; [set_solver|]. intros (i & Hi & _). lia.
  - cbn [numbered]. rewrite elem_of_union, elem_of_singleton, IH. split.
    + intros [->|(i & Hi & ->)]; [exists (S n)|exists i]; split; auto; lia.
    + intros (i & Hi & ->). destruct (decide (i = S n)) as [->|Hne].
      * left; reflexivity.
      * right. exists i. split; [lia|reflexivity].
Qed.


Lemma not_elem_of_numbered i n :
  (n < i)%nat -> (Z.of_nat i <= 99) ->
  audio_path null_text (Z.of_nat i) ∉ numbered null_text n.
Proof.
  intros Hlt Hi Hin. apply elem_of_numbered in Hin as (j & Hj & Heq).
  apply audio_path_inj in Heq; lia.
Qed.









End Sd.

(** C5, as stated, fails: input 0 is not rejected. *)
Lemma audio_header_accepts_zero :
  ~ (SdCard.generate_new_audio_header 1 = Some "audio/a01.txt"
     /\ SdCard.generate_new_audio_header 42 = Some "audio/a42.txt"
     /\ SdCard.generate_new_audio_header 0 = None
     /\ SdCard.generate_new_audio_header 100 = None).
Proof. intros (_ & _ & H0 & _). vm_compute in H0. discriminate H0. Qed.

(** C5, amended.  [generate_new_audio_header] maps 1 to "audio/a01.txt"
    and 42 to "audio/a42.txt" and rejects 100 (it returns the null pointer);
    input 0 is accepted and named "audio/a00.txt". *)
Theorem audio_header_names :
  SdCard.generate_new_audio_header 1 = Some "audio/a01.txt"
  /\ SdCard.generate_new_audio_header 42 = Some "audio/a42.txt"
  /\ SdCard.generate_new_audio_header 100 = None
  /\ SdCard.generate_new_audio_header 0 = Some "audio/a00.txt".
Proof. repeat split. Qed.

(** C9.  For every file number n, [move_read_pointer n] and
    [move_write_pointer n] return -1 exactly when [fs_stat] fails on the
    path built for n; in that case the cursor keeps its value, otherwise the
    call returns 0 and the cursor is n. *)
Theorem move_pointer_checks_target (null_text : string) (n : Z) (s : SdCard.sd) :
  let stat := fst (SdCard.fs_stat (audio_path null_text n) (SdCard.fs s)) in
  let rd := SdCard.move_read_pointer null_text n s in
  let wr := SdCard.move_write_pointer null_text n s in
  (fst rd = -1 <-> stat <> 0)
  /\ (fst rd = -1 ->
        SdCard.current_read_file (snd rd) = SdCard.current_read_file s)
  /\ (fst rd <> -1 ->
        fst rd = 0 /\ SdCard.current_read_file (snd rd) = n)
  /\ (fst wr = -1 <-> stat <> 0)
  /\ (fst wr = -1 ->
        SdCard.current_write_file (snd wr) = SdCard.current_write_file s)
  /\ (fst wr <> -1 ->
        fst wr = 0 /\ SdCard.current_write_file (snd wr) = n).
Proof.
  intros stat rd wr. subst stat rd wr.
  unfold SdCard.move_read_pointer, SdCard.move_write_pointer, audio_path.
  cbn [SdCard.read_buffer SdCard.with_read_buffer SdCard.write_buffer
       SdCard.with_write_buffer SdCard.fs].
  unfold SdCard.fs_stat.
  change (- ENOENT) with (-2).
  destruct (decide (_ ∈ _)) as [Hin|Hout]; cbn; intuition congruence.
Qed.

Lemma move_pointer_checks_target_witness :
  fst (SdCard.move_read_pointer "(null)" 7 sd_five_files) = -1
  /\ SdCard.current_read_file
       (snd (SdCard.move_read_pointer "(null)" 7 sd_five_files)) = 3
  /\ SdCard.current_write_file
       (snd (SdCard.move_write_pointer "(null)" 2 sd_five_files)) = 2.
Proof.
  pose proof (move_pointer_checks_target "(null)" 7 sd_five_files) as H7.
  pose proof (move_pointer_checks_target "(null)" 2 sd_five_files) as H2.
  cbv zeta in H7, H2.
  destruct H7 as (Hrd & Hkeep & _). destruct H2 as (_ & _ & _ & _ & _ & Hwr).
  assert (Hfail : fst (SdCard.move_read_pointer "(null)" 7 sd_five_files) = -1).
  { apply Hrd. vm_compute. discriminate. }
  split; [exact Hfail|]. split.
  - rewrite (Hkeep Hfail). reflexivity.
  - apply Hwr. vm_compute. discriminate.
Defined.

Section ReadCursor.
Import SdCard.
Variable null_text : string.



End ReadCursor.



(** * Further properties of the code *)

Section CodecExtra.
Import PwmAudio.

Lemma quot_256_small a : -256 < a < 256 -> Z.quot a 256 = 0.
Proof.
  intros H. destruct (Z.le_gt_cases 0 a).
  - apply Z.quot_small. lia.
  - replace a with (- (- a)) by lia. rewrite Z.quot_opp_l by lia.
    rewrite Z.quot_small by lia. reflexivity.
Qed.

Lemma quot_256_high a : 32512 <= a -> 127 <= Z.quot a 256.
Proof. intros H. apply Z.quot_le_lower_bound; lia. Qed.

Lemma quot_256_low a : a <= -32512 -> Z.quot a 256 <= -127.
Proof.
  intros H. replace a with (- (- a)) by lia. rewrite Z.quot_opp_l by lia.
  enough (127 <= Z.quot (- a) 256) by lia.
  apply Z.quot_le_lower_bound; lia.
Qed.

End CodecExtra.

(** X1.  A sample whose product with the volume lies strictly between -256
    and 256 is coded as the mid-scale pulse, half the PWM period: quiet
    samples, and every sample at volume 0, are silence. *)
Theorem codec_silence (volume sample : Z) :
  -256 < sample * volume < 256 ->
  PwmAudio.audio_sample_to_pwm volume sample
  = Z.quot PwmAudio.PWM_AUDIO_PERIOD_NS 2.
Proof.
  intros H. rewrite audio_sample_to_pwm_closed_form.
  unfold codec_closed_form. rewrite quot_256_small by exact H. reflexivity.
Qed.

Lemma codec_silence_witness :
  PwmAudio.audio_sample_to_pwm 180 0 = 500
  /\ PwmAudio.audio_sample_to_pwm 0 (-32768) = 500
  /\ PwmAudio.audio_sample_to_pwm 180 1 = 500.
Proof.
  split; [|split].
  - apply (codec_silence 180 0). lia.
  - apply (codec_silence 0 (-32768)). lia.
  - apply (codec_silence 180 1). lia.
Defined.

(** X2.  The codec saturates: when sample * volume is at least 32512 the
    pulse is 996 ns, when it is at most -32512 the pulse is 3 ns, and no
    sample at any volume gives a pulse above 996 ns. *)
Theorem codec_saturates (volume sample : Z) :
  (32512 <= sample * volume ->
     PwmAudio.audio_sample_to_pwm volume sample = 996)
  /\ (sample * volume <= -32512 ->
        PwmAudio.audio_sample_to_pwm volume sample = 3)
  /\ PwmAudio.audio_sample_to_pwm volume sample <= 996.
Proof.
  rewrite audio_sample_to_pwm_closed_form. unfold codec_closed_form.
  repeat split.
  - intros H. pose proof (quot_256_high _ H).
    replace (Z.max (-128) (Z.min 127 (Z.quot (sample * volume) 256))) with 127
      by lia. reflexivity.
  - intros H. pose proof (quot_256_low _ H).
    set (c := Z.max (-128) (Z.min 127 (Z.quot (sample * volume) 256))).
    assert (Hc : c = -128 \/ c = -127) by (unfold c; lia).
    destruct Hc as [-> | ->]; reflexivity.
  - set (c := Z.max (-128) (Z.min 127 (Z.quot (sample * volume) 256))).
    assert (Hc : -128 <= c <= 127) by (unfold c; lia).
    assert ((c + 128) * 1000 / 256 < 997)
      by (apply Z.div_lt_upper_bound; lia).
    lia.
Qed.

Lemma codec_saturates_witness :
  PwmAudio.audio_sample_to_pwm 180 181 = 996
  /\ PwmAudio.audio_sample_to_pwm 180 (-181) = 3.
Proof.
  destruct (codec_saturates 180 181) as (Hhi & _ & _).
  destruct (codec_saturates 180 (-181)) as (_ & Hlo & _).
  split; [apply Hhi | apply Hlo]; lia.
Defined.

Section PlayExtra.
Import PwmAudio.

Lemma engine_eta e :
  mk_engine (current_volume e) (is_muted e) (is_initialized e) (ramp_step e)
    (target_volume e) (ramping_to_mute e) (mute_ramp_timer e) (pwm_audio_l e)
    (pwm_audio_r e) (pam8403_shutdown_pin e) (pam8403_gain0_pin e)
    (pam8403_gain1_pin e) (audio_mem_slab e) = e.
Proof. destruct e; reflexivity. Qed.

Lemma pwm_written_nil d : pwm_written d [] = d.
Proof. destruct d; reflexivity. Qed.

Lemma pwm_written_cons d x w :
  pwm_written (mk_pwm (pwm_ready d) (pwm_fault d) (x :: pwm_log d)) w
  = pwm_written d (x :: w).
Proof.
  unfold pwm_written. cbn [pwm_ready pwm_fault pwm_log rev].
  rewrite <- app_assoc. reflexivity.
Qed.

Lemma pwm_set_healthy d period pulse :
  pwm_fault d = 0 ->
  pwm_set d period pulse
  = (0, mk_pwm (pwm_ready d) (pwm_fault d) ((period, pulse) :: pwm_log d)).
Proof. intros H. unfold pwm_set. rewrite H. reflexivity. Qed.

Lemma pwm_set_faulty d period pulse :
  pwm_fault d <> 0 -> pwm_set d period pulse = (pwm_fault d, d).
Proof.
  intros H. unfold pwm_set. destruct (Z.eqb_spec (pwm_fault d) 0); [contradiction|].
  reflexivity.
Qed.

Lemma play_mono_loop_healthy buffer : forall e,
  pwm_fault (pwm_audio_l e) = 0 -> pwm_fault (pwm_audio_r e) = 0 ->
  play_mono_loop buffer e
  = (0, with_pwm_r
          (pwm_written (pwm_audio_r e) (mono_writes (current_volume e) buffer))
          (with_pwm_l
             (pwm_written (pwm_audio_l e) (mono_writes (current_volume e) buffer))
             e)).
Proof.
  induction buffer as [|sample rest IH]; intros e Hl Hr.
  - cbn [play_mono_loop mono_writes map]. rewrite !pwm_written_nil.
    unfold with_pwm_r, with_pwm_l. cbn. rewrite engine_eta. reflexivity.
  - cbn [play_mono_loop]. rewrite pwm_set_healthy by exact Hl.
    cbn [negb Z.eqb]. rewrite pwm_set_healthy by exact Hr.
    cbn [negb Z.eqb]. rewrite IH by (cbn; assumption).
    cbn [mono_writes map]. fold (mono_writes (current_volume e) rest).
    cbn [pwm_audio_l pwm_audio_r with_pwm_l with_pwm_r current_volume].
    rewrite !pwm_written_cons. reflexivity.
Qed.

Lemma play_stereo_loop_healthy buffer : forall e,
  pwm_fault (pwm_audio_l e) = 0 -> pwm_fault (pwm_audio_r e) = 0 ->
  play_stereo_loop buffer e
  = (0, with_pwm_r
          (pwm_written (pwm_audio_r e)
             (mono_writes (current_volume e) (map snd (stereo_pairs buffer))))
          (with_pwm_l
             (pwm_written (pwm_audio_l e)
                (mono_writes (current_volume e) (map fst (stereo_pairs buffer))))
             e)).
Proof.
  enough (H : forall e,
    pwm_fault (pwm_audio_l e) = 0 -> pwm_fault (pwm_audio_r e) = 0 ->
    (play_stereo_loop buffer e
     = (0, with_pwm_r
          (pwm_written (pwm_audio_r e)
             (mono_writes (current_volume e) (map snd (stereo_pairs buffer))))
          (with_pwm_l
             (pwm_written (pwm_audio_l e)
                (mono_writes (current_volume e) (map fst (stereo_pairs buffer))))
             e)))
    /\ forall x,
      play_stereo_loop (x :: buffer) e
      = (0, with_pwm_r
          (pwm_written (pwm_audio_r e)
             (mono_writes (current_volume e)
                (map snd (stereo_pairs (x :: buffer)))))
          (with_pwm_l
             (pwm_written (pwm_audio_l e)
                (mono_writes (current_volume e)
                   (map fst (stereo_pairs (x :: buffer)))))
             e)))
    by (intros e Hl Hr; apply H; assumption).
  induction buffer as [|y rest IH]; intros e Hl Hr.
  - split; [|intros x]; cbn [play_stereo_loop stereo_pairs mono_writes map];
      rewrite !pwm_written_nil; unfold with_pwm_r, with_pwm_l; cbn;
      rewrite engine_eta; reflexivity.
  - split; [apply IH; assumption|]. intros x.
    cbn [play_stereo_loop]. rewrite pwm_set_healthy by exact Hl.
    cbn [negb Z.eqb]. rewrite pwm_set_healthy by exact Hr.
    cbn [negb Z.eqb].
    destruct (IH (with_pwm_r
                    (mk_pwm (pwm_ready (pwm_audio_r e)) (pwm_fault (pwm_audio_r e))
                       ((PWM_AUDIO_PERIOD_NS,
                         audio_sample_to_pwm (current_volume e) y)
                        :: pwm_log (pwm_audio_r e)))
                    (with_pwm_l
                       (mk_pwm (pwm_ready (pwm_audio_l e))
                          (pwm_fault (pwm_audio_l e))
                          ((PWM_AUDIO_PERIOD_NS,
                            audio_sample_to_pwm (current_volume e) x)
                           :: pwm_log (pwm_audio_l e))) e)))
      as [IH1 _]; [exact Hl | exact Hr |].
    cbn [pwm_audio_r pwm_audio_l with_pwm_l with_pwm_r] in *.
    rewrite IH1.
    cbn [stereo_pairs map mono_writes fst snd].
    fold (mono_writes (current_volume e) (map fst (stereo_pairs rest))).
    fold (mono_writes (current_volume e) (map snd (stereo_pairs rest))).
    cbn [pwm_audio_l pwm_audio_r with_pwm_l with_pwm_r current_volume].
    rewrite !pwm_written_cons. reflexivity.
Qed.

Lemma stereo_pairs_drop_odd buffer x :
  Nat.Even (length buffer) -> stereo_pairs (buffer ++ [x]) = stereo_pairs buffer.
Proof.
  intros [k Hk]. revert buffer Hk.
  induction k as [|k IH]; intros buffer Hk.
  - destruct buffer; [reflexivity | cbn in Hk; lia].
  - destruct buffer as [|l [|r rest]]; cbn in Hk; try lia.
    cbn [app stereo_pairs]. f_equal. apply IH. lia.
Qed.

Lemma play_stereo_loop_drop_odd buffer x : forall e,
  Nat.Even (length buffer) ->
  play_stereo_loop (buffer ++ [x]) e = play_stereo_loop buffer e.
Proof.
  intros e [k Hk]. revert buffer e Hk.
  induction k as [|k IH]; intros buffer e Hk.
  - destruct buffer; [reflexivity | cbn in Hk; lia].
  - destruct buffer as [|l [|r rest]]; cbn in Hk; try lia.
    cbn [app play_stereo_loop].
    destruct (pwm_set (pwm_audio_l e) _ _) as [el l'].
    destruct (negb (el =? 0)); [reflexivity|].
    destruct (pwm_set (pwm_audio_r _) _ _) as [er r'].
    destruct (negb (er =? 0)); [reflexivity|].
    apply IH. lia.
Qed.

End PlayExtra.

(** X3.  On an initialised, unmuted engine whose PWM channels answer,
    [pwm_audio_play_mono] returns 0 and programs, for every sample of the
    buffer in order, the same (period, pulse) pair on the left and on the
    right channel; every pair has period 1000 and a pulse from 3 to 996.
    Nothing else of the engine changes. *)
Theorem play_mono_writes (buffer : list Z) (e : PwmAudio.engine) :
  PwmAudio.is_initialized e = true ->
  PwmAudio.is_muted e = false ->
  pwm_fault (PwmAudio.pwm_audio_l e) = 0 ->
  pwm_fault (PwmAudio.pwm_audio_r e) = 0 ->
  let writes := mono_writes (PwmAudio.current_volume e) buffer in
  PwmAudio.pwm_audio_play_mono buffer e
  = (0, PwmAudio.with_pwm_r (pwm_written (PwmAudio.pwm_audio_r e) writes)
          (PwmAudio.with_pwm_l (pwm_written (PwmAudio.pwm_audio_l e) writes) e))
  /\ Forall (fun w => fst w = 1000 /\ 3 <= snd w <= 996) writes.
Proof.
  intros Hi Hm Hl Hr writes. subst writes. split.
  - unfold PwmAudio.pwm_audio_play_mono. rewrite Hi, Hm. cbn [negb].
    apply play_mono_loop_healthy; assumption.
  - unfold mono_writes. apply Forall_map. apply Forall_forall.
    intros sample _. cbn [fst snd]. split; [reflexivity|].
    rewrite audio_sample_to_pwm_closed_form. unfold codec_closed_form.
    set (c := Z.max (-128) (Z.min 127 _)).
    assert (Hc : -128 <= c <= 127) by (unfold c; lia).
    assert ((c + 128) * 1000 / 256 < 997)
      by (apply Z.div_lt_upper_bound; lia).
    lia.
Qed.

Lemma play_mono_writes_witness :
  PwmAudio.pwm_audio_play_mono [0; 32767] engine_playing
  = (0, PwmAudio.with_pwm_r
          (pwm_written (PwmAudio.pwm_audio_r engine_playing)
             [(1000, 500); (1000, 996)])
          (PwmAudio.with_pwm_l
             (pwm_written (PwmAudio.pwm_audio_l engine_playing)
                [(1000, 500); (1000, 996)]) engine_playing)).
Proof.
  apply (play_mono_writes [0; 32767] engine_playing); reflexivity.
Defined.

(** X4.  On an initialised, unmuted engine whose PWM channels answer,
    [pwm_audio_play] returns 0 and programs the even-indexed samples of the
    interleaved buffer on the left channel and the odd-indexed ones on the
    right channel, pair by pair. *)
Theorem play_stereo_writes (buffer : list Z) (e : PwmAudio.engine) :
  PwmAudio.is_initialized e = true ->
  PwmAudio.is_muted e = false ->
  pwm_fault (PwmAudio.pwm_audio_l e) = 0 ->
  pwm_fault (PwmAudio.pwm_audio_r e) = 0 ->
  let lefts := map fst (stereo_pairs buffer) in
  let rights := map snd (stereo_pairs buffer) in
  PwmAudio.pwm_audio_play buffer e
  = (0, PwmAudio.with_pwm_r
          (pwm_written (PwmAudio.pwm_audio_r e)
             (mono_writes (PwmAudio.current_volume e) rights))
          (PwmAudio.with_pwm_l
             (pwm_written (PwmAudio.pwm_audio_l e)
                (mono_writes (PwmAudio.current_volume e) lefts)) e)).
Proof.
  intros Hi Hm Hl Hr lefts rights. subst lefts rights.
  unfold PwmAudio.pwm_audio_play. rewrite Hi, Hm. cbn [negb].
  apply play_stereo_loop_healthy; assumption.
Qed.

Lemma play_stereo_writes_witness :
  PwmAudio.pwm_audio_play [0; 32767; -32768; 0] engine_playing
  = (0, PwmAudio.with_pwm_r
          (pwm_written (PwmAudio.pwm_audio_r engine_playing)
             [(1000, 996); (1000, 500)])
          (PwmAudio.with_pwm_l
             (pwm_written (PwmAudio.pwm_audio_l engine_playing)
                [(1000, 500); (1000, 3)]) engine_playing)).
Proof.
  apply (play_stereo_writes [0; 32767; -32768; 0] engine_playing); reflexivity.
Defined.

(** X5.  [pwm_audio_play] never plays a trailing sample without a partner:
    a buffer of even length followed by one more sample is played exactly
    as the buffer without it. *)
Theorem play_stereo_ignores_unpaired_sample
    (buffer : list Z) (x : Z) (e : PwmAudio.engine) :
  Nat.Even (length buffer) ->
  PwmAudio.pwm_audio_play (buffer ++ [x]) e = PwmAudio.pwm_audio_play buffer e.
Proof.
  intros Heven. unfold PwmAudio.pwm_audio_play.
  destruct (negb (PwmAudio.is_initialized e)); [reflexivity|].
  destruct (PwmAudio.is_muted e); [reflexivity|].
  apply play_stereo_loop_drop_odd, Heven.
Qed.

Lemma play_stereo_ignores_unpaired_sample_witness :
  PwmAudio.pwm_audio_play [100; 200; 300] engine_playing
  = PwmAudio.pwm_audio_play [100; 200] engine_playing.
Proof.
  apply (play_stereo_ignores_unpaired_sample [100; 200] 300 engine_playing).
  exists 1%nat. reflexivity.
Defined.

(** X6.  [pwm_audio_play_mono] stops at the first [pwm_set] that fails and
    returns its error code.  A failing left channel leaves the engine
    untouched; a failing right channel leaves the first sample programmed
    on the left channel only. *)
Theorem play_mono_propagates_driver_error
    (sample : Z) (rest : list Z) (e : PwmAudio.engine) :
  PwmAudio.is_initialized e = true ->
  PwmAudio.is_muted e = false ->
  (pwm_fault (PwmAudio.pwm_audio_l e) <> 0 ->
     PwmAudio.pwm_audio_play_mono (sample :: rest) e
     = (pwm_fault (PwmAudio.pwm_audio_l e), e))
  /\ (pwm_fault (PwmAudio.pwm_audio_l e) = 0 ->
      pwm_fault (PwmAudio.pwm_audio_r e) <> 0 ->
      PwmAudio.pwm_audio_play_mono (sample :: rest) e
      = (pwm_fault (PwmAudio.pwm_audio_r e),
         PwmAudio.with_pwm_l
           (pwm_written (PwmAudio.pwm_audio_l e)
              (mono_writes (PwmAudio.current_volume e) [sample])) e)).
Proof.
  intros Hi Hm. unfold PwmAudio.pwm_audio_play_mono. rewrite Hi, Hm.
  cbn [negb PwmAudio.play_mono_loop]. split.
  - intros Hl. rewrite pwm_set_faulty by exact Hl.
    destruct (Z.eqb_spec (pwm_fault (PwmAudio.pwm_audio_l e)) 0);
      [contradiction|].
    cbn [negb]. unfold PwmAudio.with_pwm_l. rewrite engine_eta. reflexivity.
  - intros Hl Hr. rewrite pwm_set_healthy by exact Hl. cbn [negb Z.eqb].
    cbn [PwmAudio.pwm_audio_r PwmAudio.with_pwm_l].
    rewrite pwm_set_faulty by exact Hr.
    destruct (Z.eqb_spec (pwm_fault (PwmAudio.pwm_audio_r e)) 0);
      [contradiction|].
    cbn [negb]. destruct e as [v m i k t tm tr [rl fl ll] r sd g0 g1 sl].
    reflexivity.
Qed.

Lemma play_mono_propagates_driver_error_witness :
  PwmAudio.pwm_audio_play_mono [1; 8]
    (PwmAudio.with_pwm_r (mk_pwm true (-5) []) engine_playing)
  = (-5, PwmAudio.with_pwm_l
           (pwm_written (PwmAudio.pwm_audio_l engine_playing) [(1000, 500)])
           (PwmAudio.with_pwm_r (mk_pwm true (-5) []) engine_playing))
  /\ PwmAudio.pwm_audio_play_mono [1; 8]
       (PwmAudio.with_pwm_l (mk_pwm true (-5) []) engine_playing)
     = (-5, PwmAudio.with_pwm_l (mk_pwm true (-5) []) engine_playing).
Proof.
  split.
  - destruct (play_mono_propagates_driver_error 1 [8]
                (PwmAudio.with_pwm_r (mk_pwm true (-5) []) engine_playing))
      as [_ H]; [reflexivity | reflexivity |].
    exact (H eq_refl ltac:(discriminate)).
  - destruct (play_mono_propagates_driver_error 1 [8]
                (PwmAudio.with_pwm_l (mk_pwm true (-5) []) engine_playing))
      as [H _]; [reflexivity | reflexivity |].
    exact (H ltac:(discriminate)).
Defined.

Section InitExtra.
Import PwmAudio.

Lemma gpio_set_healthy p v :
  pin_fault p = 0 ->
  gpio_pin_set_dt p v
  = (0, mk_pin (pin_ready p) (pin_fault p) (Some (if v =? 0 then 0 else 1))).
Proof. intros H. unfold gpio_pin_set_dt. rewrite H. reflexivity. Qed.

Lemma gpio_configure_healthy p :
  pin_fault p = 0 ->
  gpio_pin_configure_dt p = (0, mk_pin (pin_ready p) (pin_fault p) (Some 0)).
Proof. intros H. unfold gpio_pin_configure_dt. rewrite H. reflexivity. Qed.

(** The gain pins are optional: whatever they answer, [pam8403_init]
    succeeds once the shutdown pin is ready and healthy, and leaves it at
    level 1. *)
Lemma pam8403_init_wakes e :
  pin_ready (pam8403_shutdown_pin e) = true ->
  pin_fault (pam8403_shutdown_pin e) = 0 ->
  let r := pam8403_init e in
  fst r = 0
  /\ pin_level (pam8403_shutdown_pin (snd r)) = Some 1
  /\ current_volume (snd r) = current_volume e
  /\ is_muted (snd r) = is_muted e
  /\ is_initialized (snd r) = is_initialized e
  /\ ramp_step (snd r) = ramp_step e
  /\ mute_ramp_timer (snd r) = mute_ramp_timer e
  /\ pwm_audio_l (snd r) = pwm_audio_l e
  /\ pwm_audio_r (snd r) = pwm_audio_r e
  /\ audio_mem_slab (snd r) = audio_mem_slab e
  /\ (pin_ready (pam8403_gain0_pin e) = true ->
      pin_fault (pam8403_gain0_pin e) = 0 ->
      pin_level (pam8403_gain0_pin (snd r)) = Some 1)
  /\ (pin_ready (pam8403_gain1_pin e) = true ->
      pin_fault (pam8403_gain1_pin e) = 0 ->
      pin_level (pam8403_gain1_pin (snd r)) = Some 0).
Proof.
  intros Hrdy Hok. cbv zeta.
  destruct e as [v m i k t tm tr l r sd g0 g1 sl].
  destruct sd as [sr sf sl'], g0 as [r0 f0 l0], g1 as [r1 f1 l1].
  cbn in Hrdy, Hok. subst sr sf.
  destruct r0, r1, f0, f1; cbn;
    repeat split; try reflexivity; intros; discriminate.
Qed.

(** [pwm_audio_init] on a board whose PWM channels and shutdown pin are
    ready and healthy. *)
Lemma pwm_audio_init_ok e :
  is_initialized e = false ->
  pwm_ready (pwm_audio_l e) = true -> pwm_ready (pwm_audio_r e) = true ->
  pwm_fault (pwm_audio_l e) = 0 -> pwm_fault (pwm_audio_r e) = 0 ->
  pin_ready (pam8403_shutdown_pin e) = true ->
  pin_fault (pam8403_shutdown_pin e) = 0 ->
  let r := pwm_audio_init e in
  let half := (PWM_AUDIO_PERIOD_NS, Z.quot PWM_AUDIO_PERIOD_NS 2) in
  fst r = 0
  /\ is_initialized (snd r) = true
  /\ is_muted (snd r) = true
  /\ pwm_audio_l (snd r)
     = mk_pwm true 0 (half :: pwm_log (pwm_audio_l e))
  /\ pwm_audio_r (snd r)
     = mk_pwm true 0 (half :: pwm_log (pwm_audio_r e))
  /\ pin_level (pam8403_shutdown_pin (snd r)) = Some 1
  /\ current_volume (snd r) = current_volume e
  /\ ramp_step (snd r) = ramp_step e
  /\ mute_ramp_timer (snd r) = mute_ramp_timer e
  /\ audio_mem_slab (snd r) = audio_mem_slab e.
Proof.
  intros Hi Hlr Hrr Hlf Hrf Hsr Hsf. cbv zeta.
  unfold pwm_audio_init. rewrite Hi, Hlr, Hrr. cbn [negb].
  rewrite pwm_set_healthy by exact Hlf. cbn [negb Z.eqb].
  cbn [pwm_audio_r with_pwm_l].
  rewrite pwm_set_healthy by exact Hrf. cbn [negb Z.eqb].
  rewrite Hlr, Hrr, Hlf, Hrf.
  match goal with
  | |- context [pam8403_init ?e2] =>
      pose proof (pam8403_init_wakes e2 Hsr Hsf) as Hamp;
      destruct (pam8403_init e2) as [err e3]
  end.
  cbv zeta in Hamp. cbn [fst snd] in Hamp.
  destruct Hamp as (-> & Hlvl & Hv & _ & _ & Hk & Ht & Hl & Hr & Hs & _).
  cbn [negb Z.eqb fst snd].
  cbn [is_initialized is_muted with_initialized with_muted pwm_audio_l
       pwm_audio_r pam8403_shutdown_pin current_volume ramp_step
       mute_ramp_timer audio_mem_slab].
  rewrite Hlvl, Hv, Hk, Ht, Hl, Hr, Hs. repeat split.
Qed.

End InitExtra.

(** X7.  On a board whose two PWM channels and shutdown pin are ready and
    answer, [pwm_audio_init] returns 0 and leaves the engine initialised and
    muted, both channels at half the period, the amplifier woken up
    (shutdown pin at 1), the volume and the ramp timer as they were; a
    second call returns 0 and changes nothing. *)
Theorem pwm_audio_init_healthy_board (e : PwmAudio.engine) :
  PwmAudio.is_initialized e = false ->
  pwm_ready (PwmAudio.pwm_audio_l e) = true ->
  pwm_ready (PwmAudio.pwm_audio_r e) = true ->
  pwm_fault (PwmAudio.pwm_audio_l e) = 0 ->
  pwm_fault (PwmAudio.pwm_audio_r e) = 0 ->
  pin_ready (PwmAudio.pam8403_shutdown_pin e) = true ->
  pin_fault (PwmAudio.pam8403_shutdown_pin e) = 0 ->
  let r := PwmAudio.pwm_audio_init e in
  let half :=
    (PwmAudio.PWM_AUDIO_PERIOD_NS, Z.quot PwmAudio.PWM_AUDIO_PERIOD_NS 2) in
  fst r = 0
  /\ PwmAudio.is_initialized (snd r) = true
  /\ PwmAudio.is_muted (snd r) = true
  /\ pwm_current (PwmAudio.pwm_audio_l (snd r)) = Some half
  /\ pwm_current (PwmAudio.pwm_audio_r (snd r)) = Some half
  /\ pin_level (PwmAudio.pam8403_shutdown_pin (snd r)) = Some 1
  /\ PwmAudio.current_volume (snd r) = PwmAudio.current_volume e
  /\ PwmAudio.mute_ramp_timer (snd r) = PwmAudio.mute_ramp_timer e
  /\ PwmAudio.pwm_audio_init (snd r) = (0, snd r).
Proof.
  intros Hi Hlr Hrr Hlf Hrf Hsr Hsf. cbv zeta.
  destruct (pwm_audio_init_ok e Hi Hlr Hrr Hlf Hrf Hsr Hsf)
    as (H0 & Hinit & Hm & Hl & Hr & Hlvl & Hv & _ & Ht & _).
  repeat split; try assumption.
  - rewrite Hl. reflexivity.
  - rewrite Hr. reflexivity.
  - unfold PwmAudio.pwm_audio_init at 1. rewrite Hinit. reflexivity.
Qed.

Lemma pwm_audio_init_healthy_board_witness :
  fst (PwmAudio.pwm_audio_init engine_at_power_on) = 0
  /\ PwmAudio.is_muted (snd (PwmAudio.pwm_audio_init engine_at_power_on)) = true.
Proof.
  destruct (pwm_audio_init_healthy_board engine_at_power_on)
    as (H0 & _ & Hm & _); try reflexivity.
  split; assumption.
Defined.

(** X8.  [pwm_audio_init] on an engine that is not initialised: when a PWM
    channel is not ready it returns -ENODEV and changes nothing; when the
    channels are fine and the shutdown pin is not ready it returns -ENODEV
    with the engine still not initialised, although both channels were
    already programmed to half the period. *)
Theorem pwm_audio_init_failures (e : PwmAudio.engine) :
  PwmAudio.is_initialized e = false ->
  ((pwm_ready (PwmAudio.pwm_audio_l e) = false
    \/ pwm_ready (PwmAudio.pwm_audio_r e) = false) ->
     PwmAudio.pwm_audio_init e = (- ENODEV, e))
  /\ (pwm_ready (PwmAudio.pwm_audio_l e) = true ->
      pwm_ready (PwmAudio.pwm_audio_r e) = true ->
      pwm_fault (PwmAudio.pwm_audio_l e) = 0 ->
      pwm_fault (PwmAudio.pwm_audio_r e) = 0 ->
      pin_ready (PwmAudio.pam8403_shutdown_pin e) = false ->
      let r := PwmAudio.pwm_audio_init e in
      let half :=
        (PwmAudio.PWM_AUDIO_PERIOD_NS, Z.quot PwmAudio.PWM_AUDIO_PERIOD_NS 2) in
      fst r = - ENODEV
      /\ PwmAudio.is_initialized (snd r) = false
      /\ PwmAudio.is_muted (snd r) = PwmAudio.is_muted e
      /\ pwm_current (PwmAudio.pwm_audio_l (snd r)) = Some half
      /\ pwm_current (PwmAudio.pwm_audio_r (snd r)) = Some half
      /\ PwmAudio.pam8403_shutdown_pin (snd r) = PwmAudio.pam8403_shutdown_pin e).
Proof.
  intros Hi. split.
  - intros H. unfold PwmAudio.pwm_audio_init. rewrite Hi.
    destruct H as [-> | H]; [reflexivity|].
    rewrite H. destruct (pwm_ready (PwmAudio.pwm_audio_l e)); reflexivity.
  - intros Hlr Hrr Hlf Hrf Hsr. cbv zeta.
    unfold PwmAudio.pwm_audio_init. rewrite Hi, Hlr, Hrr. cbn [negb].
    rewrite pwm_set_healthy by exact Hlf. cbn [negb Z.eqb].
    cbn [PwmAudio.pwm_audio_r PwmAudio.with_pwm_l].
    rewrite pwm_set_healthy by exact Hrf. cbn [negb Z.eqb].
    unfold PwmAudio.pam8403_init.
    cbn [PwmAudio.pam8403_shutdown_pin PwmAudio.with_pwm_l PwmAudio.with_pwm_r].
    rewrite Hsr. cbn. repeat split; try assumption; try reflexivity.
Qed.

Lemma pwm_audio_init_failures_witness :
  PwmAudio.pwm_audio_init
    (PwmAudio.power_on (mk_pwm false 0 []) healthy_pwm healthy_pin healthy_pin
       healthy_pin)
  = (-19, PwmAudio.power_on (mk_pwm false 0 []) healthy_pwm healthy_pin
            healthy_pin healthy_pin)
  /\ fst (PwmAudio.pwm_audio_init
            (PwmAudio.power_on healthy_pwm healthy_pwm (mk_pin false 0 None)
               healthy_pin healthy_pin)) = -19.
Proof.
  split.
  - destruct (pwm_audio_init_failures
                (PwmAudio.power_on (mk_pwm false 0 []) healthy_pwm healthy_pin
                   healthy_pin healthy_pin)) as [H _]; [reflexivity|].
    apply H. left. reflexivity.
  - destruct (pwm_audio_init_failures
                (PwmAudio.power_on healthy_pwm healthy_pwm (mk_pin false 0 None)
                   healthy_pin healthy_pin)) as [_ H]; [reflexivity|].
    apply H; reflexivity.
Defined.

(** X9.  [pam8403_set_gain]: a level above 3 is treated as level 1
    (15 dB); with both gain pins ready and healthy the pins end up holding
    the two bits of the level, pin 0 the low bit; with neither pin ready
    the call changes nothing. *)
Theorem pam8403_set_gain_levels (gain_level : Z) (e : PwmAudio.engine) :
  is_uint8 gain_level ->
  (3 < gain_level ->
     PwmAudio.pam8403_set_gain gain_level e
     = PwmAudio.pam8403_set_gain PwmAudio.PAM8403_GAIN_15DB e)
  /\ (pin_ready (PwmAudio.pam8403_gain0_pin e) = true ->
      pin_ready (PwmAudio.pam8403_gain1_pin e) = true ->
      pin_fault (PwmAudio.pam8403_gain0_pin e) = 0 ->
      pin_fault (PwmAudio.pam8403_gain1_pin e) = 0 ->
      exists b0 b1,
        pin_level (PwmAudio.pam8403_gain0_pin
                     (PwmAudio.pam8403_set_gain gain_level e)) = Some b0
        /\ pin_level (PwmAudio.pam8403_gain1_pin
                        (PwmAudio.pam8403_set_gain gain_level e)) = Some b1
        /\ b0 + 2 * b1 = (if 3 <? gain_level then 1 else gain_level))
  /\ (pin_ready (PwmAudio.pam8403_gain0_pin e) = false ->
      pin_ready (PwmAudio.pam8403_gain1_pin e) = false ->
      PwmAudio.pam8403_set_gain gain_level e = e).
Proof.
  intros Hg. unfold PwmAudio.pam8403_set_gain. repeat split.
  - intros H3. destruct (Z.gtb_spec gain_level 3); [reflexivity | lia].
  - intros H0 H1 F0 F1.
    rewrite H0. cbn [PwmAudio.pam8403_gain1_pin PwmAudio.pam8403_gain0_pin].
    rewrite (gpio_set_healthy _ _ F0).
    cbn [PwmAudio.pam8403_gain1_pin PwmAudio.with_gain0_pin]. rewrite H1.
    rewrite (gpio_set_healthy _ _ F1).
    cbn [PwmAudio.pam8403_gain1_pin PwmAudio.pam8403_gain0_pin
         PwmAudio.with_gain0_pin PwmAudio.with_gain1_pin pin_level].
    eexists _, _. split; [reflexivity|]. split; [reflexivity|].
    destruct (Z.gtb_spec gain_level 3), (Z.ltb_spec 3 gain_level); try lia.
    + reflexivity.
    + unfold is_uint8 in Hg.
      assert (Hc : gain_level = 0 \/ gain_level = 1 \/ gain_level = 2
                   \/ gain_level = 3) by lia.
      destruct Hc as [-> | [-> | [-> | ->]]]; reflexivity.
  - intros H0 H1. rewrite H0.
    cbn [PwmAudio.pam8403_gain1_pin]. rewrite H1.
    reflexivity.
Qed.

Lemma pam8403_set_gain_levels_witness :
  PwmAudio.pam8403_set_gain 7 engine_muted
  = PwmAudio.pam8403_set_gain 1 engine_muted
  /\ pin_level (PwmAudio.pam8403_gain1_pin
                  (PwmAudio.pam8403_set_gain 2 engine_muted)) = Some 1.
Proof.
  split.
  - destruct (pam8403_set_gain_levels 7 engine_muted) as (H & _ & _);
      [unfold is_uint8; lia|]. apply H. lia.
  - destruct (pam8403_set_gain_levels 2 engine_muted) as (_ & H & _);
      [unfold is_uint8; lia|].
    destruct H as (b0 & b1 & _ & _ & _); reflexivity.
Defined.

(** X10.  A second [pwm_audio_mute] right after the first changes nothing,
    likewise for [pwm_audio_unmute]; before initialisation both calls
    change nothing at all. *)
Theorem mute_unmute_idempotent (e : PwmAudio.engine) :
  PwmAudio.pwm_audio_mute (PwmAudio.pwm_audio_mute e) = PwmAudio.pwm_audio_mute e
  /\ PwmAudio.pwm_audio_unmute (PwmAudio.pwm_audio_unmute e)
     = PwmAudio.pwm_audio_unmute e
  /\ (PwmAudio.is_initialized e = false ->
      PwmAudio.pwm_audio_mute e = e /\ PwmAudio.pwm_audio_unmute e = e).
Proof.
  destruct e as [v m i k t tm tr l r sd g0 g1 sl].
  split; [|split].
  - destruct i, m; reflexivity.
  - destruct i, m; reflexivity.
  - intros H. cbn in H. subst i. split; reflexivity.
Qed.

Lemma mute_unmute_idempotent_witness :
  PwmAudio.pwm_audio_mute engine_at_power_on = engine_at_power_on
  /\ PwmAudio.pwm_audio_unmute engine_at_power_on = engine_at_power_on.
Proof.
  destruct (mute_unmute_idempotent engine_at_power_on) as (_ & _ & H).
  exact (H eq_refl).
Defined.

Section RampExtra.
Import PwmAudio.

Ltac ramp_fields' :=
  cbn [ramp_step target_volume ramping_to_mute current_volume
       pwm_audio_set_volume with_volume with_ramp_step with_ramp_target
       with_timer with_pwm_l with_pwm_r k_timer_stop
       is_muted is_initialized mute_ramp_timer pwm_audio_l pwm_audio_r
       pam8403_shutdown_pin pam8403_gain0_pin pam8403_gain1_pin audio_mem_slab].

Ltac ramp_close' :=
  unfold pwm_audio_set_volume, PWM_AUDIO_MAX_VOLUME, PWM_AUDIO_MUTE_RAMP_STEPS;
  repeat match goal with
  | |- context [to_uint8 ?x] => rewrite (to_uint8_small x) by lia
  end;
  split_cmp; try lia; reflexivity.

Variable e : engine.

(** A tick in the middle of a ramp does not look at the mute flag. *)
Lemma mute_direction_tick v m k :
  0 <= v <= PWM_AUDIO_MAX_VOLUME ->
  1 <= k < 19 ->
  timer_tick (ramping e v m k 0 true) = ramping e v m (k + 1) 0 true.
Proof.
  intros Hv Hk. unfold PWM_AUDIO_MAX_VOLUME in Hv.
  unfold timer_tick, ramping. cbn [mute_ramp_timer].
  unfold mute_ramp_callback. cbn [ramp_step].
  destruct (Z.eqb_spec k 0) as [|_]; [lia|].
  ramp_fields'. rewrite Z.mul_0_l.
  change (to_uint8 (Z.quot 0 PWM_AUDIO_MUTE_RAMP_STEPS)) with 0.
  rewrite Z.sub_0_r. ramp_close'.
Qed.

Lemma mute_direction_last_tick v m :
  0 <= v <= PWM_AUDIO_MAX_VOLUME ->
  timer_tick (ramping e v m 19 0 true)
  = let half := Z.quot PWM_AUDIO_PERIOD_NS 2 in
    with_pwm_r (snd (pwm_set (pwm_audio_r e) PWM_AUDIO_PERIOD_NS half))
      (with_pwm_l (snd (pwm_set (pwm_audio_l e) PWM_AUDIO_PERIOD_NS half))
         (k_timer_stop (ramping e v m 0 0 true))).
Proof.
  intros Hv. unfold PWM_AUDIO_MAX_VOLUME in Hv.
  unfold timer_tick, ramping. cbn [mute_ramp_timer].
  unfold mute_ramp_callback. cbn [ramp_step Z.eqb].
  ramp_fields'. rewrite Z.mul_0_l.
  change (to_uint8 (Z.quot 0 PWM_AUDIO_MUTE_RAMP_STEPS)) with 0.
  rewrite Z.sub_0_r. rewrite (to_uint8_small v) by lia.
  change (to_uint8 (19 + 1) >=? PWM_AUDIO_MUTE_RAMP_STEPS) with true.
  unfold pwm_audio_set_volume, PWM_AUDIO_MAX_VOLUME.
  destruct (Z.gtb_spec v 180); [lia|].
  ramp_fields'.
  destruct (pwm_set (pwm_audio_l e) _ _) as [el l'].
  destruct (pwm_set (pwm_audio_r e) _ _) as [er r']. reflexivity.
Qed.

Lemma unmute_direction_tick v m k :
  1 <= k < 19 ->
  timer_tick (ramping e v m k PWM_AUDIO_MAX_VOLUME false)
  = ramping e (9 * k) m (k + 1) PWM_AUDIO_MAX_VOLUME false.
Proof.
  intros Hk. unfold timer_tick, ramping. cbn [mute_ramp_timer].
  unfold mute_ramp_callback. cbn [ramp_step].
  destruct (Z.eqb_spec k 0) as [|_]; [lia|].
  ramp_fields'. rewrite ramp_quot. ramp_close'.
Qed.

Lemma unmute_direction_last_tick v m :
  timer_tick (ramping e v m 19 PWM_AUDIO_MAX_VOLUME false)
  = k_timer_stop (ramping e 171 m 0 PWM_AUDIO_MAX_VOLUME false).
Proof. destruct m; reflexivity. Qed.

Lemma mute_direction_ticks v m k (j : nat) :
  0 <= v <= PWM_AUDIO_MAX_VOLUME ->
  1 <= k -> k + Z.of_nat j <= 19 ->
  timer_ticks j (ramping e v m k 0 true)
  = ramping e v m (k + Z.of_nat j) 0 true.
Proof.
  intros Hv Hk. induction j as [|j IH]; intros Hj.
  - cbn [timer_ticks]. f_equal. lia.
  - rewrite timer_ticks_succ, IH by lia.
    rewrite mute_direction_tick by (try exact Hv; lia). f_equal. lia.
Qed.

Lemma unmute_direction_ticks v m k (j : nat) :
  1 <= k -> k + Z.of_nat (S j) <= 19 ->
  timer_ticks (S j) (ramping e v m k PWM_AUDIO_MAX_VOLUME false)
  = ramping e (9 * (k + Z.of_nat j)) m (k + Z.of_nat (S j))
      PWM_AUDIO_MAX_VOLUME false.
Proof.
  intros Hk. induction j as [|j IH]; intros Hj.
  - cbn [timer_ticks]. rewrite unmute_direction_tick by lia. f_equal; lia.
  - rewrite timer_ticks_succ, IH by lia.
    rewrite unmute_direction_tick by lia. f_equal; lia.
Qed.

Lemma unmute_mid_ramp v k t m :
  is_initialized e = true ->
  pwm_audio_unmute (ramping e v true k t m) = ramping e v false k t m.
Proof.
  intros Hi. unfold pwm_audio_unmute, ramping. cbn [is_initialized is_muted].
  rewrite Hi. reflexivity.
Qed.

Lemma mute_mid_ramp v k t m :
  is_initialized e = true ->
  pwm_audio_mute (ramping e v false k t m) = ramping e v true k t m.
Proof.
  intros Hi. unfold pwm_audio_mute, ramping. cbn [is_initialized is_muted].
  rewrite Hi. reflexivity.
Qed.

End RampExtra.

(** X11.  An unmute request in the middle of a mute ramp does not turn the
    ramp around.  Starting from a playing engine with an idle ramp, mute,
    k ticks (0 < k < 20), unmute and the remaining 20 - k ticks leave the
    engine flagged as not muted, with the volume it had before the mute,
    but with the ramp finished in the mute direction: timer stopped and
    both channels parked at half the period. *)
Theorem unmute_during_mute_ramp (e : PwmAudio.engine) (k : nat) :
  PwmAudio.is_initialized e = true ->
  PwmAudio.is_muted e = false ->
  PwmAudio.ramp_step e = 0 ->
  PwmAudio.volume_ok e ->
  (0 < k < 20)%nat ->
  let e1 := PwmAudio.timer_ticks k (PwmAudio.pwm_audio_mute e) in
  let e2 := PwmAudio.timer_ticks (20 - k) (PwmAudio.pwm_audio_unmute e1) in
  let half := Z.quot PwmAudio.PWM_AUDIO_PERIOD_NS 2 in
  e2 = PwmAudio.with_pwm_r
         (snd (pwm_set (PwmAudio.pwm_audio_r e) PwmAudio.PWM_AUDIO_PERIOD_NS half))
         (PwmAudio.with_pwm_l
            (snd (pwm_set (PwmAudio.pwm_audio_l e)
                    PwmAudio.PWM_AUDIO_PERIOD_NS half))
            (PwmAudio.k_timer_stop
               (ramping e (PwmAudio.current_volume e) false 0 0 true)))
  /\ PwmAudio.is_muted e2 = false
  /\ PwmAudio.current_volume e2 = PwmAudio.current_volume e
  /\ PwmAudio.ramping_to_mute e2 = true
  /\ PwmAudio.mute_ramp_timer e2 = None.
Proof.
  intros Hi Hm Hs Hv Hk. cbv zeta.
  rewrite (mute_starts_ramp e Hi Hm Hs).
  destruct k as [|k]; [lia|].
  rewrite mute_ticks by (try exact Hv; lia).
  rewrite unmute_mid_ramp by exact Hi.
  replace (20 - S k)%nat with (S (19 - S k)) by lia.
  rewrite timer_ticks_succ.
  rewrite mute_direction_ticks by (try exact Hv; lia).
  replace (Z.of_nat (S k) + Z.of_nat (19 - S k)) with 19 by lia.
  rewrite mute_direction_last_tick by exact Hv.
  cbv zeta. repeat split.
Qed.

Lemma unmute_during_mute_ramp_witness :
  PwmAudio.current_volume
    (PwmAudio.timer_ticks 15
       (PwmAudio.pwm_audio_unmute
          (PwmAudio.timer_ticks 5 (PwmAudio.pwm_audio_mute engine_playing))))
  = 180.
Proof.
  assert (Hv : PwmAudio.volume_ok engine_playing).
  { unfold PwmAudio.volume_ok.
    change (PwmAudio.current_volume engine_playing) with 180.
    unfold PwmAudio.PWM_AUDIO_MAX_VOLUME. lia. }
  destruct (unmute_during_mute_ramp engine_playing 5
              eq_refl eq_refl eq_refl Hv ltac:(lia)) as (_ & _ & H & _).
  exact H.
Defined.

(** X12.  A mute request in the middle of an unmute ramp does not turn the
    ramp around.  Starting from a muted engine with an idle ramp, unmute,
    k ticks (0 < k < 20), mute and the remaining 20 - k ticks leave the
    engine flagged as muted with the volume at 171, the last step of the
    upward ramp, and the PWM channels untouched. *)
Theorem mute_during_unmute_ramp (e : PwmAudio.engine) (k : nat) :
  PwmAudio.is_initialized e = true ->
  PwmAudio.is_muted e = true ->
  PwmAudio.ramp_step e = 0 ->
  (0 < k < 20)%nat ->
  let e1 := PwmAudio.timer_ticks k (PwmAudio.pwm_audio_unmute e) in
  let e2 := PwmAudio.timer_ticks (20 - k) (PwmAudio.pwm_audio_mute e1) in
  e2 = PwmAudio.k_timer_stop
         (ramping e 171 true 0 PwmAudio.PWM_AUDIO_MAX_VOLUME false)
  /\ PwmAudio.is_muted e2 = true
  /\ PwmAudio.current_volume e2 = 171
  /\ PwmAudio.pwm_audio_l e2 = PwmAudio.pwm_audio_l e
  /\ PwmAudio.pwm_audio_r e2 = PwmAudio.pwm_audio_r e.
Proof.
  intros Hi Hm Hs Hk. cbv zeta.
  rewrite (unmute_starts_ramp e Hi Hm Hs).
  destruct k as [|k]; [lia|].
  rewrite unmute_ticks by lia.
  rewrite mute_mid_ramp by exact Hi.
  replace (20 - S k)%nat with (S (19 - S k)) by lia.
  rewrite timer_ticks_succ.
  assert (Hlast : PwmAudio.timer_ticks (19 - S k)
            (ramping e
               (Z.quot (PwmAudio.PWM_AUDIO_MAX_VOLUME * Z.of_nat k)
                  PwmAudio.PWM_AUDIO_MUTE_RAMP_STEPS)
               true (Z.of_nat (S k)) PwmAudio.PWM_AUDIO_MAX_VOLUME false)
          = ramping e (if decide (k = 18%nat)
                       then Z.quot (PwmAudio.PWM_AUDIO_MAX_VOLUME * Z.of_nat k)
                              PwmAudio.PWM_AUDIO_MUTE_RAMP_STEPS
                       else 162)
              true 19 PwmAudio.PWM_AUDIO_MAX_VOLUME false).
  { destruct (decide (k = 18%nat)) as [->|Hne]; [reflexivity|].
    replace (19 - S k)%nat with (S (17 - k)) by lia.
    rewrite unmute_direction_ticks by lia. f_equal; lia. }
  rewrite Hlast, unmute_direction_last_tick. repeat split.
Qed.

Lemma mute_during_unmute_ramp_witness :
  PwmAudio.current_volume
    (PwmAudio.timer_ticks 15
       (PwmAudio.pwm_audio_mute
          (PwmAudio.timer_ticks 5 (PwmAudio.pwm_audio_unmute engine_muted))))
  = 171.
Proof.
  destruct (mute_during_unmute_ramp engine_muted 5
              eq_refl eq_refl eq_refl ltac:(lia)) as (_ & _ & H & _).
  exact H.
Defined.

Section SelfTestExtra.
Import PwmAudio.

Lemma test_samples_value d :
  0 <= d -> test_samples d = Z.min (16 * d) 5000.
Proof.
  intros Hd. unfold test_samples, PWM_AUDIO_SAMPLE_RATE, MAX_BLOCK_SIZE.
  replace (16000 * d) with (16 * d * 1000) by lia.
  rewrite Z.quot_mul by lia. change (Z.quot 10000 2) with 5000.
  destruct (Z.gtb_spec (16 * d) 5000); lia.
Qed.

Lemma test_buffer_length gen n : length (test_buffer gen n) = Z.to_nat n.
Proof. unfold test_buffer. rewrite length_map, length_seq. reflexivity. Qed.

Lemma pwm_audio_set_volume_with_min v e :
  pwm_audio_set_volume v e = with_volume (Z.min v PWM_AUDIO_MAX_VOLUME) e.
Proof.
  unfold pwm_audio_set_volume, PWM_AUDIO_MAX_VOLUME.
  destruct (Z.gtb_spec v 180); f_equal; lia.
Qed.

End SelfTestExtra.

(** X13.  For a duration that is not negative the self tests play
    min(16 * duration_ms, 5000) samples: the sample count follows the
    16 kHz rate and is capped at the 5000 samples of one block. *)
Theorem self_test_buffer_fits (gen : Z -> Z) (duration_ms : Z) :
  0 <= duration_ms ->
  length (PwmAudio.test_buffer gen (PwmAudio.test_samples duration_ms))
  = Z.to_nat (Z.min (16 * duration_ms) 5000)
  /\ (length (PwmAudio.test_buffer gen (PwmAudio.test_samples duration_ms))
      <= Z.to_nat (Z.quot PwmAudio.MAX_BLOCK_SIZE 2))%nat.
Proof.
  intros Hd. rewrite test_buffer_length, test_samples_value by exact Hd.
  split; [reflexivity|]. change (Z.quot PwmAudio.MAX_BLOCK_SIZE 2) with 5000.
  lia.
Qed.

Lemma self_test_buffer_fits_witness :
  length (PwmAudio.test_buffer (fun i => i) (PwmAudio.test_samples 1000))
  = 5000%nat.
Proof.
  destruct (self_test_buffer_fits (fun i => i) 1000) as [H _]; [lia|].
  rewrite H. reflexivity.
Defined.

(** X14.  [pwm_audio_test_sine_wave] on an initialised engine with a volume
    in range.  Without a free block it returns -ENOMEM and leaves the test
    volume (capped at 180) in place.  With a free block, unmuted and with
    healthy channels, it returns 0, programs the codes of the test samples
    at the capped test volume on both channels, and restores the block and
    the original volume.  With a free block and muted it returns 0 and
    changes nothing. *)
Theorem sine_test_restores_engine
    (gen : Z -> Z) (volume duration_ms : Z) (e : PwmAudio.engine) :
  PwmAudio.is_initialized e = true ->
  PwmAudio.volume_ok e ->
  (PwmAudio.audio_mem_slab e = 0%nat ->
     PwmAudio.pwm_audio_test_sine_wave gen volume duration_ms e
     = (- ENOMEM,
        PwmAudio.with_volume (Z.min volume PwmAudio.PWM_AUDIO_MAX_VOLUME) e))
  /\ (PwmAudio.audio_mem_slab e <> 0%nat ->
      PwmAudio.is_muted e = false ->
      pwm_fault (PwmAudio.pwm_audio_l e) = 0 ->
      pwm_fault (PwmAudio.pwm_audio_r e) = 0 ->
      let writes :=
        mono_writes (Z.min volume PwmAudio.PWM_AUDIO_MAX_VOLUME)
          (PwmAudio.test_buffer gen (PwmAudio.test_samples duration_ms)) in
      PwmAudio.pwm_audio_test_sine_wave gen volume duration_ms e
      = (0, PwmAudio.with_pwm_r (pwm_written (PwmAudio.pwm_audio_r e) writes)
              (PwmAudio.with_pwm_l
                 (pwm_written (PwmAudio.pwm_audio_l e) writes) e)))
  /\ (PwmAudio.audio_mem_slab e <> 0%nat ->
      PwmAudio.is_muted e = true ->
      PwmAudio.pwm_audio_test_sine_wave gen volume duration_ms e = (0, e)).
Proof.
  intros Hi Hv. unfold PwmAudio.volume_ok in Hv.
  unfold PwmAudio.pwm_audio_test_sine_wave. rewrite Hi. cbn [negb].
  rewrite !pwm_audio_set_volume_with_min.
  cbn [PwmAudio.audio_mem_slab PwmAudio.with_volume].
  repeat split.
  - intros Hs. rewrite Hs. reflexivity.
  - intros Hs Hm Hl Hr. cbv zeta.
    destruct (PwmAudio.audio_mem_slab e) as [|free] eqn:Eslab; [contradiction|].
    unfold PwmAudio.pwm_audio_play_mono.
    cbn [PwmAudio.is_initialized PwmAudio.is_muted PwmAudio.with_slab
         PwmAudio.with_volume].
    rewrite Hi, Hm. cbn [negb].
    rewrite play_mono_loop_healthy by (cbn; assumption).
    rewrite pwm_audio_set_volume_with_min.
    rewrite (Z.min_l (PwmAudio.current_volume e)) by lia.
    cbn [PwmAudio.current_volume PwmAudio.pwm_audio_l PwmAudio.pwm_audio_r
         PwmAudio.with_slab PwmAudio.with_pwm_l PwmAudio.with_pwm_r
         PwmAudio.audio_mem_slab PwmAudio.with_volume
         PwmAudio.is_muted PwmAudio.is_initialized PwmAudio.ramp_step
         PwmAudio.target_volume PwmAudio.ramping_to_mute
         PwmAudio.mute_ramp_timer PwmAudio.pam8403_shutdown_pin
         PwmAudio.pam8403_gain0_pin PwmAudio.pam8403_gain1_pin].
    rewrite <- Eslab. reflexivity.
  - intros Hs Hm.
    destruct (PwmAudio.audio_mem_slab e) as [|free] eqn:Eslab; [contradiction|].
    unfold PwmAudio.pwm_audio_play_mono.
    cbn [PwmAudio.is_initialized PwmAudio.is_muted PwmAudio.with_slab
         PwmAudio.with_volume].
    rewrite Hi, Hm. cbn [negb].
    rewrite pwm_audio_set_volume_with_min.
    rewrite (Z.min_l (PwmAudio.current_volume e)) by lia.
    cbn [PwmAudio.current_volume PwmAudio.pwm_audio_l PwmAudio.pwm_audio_r
         PwmAudio.with_slab PwmAudio.with_pwm_l PwmAudio.with_pwm_r
         PwmAudio.audio_mem_slab PwmAudio.with_volume
         PwmAudio.is_muted PwmAudio.is_initialized PwmAudio.ramp_step
         PwmAudio.target_volume PwmAudio.ramping_to_mute
         PwmAudio.mute_ramp_timer PwmAudio.pam8403_shutdown_pin
         PwmAudio.pam8403_gain0_pin PwmAudio.pam8403_gain1_pin].
    rewrite <- Eslab. destruct e. reflexivity.
Qed.

Lemma sine_test_restores_engine_witness :
  PwmAudio.pwm_audio_test_sine_wave (fun i => 100 * i) 150 1 engine_muted
  = (0, engine_muted)
  /\ PwmAudio.pwm_audio_test_sine_wave (fun i => 100 * i) 150 1
       (PwmAudio.with_slab 0 engine_playing)
     = (-12, PwmAudio.with_volume 150 (PwmAudio.with_slab 0 engine_playing)).
Proof.
  assert (Hv : forall e, PwmAudio.current_volume e = 180 -> PwmAudio.volume_ok e).
  { intros e H. unfold PwmAudio.volume_ok, PwmAudio.PWM_AUDIO_MAX_VOLUME.
    rewrite H. lia. }
  split.
  - destruct (sine_test_restores_engine (fun i => 100 * i) 150 1 engine_muted
                eq_refl (Hv engine_muted eq_refl)) as (_ & _ & H).
    apply H; [discriminate | reflexivity].
  - destruct (sine_test_restores_engine (fun i => 100 * i) 150 1
                (PwmAudio.with_slab 0 engine_playing)
                eq_refl (Hv (PwmAudio.with_slab 0 engine_playing) eq_refl))
      as (H & _ & _).
    exact (H eq_refl).
Defined.

Section Bits.

Lemma land_shiftl_disjoint a b n :
  0 <= n -> 0 <= a < 2 ^ n -> Z.land a (Z.shiftl b n) = 0.
Proof.
  intros Hn Ha. apply Z.bits_inj'. intros m Hm.
  rewrite Z.land_spec, Z.bits_0.
  destruct (Z.lt_ge_cases m n) as [Hlt|Hge].
  - rewrite Z.shiftl_spec_low by lia. apply andb_false_r.
  - rewrite <- (Z.mod_small a (2 ^ n)) by lia.
    rewrite Z.mod_pow2_bits_high by lia. reflexivity.
Qed.

Lemma lor_shiftl_add a b n :
  0 <= n -> 0 <= a < 2 ^ n -> Z.lor a (Z.shiftl b n) = a + b * 2 ^ n.
Proof.
  intros Hn Ha. pose proof (land_shiftl_disjoint a b n Hn Ha) as Hd.
  rewrite <- Z.lxor_lor by exact Hd.
  rewrite <- Z.add_nocarry_lxor by exact Hd.
  rewrite Z.shiftl_mul_pow2 by lia. reflexivity.
Qed.

Lemma little_endian_value b0 b1 b2 b3 :
  is_uint8 b0 -> is_uint8 b1 -> is_uint8 b2 -> is_uint8 b3 ->
  Z.lor (Z.lor b0 (Z.shiftl b1 8)) (Z.lor (Z.shiftl b2 16) (Z.shiftl b3 24))
  = b0 + 256 * b1 + 65536 * b2 + 16777216 * b3.
Proof.
  unfold is_uint8. intros H0 H1 H2 H3.
  rewrite (lor_shiftl_add b0 b1 8) by lia.
  replace (Z.shiftl b3 24) with (Z.shiftl (Z.shiftl b3 8) 16)
    by (rewrite Z.shiftl_shiftl by lia; reflexivity).
  rewrite <- Z.shiftl_lor.
  rewrite (lor_shiftl_add b2 b3 8) by lia.
  rewrite lor_shiftl_add by lia. lia.
Qed.

End Bits.

Section SpeakExtra.
Import Speaker.

Lemma copy_samples_overflow buf count : forall i s p block,
  ptr2 s = Some p -> rx_buffer s = Some block ->
  (1 <= count)%nat ->
  (2 * (i + count) <= length buf)%nat ->
  (length block < p + 2 * count)%nat ->
  copy_samples count i buf s = None.
Proof.
  induction count as [|count IH]; intros i s p block Hp Hb Hc Hbuf Hover;
    [lia|].
  cbn [copy_samples].
  destruct (read_int16_ok buf i) as [v Hv]; [lia|]. rewrite Hv.
  cbn [mbind option_bind].
  destruct (decide (p < length block)%nat) as [Hin|Hout].
  2:{ unfold store_ptr2 at 2. rewrite Hp, Hb. cbn [mbind option_bind].
      rewrite decide_False by exact Hout. reflexivity. }
  rewrite (store_ptr2_ok v s p block) by assumption.
  cbn [mbind option_bind].
  destruct (decide (S p < length block)%nat) as [Hin'|Hout'].
  2:{ unfold store_ptr2. cbn [ptr2 rx_buffer with_ptr2 with_rx_buffer
                              mbind option_bind].
      rewrite decide_False by (rewrite length_insert; exact Hout').
      reflexivity. }
  rewrite (store_ptr2_ok v _ (S p) (<[p:=v]> block))
    by (try reflexivity; rewrite length_insert; lia).
  cbn [mbind option_bind].
  apply (IH (S i) _ (S (S p)) (<[S p:=v]> (<[p:=v]> block)));
    try reflexivity; rewrite ?length_insert; lia.
Qed.

End SpeakExtra.

(** X15.  A four-byte chunk is always a control chunk: [speak] returns 4,
    sets [current_length] to the low 16 bits of the little-endian length,
    b0 + 256 * b1, whatever the two high bytes are, and points [ptr2] and
    [clear_ptr] at the start of the receive block.  Nothing else
    changes. *)
Theorem speak_control_chunk_truncates (b0 b1 b2 b3 : Z) (s : Speaker.speaker) :
  is_uint8 b0 -> is_uint8 b1 -> is_uint8 b2 -> is_uint8 b3 ->
  Speaker.speak 4 [b0; b1; b2; b3] s
  = Some (4, Speaker.with_clear_ptr (Speaker.block_base (Speaker.rx_buffer s))
               (Speaker.with_ptr2 (Speaker.block_base (Speaker.rx_buffer s))
                  (Speaker.with_current_length (b0 + 256 * b1) s))).
Proof.
  intros H0 H1 H2 H3. unfold Speaker.speak. cbn [Z.eqb Pos.eqb].
  unfold Speaker.read_uint32. cbn [lookup list_lookup mbind option_bind].
  rewrite little_endian_value by assumption.
  assert (Hlow : to_uint16 (b0 + 256 * b1 + 65536 * b2 + 16777216 * b3)
                 = b0 + 256 * b1).
  { unfold to_uint16, is_uint8 in *.
    replace (b0 + 256 * b1 + 65536 * b2 + 16777216 * b3)
      with (b0 + 256 * b1 + (b2 + 256 * b3) * 65536) by lia.
    rewrite Z.mod_add by lia. apply Z.mod_small. lia. }
  rewrite Hlow. reflexivity.
Qed.

Lemma speak_control_chunk_truncates_witness :
  Speaker.current_length
    <$> (snd <$> Speaker.speak 4 [144; 1; 1; 0] speaker_ready)
  = Some 400.
Proof.
  rewrite (speak_control_chunk_truncates 144 1 1 0 speaker_ready);
    unfold is_uint8; try lia.
  reflexivity.
Defined.

Section FinalChunk.
Import Speaker.

Lemma doubled_samples_length buf count : forall first,
  length (doubled_samples buf first count) = (2 * count)%nat.
Proof.
  induction count as [|count IH]; intros first; [reflexivity|].
  unfold doubled_samples in *. cbn [seq flat_map]. rewrite length_app, IH.
  cbn [length]. lia.
Qed.

(** The copy loop, slot by slot. *)
Lemma copy_samples_writes buf count : forall i s pre post,
  ptr2 s = Some (length pre) -> rx_buffer s = Some (pre ++ post) ->
  (2 * count <= length post)%nat ->
  (2 * (i + count) <= length buf)%nat ->
  copy_samples count i buf s
  = Some (with_ptr2 (Some (length pre + 2 * count)%nat)
            (with_rx_buffer
               (Some (pre ++ doubled_samples buf i count
                      ++ drop (2 * count) post)) s)).
Proof.
  induction count as [|count IH]; intros i s pre post Hp Hb Hroom Hbuf.
  - cbn [copy_samples].
    change (pre ++ doubled_samples buf i 0 ++ drop (2 * 0) post)
      with (pre ++ post).
    rewrite Nat.add_0_r, <- Hp, <- Hb. destruct s; reflexivity.
  - cbn [copy_samples].
    destruct (read_int16_ok buf i) as [v Hv]; [lia|].
    rewrite Hv. cbn [mbind option_bind].
    destruct post as [|x [|y post]]; cbn [length] in Hroom; try lia.
    rewrite (store_ptr2_ok v s (length pre) (pre ++ x :: y :: post));
      [|exact Hp|exact Hb|rewrite length_app; cbn [length]; lia].
    cbn [mbind option_bind].
    rewrite (store_ptr2_ok v _ (S (length pre))
               (<[length pre:=v]> (pre ++ x :: y :: post)));
      [|reflexivity|reflexivity|
       rewrite length_insert, length_app; cbn [length]; lia].
    cbn [mbind option_bind].
    assert (E : <[S (length pre):=v]>
                  (<[length pre:=v]> (pre ++ x :: y :: post))
                = (pre ++ [v; v]) ++ post).
    { replace (length pre) with (length pre + 0)%nat at 2 by lia.
      rewrite insert_app_r. cbn [list_insert].
      replace (S (length pre)) with (length pre + 1)%nat by lia.
      rewrite insert_app_r. cbn [list_insert].
      rewrite <- app_assoc. reflexivity. }
    rewrite E.
    rewrite (IH (S i) _ (pre ++ [v; v]) post).
    + replace (2 * S count)%nat with (S (S (2 * count))) by lia.
      unfold doubled_samples. cbn [seq flat_map drop app].
      assert (Hs : sample_at buf i = v)
        by (unfold sample_at; rewrite Hv; reflexivity).
      rewrite Hs, <- !app_assoc. cbn [app].
      rewrite length_app. cbn [length].
      replace (length pre + 2 + 2 * count)%nat
        with (length pre + S (S (2 * count)))%nat by lia.
      reflexivity.
    + cbn [ptr2 with_ptr2 with_rx_buffer]. rewrite length_app. cbn [length].
      f_equal. lia.
    + reflexivity.
    + lia.
    + lia.
Qed.

Lemma block_with_samples_length block p buf count :
  (p + 2 * count <= length block)%nat ->
  length (block_with_samples block p buf count) = length block.
Proof.
  intros H. unfold block_with_samples.
  rewrite !length_app, length_take, doubled_samples_length, length_drop. lia.
Qed.

End FinalChunk.

(** X16.  A data chunk that arrives while fewer than 400 bytes are
    outstanding is the final one.  When its samples fit in the block,
    [speak] returns len, stores each of the len / 2 samples twice from
    [ptr2] on, plays the whole block of 5000 slots as it stands after that
    copy, once, through [pwm_audio_play_mono], and only then zeroes the
    block.  [offset] is reset, [ptr2] has advanced by two slots per sample,
    [current_length] is the 16-bit wrap of current_length - len, and
    [clear_ptr], the chime buffer and the slab are untouched.  On a muted
    engine the audio state is unchanged; on an initialised, unmuted engine
    with healthy channels both channels receive the codes of the 5000 slots
    of the filled block, in order. *)
Theorem speak_final_chunk_plays_and_clears
    (len : Z) (buf block : list Z) (p : nat) (s : Speaker.speaker) :
  len <> 4 -> 0 <= len <= 65535 ->
  0 <= Speaker.current_length s < Speaker.PACKET_SIZE ->
  Speaker.ptr2 s = Some p ->
  Speaker.clear_ptr s = Some 0%nat ->
  Speaker.rx_buffer s = Some block ->
  length block = Speaker.BLOCK_SAMPLES ->
  (p + 2 * Z.to_nat (Z.quot len 2) <= Speaker.BLOCK_SAMPLES)%nat ->
  (2 * Z.to_nat (Z.quot len 2) <= length buf)%nat ->
  let played := block_with_samples block p buf (Z.to_nat (Z.quot len 2)) in
  exists s',
    Speaker.speak len buf s = Some (len, s')
    /\ length played = Speaker.BLOCK_SAMPLES
    /\ Speaker.audio s'
       = snd (PwmAudio.pwm_audio_play_mono played (Speaker.audio s))
    /\ Speaker.play_calls s' = 5000 :: Speaker.play_calls s
    /\ Speaker.rx_buffer s' = Some Speaker.zero_block
    /\ Speaker.offset s' = 0
    /\ Speaker.current_length s'
       = to_uint16 (Speaker.current_length s - len)
    /\ Speaker.ptr2 s' = Some (p + 2 * Z.to_nat (Z.quot len 2))%nat
    /\ Speaker.clear_ptr s' = Speaker.clear_ptr s
    /\ Speaker.buzz_buffer s' = Speaker.buzz_buffer s
    /\ Speaker.mem_slab s' = Speaker.mem_slab s
    /\ (PwmAudio.is_muted (Speaker.audio s) = true ->
        Speaker.audio s' = Speaker.audio s)
    /\ (PwmAudio.is_initialized (Speaker.audio s) = true ->
        PwmAudio.is_muted (Speaker.audio s) = false ->
        pwm_fault (PwmAudio.pwm_audio_l (Speaker.audio s)) = 0 ->
        pwm_fault (PwmAudio.pwm_audio_r (Speaker.audio s)) = 0 ->
        let writes :=
          mono_writes (PwmAudio.current_volume (Speaker.audio s)) played in
        PwmAudio.pwm_audio_l (Speaker.audio s')
        = pwm_written (PwmAudio.pwm_audio_l (Speaker.audio s)) writes
        /\ PwmAudio.pwm_audio_r (Speaker.audio s')
           = pwm_written (PwmAudio.pwm_audio_r (Speaker.audio s)) writes).
Proof.
  intros Hlen Hrange Hcur Hp Hc Hb Hblock Hroom Hbuf played.
  assert (Hplayed : length played = Speaker.BLOCK_SAMPLES).
  { unfold played. rewrite block_with_samples_length; [exact Hblock|].
    rewrite Hblock. exact Hroom. }
  unfold Speaker.speak.
  destruct (Z.eqb_spec len 4) as [|_]; [contradiction|].
  destruct (Z.gtb_spec (Speaker.current_length s) Speaker.PACKET_SIZE);
    [lia|].
  destruct (Z.ltb_spec (Speaker.current_length s) Speaker.PACKET_SIZE);
    [|lia].
  rewrite (copy_samples_writes buf (Z.to_nat (Z.quot len 2)) 0
             (Speaker.with_current_length
                (to_uint16 (Speaker.current_length s - len)) s)
             (take p block) (drop p block)).
  2:{ cbn [Speaker.ptr2 Speaker.with_current_length]. rewrite Hp.
      rewrite length_take. f_equal. lia. }
  2:{ cbn [Speaker.rx_buffer Speaker.with_current_length].
      rewrite take_drop. exact Hb. }
  2:{ rewrite length_drop. lia. }
  2:{ lia. }
  rewrite drop_drop.
  replace (length (take p block)) with p by (rewrite length_take; lia).
  fold (block_with_samples block p buf (Z.to_nat (Z.quot len 2))).
  fold played.
  cbn [mbind option_bind].
  unfold Speaker.play_rx_buffer.
  cbn [Speaker.rx_buffer Speaker.with_play_calls Speaker.with_offset
       Speaker.with_ptr2 Speaker.with_rx_buffer Speaker.with_current_length
       Speaker.audio Speaker.play_calls].
  change (Z.to_nat (Z.quot Speaker.MAX_BLOCK_SIZE 2)) with Speaker.BLOCK_SAMPLES.
  rewrite firstn_all2 by (rewrite Hplayed; lia).
  destruct (PwmAudio.pwm_audio_play_mono played (Speaker.audio s))
    as [res a] eqn:Eplay.
  cbn [mbind option_bind].
  unfold Speaker.clear_block.
  cbn [Speaker.clear_ptr Speaker.rx_buffer Speaker.with_audio
       Speaker.with_play_calls Speaker.with_offset Speaker.with_ptr2
       Speaker.with_rx_buffer Speaker.with_current_length].
  rewrite Hc. cbn [mbind option_bind].
  rewrite decide_True by (split; [reflexivity | exact Hplayed]).
  cbn [mbind option_bind].
  eexists. split; [reflexivity|].
  split; [exact Hplayed|].
  cbn [Speaker.audio Speaker.play_calls Speaker.rx_buffer Speaker.offset
       Speaker.current_length Speaker.ptr2 Speaker.clear_ptr
       Speaker.buzz_buffer Speaker.mem_slab Speaker.with_rx_buffer
       Speaker.with_audio Speaker.with_play_calls Speaker.with_offset
       Speaker.with_ptr2 Speaker.with_current_length snd].
  split; [reflexivity|]. split; [reflexivity|]. split; [reflexivity|].
  split; [reflexivity|]. split; [reflexivity|]. split; [reflexivity|].
  split; [exact Hc|]. split; [reflexivity|]. split; [reflexivity|].
  split.
  - intros Hm. unfold PwmAudio.pwm_audio_play_mono in Eplay.
    rewrite Hm in Eplay.
    destruct (negb (PwmAudio.is_initialized (Speaker.audio s)));
      injection Eplay as _ <-; reflexivity.
  - intros Hi Hm Hl Hr. cbv zeta.
    unfold PwmAudio.pwm_audio_play_mono in Eplay.
    rewrite Hi, Hm in Eplay. cbn [negb] in Eplay.
    rewrite play_mono_loop_healthy in Eplay by assumption.
    injection Eplay as _ <-. split; reflexivity.
Qed.

(** X17.  [speak] does not check the room left in the receive block: a
    data chunk with at least one sample whose doubled samples do not fit
    between [ptr2] and the end of the block writes past the block. *)
Theorem speak_past_the_block_is_undefined
    (len : Z) (buf block : list Z) (p : nat) (s : Speaker.speaker) :
  len <> 4 ->
  Speaker.current_length s <> Speaker.PACKET_SIZE ->
  Speaker.ptr2 s = Some p ->
  Speaker.rx_buffer s = Some block ->
  (1 <= Z.to_nat (Z.quot len 2))%nat ->
  (2 * Z.to_nat (Z.quot len 2) <= length buf)%nat ->
  (length block < p + 2 * Z.to_nat (Z.quot len 2))%nat ->
  Speaker.speak len buf s = None.
Proof.
  intros Hlen Hcur Hp Hb Hcount Hbuf Hover.
  unfold Speaker.speak.
  destruct (Z.eqb_spec len 4) as [|_]; [contradiction|].
  destruct (Z.gtb_spec (Speaker.current_length s) Speaker.PACKET_SIZE).
  - rewrite (copy_samples_overflow buf _ 0 _ p block); try assumption;
      reflexivity.
  - destruct (Z.ltb_spec (Speaker.current_length s) Speaker.PACKET_SIZE);
      [|lia].
    rewrite (copy_samples_overflow buf _ 0 _ p block); try assumption;
      reflexivity.
Qed.

Lemma speak_final_chunk_plays_and_clears_witness :
  exists s',
    Speaker.speak 399 packet_0101_short
      (Speaker.with_current_length 399
         (Speaker.with_clear_ptr (Some 0%nat)
            (Speaker.with_ptr2 (Some 400%nat) speaker_ready)))
    = Some (399, s')
    /\ Speaker.play_calls s' = [5000]
    /\ Speaker.rx_buffer s' = Some Speaker.zero_block
    /\ Speaker.audio s'
       = snd (PwmAudio.pwm_audio_play_mono
                (replicate 400 0 ++ replicate 398 257 ++ replicate 4202 0)
                (Speaker.audio
                   (Speaker.with_current_length 399
                      (Speaker.with_clear_ptr (Some 0%nat)
                         (Speaker.with_ptr2 (Some 400%nat) speaker_ready))))).
Proof.
  assert (Hroom : (400 + 2 * Z.to_nat (Z.quot 399 2) <= Speaker.BLOCK_SAMPLES)%nat).
  { change Speaker.BLOCK_SAMPLES with (Z.to_nat 5000).
    change (Z.quot 399 2) with 199. lia. }
  assert (Hbuf : (2 * Z.to_nat (Z.quot 399 2) <= length packet_0101_short)%nat).
  { change (Z.quot 399 2) with 199. unfold packet_0101_short.
    rewrite length_replicate. lia. }
  assert (Hcur : 0 <= 399 < Speaker.PACKET_SIZE)
    by (unfold Speaker.PACKET_SIZE; lia).
  assert (Hzero : length Speaker.zero_block = Speaker.BLOCK_SAMPLES)
    by apply length_replicate.
  assert (Hplayed : replicate 400 0 ++ replicate 398 257 ++ replicate 4202 0
                    = block_with_samples Speaker.zero_block 400
                        packet_0101_short (Z.to_nat (Z.quot 399 2)))
    by (vm_compute; reflexivity).
  destruct (speak_final_chunk_plays_and_clears 399 packet_0101_short
              Speaker.zero_block 400
              (Speaker.with_current_length 399
                 (Speaker.with_clear_ptr (Some 0%nat)
                    (Speaker.with_ptr2 (Some 400%nat) speaker_ready)))
              ltac:(discriminate) ltac:(lia) Hcur eq_refl eq_refl eq_refl
              Hzero Hroom Hbuf)
    as (s' & Hrun & _ & Haudio & Hcalls & Hblock & _).
  exists s'. split; [exact Hrun|]. split; [exact Hcalls|].
  split; [exact Hblock|].
  rewrite Hplayed. exact Haudio.
Defined.

Lemma speak_past_the_block_is_undefined_witness :
  Speaker.speak 400 packet_0101
    (Speaker.with_current_length 800
       (Speaker.with_ptr2 (Some 4800%nat) speaker_ready)) = None.
Proof.
  assert (Hcount : (1 <= Z.to_nat (Z.quot 400 2))%nat)
    by (change (Z.quot 400 2) with 200; lia).
  assert (Hbuf : (2 * Z.to_nat (Z.quot 400 2) <= length packet_0101)%nat).
  { change (Z.quot 400 2) with 200. unfold packet_0101.
    rewrite length_replicate. lia. }
  assert (Hover : (length Speaker.zero_block
                   < 4800 + 2 * Z.to_nat (Z.quot 400 2))%nat).
  { change (Z.quot 400 2) with 200. unfold Speaker.zero_block.
    rewrite length_replicate.
    change Speaker.BLOCK_SAMPLES with (Z.to_nat 5000). lia. }
  assert (Hcur : 800 <> Speaker.PACKET_SIZE)
    by (unfold Speaker.PACKET_SIZE; lia).
  exact (speak_past_the_block_is_undefined 400 packet_0101 Speaker.zero_block
           4800
           (Speaker.with_current_length 800
              (Speaker.with_ptr2 (Some 4800%nat) speaker_ready))
           ltac:(lia) Hcur eq_refl eq_refl Hcount Hbuf Hover).
Defined.

Lemma chime_block_length gen n : forall first,
  length (chime_block gen first n) = (2 * n)%nat.
Proof.
  induction n as [|n IH]; intros first; [reflexivity|].
  unfold chime_block in *. cbn [seq flat_map]. rewrite length_app, IH.
  cbn [length]. lia.
Qed.

Lemma chime_block_split gen n m first :
  chime_block gen first (n + m)
  = chime_block gen first n ++ chime_block gen (first + n) m.
Proof.
  unfold chime_block. rewrite seq_app, flat_map_app. reflexivity.
Qed.

Lemma store_buzz_ok k v block s :
  Speaker.buzz_buffer s = Some block -> (k < length block)%nat ->
  Speaker.store_buzz k v s
  = Some (Speaker.with_buzz_buffer (Some (<[k:=v]> block)) s).
Proof.
  intros Hb Hk. unfold Speaker.store_buzz. rewrite Hb. cbn.
  destruct (decide (k < length block)%nat); [reflexivity|contradiction].
Qed.

Lemma chime_loop_ok gen count : forall i pre post s,
  Speaker.buzz_buffer s = Some (pre ++ post) ->
  length pre = (2 * i)%nat ->
  (2 * count <= length post)%nat ->
  Speaker.chime_loop count i gen s
  = Some (Speaker.with_buzz_buffer
            (Some (pre ++ chime_block gen i count ++ drop (2 * count) post)) s).
Proof.
  induction count as [|count IH]; intros i pre post s Hb Hpre Hpost.
  - cbn [Speaker.chime_loop].
    change (pre ++ chime_block gen i 0 ++ drop (2 * 0) post) with (pre ++ post).
    rewrite <- Hb. destruct s; reflexivity.
  - cbn [Speaker.chime_loop].
    destruct post as [|x [|y post]]; cbn [length] in Hpost; try lia.
    change (Z.to_nat Speaker.NUM_CHANNELS) with 2%nat.
    rewrite (store_buzz_ok _ _ (pre ++ x :: y :: post)); [|exact Hb|].
    2:{ rewrite length_app. cbn [length]. lia. }
    cbn [mbind option_bind].
    rewrite (store_buzz_ok _ _ (<[(i*2)%nat := gen (Z.of_nat i)]> (pre ++ x :: y :: post)));
      [|reflexivity|].
    2:{ rewrite length_insert, length_app. cbn [length]. lia. }
    cbn [mbind option_bind].
    assert (E : <[(i * 2 + 1)%nat := gen (Z.of_nat i)]>
                  (<[(i * 2)%nat := gen (Z.of_nat i)]> (pre ++ x :: y :: post))
                = (pre ++ [gen (Z.of_nat i); gen (Z.of_nat i)]) ++ post).
    { replace (i * 2)%nat with (length pre + 0)%nat by lia.
      rewrite insert_app_r. cbn [list_insert].
      replace (length pre + 0 + 1)%nat with (length pre + 1)%nat by lia.
      rewrite insert_app_r. cbn [list_insert].
      rewrite <- app_assoc. reflexivity. }
    rewrite E.
    rewrite (IH (S i) (pre ++ [gen (Z.of_nat i); gen (Z.of_nat i)]) post).
    + replace (2 * S count)%nat with (S (S (2 * count))) by lia.
      unfold chime_block. cbn [seq flat_map drop app].
      rewrite <- !app_assoc. reflexivity.
    + reflexivity.
    + rewrite length_app. cbn [length]. lia.
    + lia.
Qed.

Lemma chime_loop_overflow gen count : forall i block s,
  Speaker.buzz_buffer s = Some block ->
  (length block < 2 * (i + S count))%nat ->
  Speaker.chime_loop (S count) i gen s = None.
Proof.
  induction count as [|count IH]; intros i block s Hb Hlen.
  - cbn [Speaker.chime_loop].
    change (Z.to_nat Speaker.NUM_CHANNELS) with 2%nat.
    destruct (decide (i * 2 < length block)%nat) as [Hk|Hk].
    + rewrite (store_buzz_ok _ _ block) by assumption. cbn [mbind option_bind].
      unfold Speaker.store_buzz. cbn [Speaker.buzz_buffer Speaker.with_buzz_buffer].
      cbn [mbind option_bind]. rewrite length_insert.
      destruct (decide (i * 2 + 1 < length block)%nat); [lia|reflexivity].
    + unfold Speaker.store_buzz. rewrite Hb. cbn [mbind option_bind].
      destruct (decide (i * 2 < length block)%nat); [contradiction|reflexivity].
  - change (Speaker.chime_loop (S (S count)) i gen s)
      with (s1 ← Speaker.store_buzz (i * Z.to_nat Speaker.NUM_CHANNELS)
                   (gen (Z.of_nat i)) s;
            s2 ← Speaker.store_buzz (i * Z.to_nat Speaker.NUM_CHANNELS + 1)
                   (gen (Z.of_nat i)) s1;
            Speaker.chime_loop (S count) (S i) gen s2).
    change (Z.to_nat Speaker.NUM_CHANNELS) with 2%nat.
    destruct (Speaker.store_buzz (i * 2) (gen (Z.of_nat i)) s) as [s1|] eqn:E1;
      [|reflexivity].
    cbn [mbind option_bind].
    destruct (Speaker.store_buzz (i * 2 + 1) (gen (Z.of_nat i)) s1) as [s2|] eqn:E2;
      [|reflexivity].
    cbn [mbind option_bind].
    unfold Speaker.store_buzz in E1. rewrite Hb in E1. cbn [mbind option_bind] in E1.
    destruct (decide (i * 2 < length block)%nat); [|discriminate].
    injection E1 as <-.
    unfold Speaker.store_buzz in E2.
    cbn [Speaker.buzz_buffer Speaker.with_buzz_buffer mbind option_bind] in E2.
    destruct (decide _) in E2; [|discriminate].
    injection E2 as <-.
    apply (IH (S i) (<[(i * 2 + 1)%nat:=gen (Z.of_nat i)]>
                       (<[(i * 2)%nat:=gen (Z.of_nat i)]> block))).
    + reflexivity.
    + rewrite !length_insert. lia.
Qed.

Lemma take_chime_block gen n m :
  take (2 * n) (chime_block gen 0 (n + m)) = chime_block gen 0 n.
Proof.
  rewrite chime_block_split. apply take_app_length'.
  symmetry. apply chime_block_length.
Qed.

(** X18.  [generate_gentle_chime] writes each of its num_samples samples
    twice, left slot then right slot, into the first 2 * num_samples slots
    of the chime block and leaves the rest; when the block has fewer than
    2 * num_samples slots it writes past the end. *)
Theorem generate_gentle_chime_interleaves
    (gen : Z -> Z) (num_samples : Z) (block : list Z) (s : Speaker.speaker) :
  Speaker.buzz_buffer s = Some block ->
  (0 <= 2 * num_samples <= Z.of_nat (length block)
   -> Speaker.generate_gentle_chime gen num_samples s
      = Some (Speaker.with_buzz_buffer
                (Some (chime_block gen 0 (Z.to_nat num_samples)
                       ++ drop (2 * Z.to_nat num_samples) block)) s))
  /\ (Z.of_nat (length block) < 2 * num_samples
      -> Speaker.generate_gentle_chime gen num_samples s = None).
Proof.
  intros Hb. unfold Speaker.generate_gentle_chime. split; intros Hn.
  - apply (chime_loop_ok gen (Z.to_nat num_samples) 0 [] block s).
    + exact Hb.
    + reflexivity.
    + lia.
  - destruct (Z.to_nat num_samples) as [|count] eqn:E; [lia|].
    apply (chime_loop_overflow gen count 0 block s Hb). lia.
Qed.

Lemma generate_gentle_chime_interleaves_witness :
  Speaker.generate_gentle_chime (fun i => i + 1) 2 speaker_ready
  = Some (Speaker.with_buzz_buffer
            (Some ([1; 1; 2; 2] ++ drop 4 Speaker.zero_block)) speaker_ready)
  /\ Speaker.generate_gentle_chime (fun i => i + 1) 2501 speaker_ready = None.
Proof.
  assert (Hlen : length Speaker.zero_block = Z.to_nat 5000)
    by apply length_replicate.
  destruct (generate_gentle_chime_interleaves (fun i => i + 1) 2
              Speaker.zero_block speaker_ready eq_refl) as [Hfit _].
  destruct (generate_gentle_chime_interleaves (fun i => i + 1) 2501
              Speaker.zero_block speaker_ready eq_refl) as [_ Hover].
  split.
  - apply Hfit. rewrite Hlen. lia.
  - apply Hover. rewrite Hlen. lia.
Defined.

(** X19.  [play_boot_sound] generates 2500 chime samples into the 5000
    slots of the chime block, interleaved, and then hands the block to the
    mono player with a count of 2500: on an initialised, unmuted engine
    with healthy channels it returns 0 and the channels receive the codes
    of the chime samples 0 to 1249, each twice.  The samples 1250 to 2499
    are generated and never played. *)
Theorem boot_sound_plays_half_the_chime
    (gen : Z -> Z) (block : list Z) (s : Speaker.speaker) :
  Speaker.buzz_buffer s = Some block ->
  length block = Speaker.BLOCK_SAMPLES ->
  PwmAudio.is_initialized (Speaker.audio s) = true ->
  PwmAudio.is_muted (Speaker.audio s) = false ->
  pwm_fault (PwmAudio.pwm_audio_l (Speaker.audio s)) = 0 ->
  pwm_fault (PwmAudio.pwm_audio_r (Speaker.audio s)) = 0 ->
  exists s',
    Speaker.play_boot_sound gen s = Some (0, s')
    /\ Speaker.buzz_buffer s' = Some (chime_block gen 0 2500)
    /\ PwmAudio.pwm_audio_l (Speaker.audio s')
       = pwm_written (PwmAudio.pwm_audio_l (Speaker.audio s))
           (mono_writes (PwmAudio.current_volume (Speaker.audio s))
              (chime_block gen 0 1250))
    /\ PwmAudio.pwm_audio_r (Speaker.audio s')
       = pwm_written (PwmAudio.pwm_audio_r (Speaker.audio s))
           (mono_writes (PwmAudio.current_volume (Speaker.audio s))
              (chime_block gen 0 1250)).
Proof.
  intros Hb Hlen Hi Hm Hl Hr.
  unfold Speaker.play_boot_sound.
  change (Z.quot Speaker.MAX_BLOCK_SIZE (Speaker.NUM_CHANNELS * 2)) with 2500.
  unfold Speaker.generate_gentle_chime.
  rewrite (chime_loop_ok gen (Z.to_nat 2500) 0 [] block s Hb eq_refl).
  2:{ rewrite Hlen. change Speaker.BLOCK_SAMPLES with (Z.to_nat 5000). lia. }
  cbn [mbind option_bind app Speaker.buzz_buffer Speaker.with_buzz_buffer
       Speaker.audio].
  rewrite drop_ge.
  2:{ rewrite Hlen. change Speaker.BLOCK_SAMPLES with (Z.to_nat 5000). lia. }
  rewrite app_nil_r.
  replace (take (Z.to_nat 2500) (chime_block gen 0 (Z.to_nat 2500)))
    with (chime_block gen 0 1250).
  2:{ symmetry. replace (Z.to_nat 2500) with (1250 + 1250)%nat at 2 by lia.
      replace (Z.to_nat 2500) with (2 * 1250)%nat by lia.
      apply take_chime_block. }
  unfold PwmAudio.pwm_audio_play_mono. rewrite Hi, Hm. cbn [negb].
  rewrite play_mono_loop_healthy by assumption.
  cbn [negb Z.eqb].
  eexists. split; [reflexivity|].
  cbn [Speaker.buzz_buffer Speaker.with_audio Speaker.audio
       PwmAudio.pwm_audio_l PwmAudio.pwm_audio_r PwmAudio.with_pwm_l
       PwmAudio.with_pwm_r].
  repeat split; reflexivity.
Qed.

Lemma boot_sound_plays_half_the_chime_witness :
  exists s',
    Speaker.play_boot_sound (fun i => i)
      (Speaker.with_audio engine_playing speaker_ready) = Some (0, s')
    /\ Speaker.buzz_buffer s' = Some (chime_block (fun i => i) 0 2500)
    /\ PwmAudio.pwm_audio_l (Speaker.audio s')
       = pwm_written (PwmAudio.pwm_audio_l engine_playing)
           (mono_writes 180 (chime_block (fun i => i) 0 1250)).
Proof.
  destruct (boot_sound_plays_half_the_chime (fun i => i) Speaker.zero_block
              (Speaker.with_audio engine_playing speaker_ready)
              eq_refl (length_replicate _ _) eq_refl eq_refl eq_refl eq_refl)
    as (s' & Hrun & Hbuzz & Hl & _).
  exists s'. split; [exact Hrun|]. split; [exact Hbuzz | exact Hl].
Defined.

(** X20.  [speaker_init] on a board whose PWM channels and shutdown pin are
    ready and answer, with two free blocks: it returns 0, takes both
    blocks, leaves the receive and the chime buffer zeroed and the engine
    initialised, flagged as not muted, with the unmute ramp running
    (timer armed with the ramp period) and the volume not yet changed. *)
Theorem speaker_init_healthy_board (s : Speaker.speaker) :
  PwmAudio.is_initialized (Speaker.audio s) = false ->
  pwm_ready (PwmAudio.pwm_audio_l (Speaker.audio s)) = true ->
  pwm_ready (PwmAudio.pwm_audio_r (Speaker.audio s)) = true ->
  pwm_fault (PwmAudio.pwm_audio_l (Speaker.audio s)) = 0 ->
  pwm_fault (PwmAudio.pwm_audio_r (Speaker.audio s)) = 0 ->
  pin_ready (PwmAudio.pam8403_shutdown_pin (Speaker.audio s)) = true ->
  pin_fault (PwmAudio.pam8403_shutdown_pin (Speaker.audio s)) = 0 ->
  (2 <= Speaker.mem_slab s)%nat ->
  let r := Speaker.speaker_init s in
  fst r = 0
  /\ Speaker.rx_buffer (snd r) = Some Speaker.zero_block
  /\ Speaker.buzz_buffer (snd r) = Some Speaker.zero_block
  /\ Speaker.mem_slab (snd r) = (Speaker.mem_slab s - 2)%nat
  /\ PwmAudio.is_initialized (Speaker.audio (snd r)) = true
  /\ PwmAudio.is_muted (Speaker.audio (snd r)) = false
  /\ PwmAudio.mute_ramp_timer (Speaker.audio (snd r))
     = Some PwmAudio.ramp_period_ms
  /\ PwmAudio.current_volume (Speaker.audio (snd r))
     = PwmAudio.current_volume (Speaker.audio s).
Proof.
  destruct s as [a0 slab rx bz p2 cp cl off pc].
  cbn [Speaker.audio Speaker.mem_slab].
  intros Hi Hlr Hrr Hlf Hrf Hsr Hsf Hslab. cbv zeta.
  destruct (pwm_audio_init_ok a0 Hi Hlr Hrr Hlf Hrf Hsr Hsf)
    as (H0 & Hinit & Hm & _ & _ & _ & Hv & _ & _ & _).
  unfold Speaker.speaker_init. cbn [Speaker.audio].
  destruct (PwmAudio.pwm_audio_init a0) as [err a].
  cbn [fst snd] in *. subst err.
  destruct slab as [|[|n]]; [lia|lia|].
  cbn [negb Z.eqb Speaker.k_mem_slab_alloc Speaker.mem_slab Speaker.with_audio
       Speaker.with_mem_slab Speaker.with_rx_buffer Speaker.with_buzz_buffer
       Speaker.rx_buffer Speaker.buzz_buffer Speaker.audio Speaker.ptr2
       Speaker.clear_ptr Speaker.current_length Speaker.offset
       Speaker.play_calls fst snd].
  unfold PwmAudio.pwm_audio_unmute. rewrite Hinit, Hm. cbn [negb].
  unfold PwmAudio.k_timer_start, PwmAudio.with_timer, PwmAudio.with_muted.
  cbn [PwmAudio.is_initialized PwmAudio.is_muted PwmAudio.mute_ramp_timer
       PwmAudio.current_volume].
  repeat split; try reflexivity; try assumption. lia.
Qed.

Lemma speaker_init_healthy_board_witness :
  fst (Speaker.speaker_init (Speaker.power_on engine_at_power_on)) = 0
  /\ Speaker.rx_buffer speaker_ready = Some Speaker.zero_block
  /\ PwmAudio.is_muted (Speaker.audio speaker_ready) = false.
Proof.
  destruct (speaker_init_healthy_board (Speaker.power_on engine_at_power_on)
              eq_refl eq_refl eq_refl eq_refl eq_refl eq_refl eq_refl
              (le_n 2))
    as (H0 & Hrx & _ & _ & _ & Hm & _).
  split; [exact H0|]. split; [exact Hrx | exact Hm].
Defined.

(** X21.  [speaker_init] with fewer than two free blocks returns -1 after
    the audio engine was initialised: the engine stays initialised and
    muted, exactly as [pwm_audio_init] left it, and the block taken for the
    receive buffer, if any, is not given back. *)
Theorem speaker_init_out_of_blocks (s : Speaker.speaker) :
  PwmAudio.is_initialized (Speaker.audio s) = false ->
  pwm_ready (PwmAudio.pwm_audio_l (Speaker.audio s)) = true ->
  pwm_ready (PwmAudio.pwm_audio_r (Speaker.audio s)) = true ->
  pwm_fault (PwmAudio.pwm_audio_l (Speaker.audio s)) = 0 ->
  pwm_fault (PwmAudio.pwm_audio_r (Speaker.audio s)) = 0 ->
  pin_ready (PwmAudio.pam8403_shutdown_pin (Speaker.audio s)) = true ->
  pin_fault (PwmAudio.pam8403_shutdown_pin (Speaker.audio s)) = 0 ->
  (Speaker.mem_slab s < 2)%nat ->
  let r := Speaker.speaker_init s in
  fst r = -1
  /\ Speaker.mem_slab (snd r) = 0%nat
  /\ Speaker.audio (snd r) = snd (PwmAudio.pwm_audio_init (Speaker.audio s))
  /\ PwmAudio.is_initialized (Speaker.audio (snd r)) = true
  /\ PwmAudio.is_muted (Speaker.audio (snd r)) = true.
Proof.
  destruct s as [a0 slab rx bz p2 cp cl off pc].
  cbn [Speaker.audio Speaker.mem_slab].
  intros Hi Hlr Hrr Hlf Hrf Hsr Hsf Hslab. cbv zeta.
  destruct (pwm_audio_init_ok a0 Hi Hlr Hrr Hlf Hrf Hsr Hsf)
    as (H0 & Hinit & Hm & _).
  unfold Speaker.speaker_init. cbn [Speaker.audio].
  destruct (PwmAudio.pwm_audio_init a0) as [err a].
  cbn [fst snd] in *. subst err.
  destruct slab as [|[|n]]; [| |lia];
    cbn [negb Z.eqb Speaker.k_mem_slab_alloc Speaker.mem_slab Speaker.with_audio
         Speaker.with_mem_slab Speaker.with_rx_buffer Speaker.with_buzz_buffer
         Speaker.rx_buffer Speaker.buzz_buffer Speaker.audio Speaker.ptr2
         Speaker.clear_ptr Speaker.current_length Speaker.offset
         Speaker.play_calls fst snd];
    change (- ENOMEM =? 0) with false; cbn [negb fst snd Speaker.mem_slab
      Speaker.audio Speaker.with_rx_buffer Speaker.with_buzz_buffer];
    repeat split; try reflexivity; assumption.
Qed.

Lemma speaker_init_out_of_blocks_witness :
  fst (Speaker.speaker_init
         (Speaker.with_mem_slab 1 (Speaker.power_on engine_at_power_on))) = -1
  /\ PwmAudio.is_muted
       (Speaker.audio
          (snd (Speaker.speaker_init
                  (Speaker.with_mem_slab 1
                     (Speaker.power_on engine_at_power_on))))) = true.
Proof.
  destruct (speaker_init_out_of_blocks
              (Speaker.with_mem_slab 1 (Speaker.power_on engine_at_power_on))
              eq_refl eq_refl eq_refl eq_refl eq_refl eq_refl eq_refl
              (le_n 2))
    as (H0 & _ & _ & _ & Hm).
  split; [exact H0 | exact Hm].
Defined.

Section SdExtra.
Import SdCard.
Variable null_text : string.

Lemma delete_down_from_stops d : forall k s,
  (1 <= k)%nat -> (Z.of_nat (k + d) <= 99) ->
  (forall i, (k < i <= k + d)%nat ->
     audio_path null_text (Z.of_nat i) ∈ fs_paths (fs s)) ->
  audio_path null_text (Z.of_nat k) ∉ fs_paths (fs s) ->
  let r := delete_down_from null_text (k + d) s in
  fst r = -1
  /\ fs_paths (fs (snd r))
     = fs_paths (fs s) ∖ (numbered null_text (k + d) ∖ numbered null_text k)
  /\ fs_calls (fs (snd r))
     = fs_calls (fs s) ++ take (S d) (unlinks_down_from null_text (k + d))
  /\ fs_full (fs (snd r)) = fs_full (fs s)
  /\ file_count (snd r) = file_count s
  /\ current_read_file (snd r) = current_read_file s
  /\ current_write_file (snd r) = current_write_file s
  /\ read_buffer (snd r) = read_buffer s
  /\ write_buffer (snd r) = write_buffer s.
Proof.
  induction d as [|d IH]; intros k s Hk Hn Hfiles Hmiss.
  - rewrite Nat.add_0_r. destruct k as [|k]; [lia|].
    cbv zeta. cbn [delete_down_from]. unfold delete_audio_file.
    fold (audio_path null_text (Z.of_nat (S k))).
    cbn [current_full_path with_current_full_path fs].
    unfold fs_unlink. rewrite decide_False by exact Hmiss.
    change (- ENOENT) with (-2). cbn [negb Z.eqb fst snd fs with_fs fs_paths
      fs_calls fs_full file_count current_read_file current_write_file
      read_buffer write_buffer with_current_full_path unlinks_down_from take].
    repeat split; try reflexivity. set_solver.
  - replace (k + S d)%nat with (S (k + d)) in * by lia.
    cbv zeta. cbn [delete_down_from]. unfold delete_audio_file.
    fold (audio_path null_text (Z.of_nat (S (k + d)))).
    cbn [current_full_path with_current_full_path fs].
    unfold fs_unlink.
    rewrite decide_True by (apply Hfiles; lia).
    cbn [negb Z.eqb].
    match goal with
    | |- context [delete_down_from null_text (k + d) ?s1] =>
        specialize (IH k s1); cbv zeta in IH
    end.
    cbn [fs with_fs with_current_full_path fs_paths fs_calls fs_full file_count
         current_read_file current_write_file read_buffer write_buffer] in IH.
    destruct IH as (H0 & Hp & Hc & Hf & Hrest); [lia|lia| | |].
    { intros i Hi. apply elem_of_difference. split; [apply Hfiles; lia|].
      rewrite elem_of_singleton. intros Heq.
      apply audio_path_inj in Heq; lia. }
    { set_solver. }
    split; [exact H0|]. split; [|split; [|split; [exact Hf|exact Hrest]]].
    + rewrite Hp. cbn [numbered].
      assert (Hout : audio_path null_text (Z.of_nat (S (k + d)))
                     ∉ numbered null_text k)
        by (apply not_elem_of_numbered; lia).
      set_solver.
    + rewrite Hc. cbn [unlinks_down_from take]. rewrite <- app_assoc.
      reflexivity.
Qed.

Lemma get_file_contents_loop_fits zdp : forall count arr,
  Forall regular_entry zdp ->
  0 <= count -> count + Z.of_nat (length zdp) <= Z.of_nat (length arr) ->
  get_file_contents_loop zdp count arr
  = Some (count + Z.of_nat (length zdp),
          take (Z.to_nat count) arr ++ entry_sizes zdp
          ++ drop (Z.to_nat count + length zdp) arr).
Proof.
  induction zdp as [|[ret entry] rest IH]; intros count arr Hreg Hc Hfit.
  - cbn [get_file_contents_loop length entry_sizes map app].
    rewrite Nat.add_0_r, take_drop, Z.add_0_r. reflexivity.
  - apply Forall_cons in Hreg as [[Hret Hname] Hreg]. cbn [fst snd] in *.
    subst ret. cbn [get_file_contents_loop negb Z.eqb]. rewrite Hname.
    cbn [length] in Hfit.
    unfold store_file_num. rewrite decide_True by lia.
    cbn [mbind option_bind].
    rewrite IH; [|exact Hreg|lia|rewrite length_insert; lia].
    f_equal. f_equal; [cbn [length]; lia|].
    cbn [entry_sizes map snd length].
    fold (entry_sizes rest).
    replace (Z.to_nat (count + 1)) with (S (Z.to_nat count)) by lia.
    assert (Hlt : (Z.to_nat count < length arr)%nat) by lia.
    rewrite take_S_r with (x := to_uint32 (d_size entry))
      by (apply list_lookup_insert_eq; exact Hlt).
    rewrite take_insert_ge by lia.
    rewrite drop_insert_lt by lia.
    rewrite <- app_assoc. cbn [app].
    replace (S (Z.to_nat count) + length rest)%nat
      with (Z.to_nat count + S (length rest))%nat by lia.
    reflexivity.
Qed.

Lemma get_file_contents_loop_overflow zdp : forall count arr,
  Forall regular_entry zdp ->
  0 <= count <= Z.of_nat (length arr) ->
  Z.of_nat (length arr) < count + Z.of_nat (length zdp) ->
  get_file_contents_loop zdp count arr = None.
Proof.
  induction zdp as [|[ret entry] rest IH]; intros count arr Hreg Hc Hover.
  - cbn [length] in Hover. lia.
  - apply Forall_cons in Hreg as [[Hret Hname] Hreg]. cbn [fst snd] in *.
    subst ret. cbn [get_file_contents_loop negb Z.eqb]. rewrite Hname.
    cbn [length] in Hover.
    unfold store_file_num.
    destruct (decide (0 <= count < Z.of_nat (length arr))); [|reflexivity].
    cbn [mbind option_bind].
    apply IH; rewrite ?length_insert; [exact Hreg|lia|lia].
Qed.

End SdExtra.

(** X22.  The paths of the audio files 0 to 99 are pairwise different and
    none of them is the path of the audio directory; every file number
    above 99 is mapped to one and the same path, the mount point followed
    by what the C library prints for a null pointer. *)
Theorem audio_files_do_not_collide (null_text : string) (i j : Z) :
  (0 <= i <= 99 -> 0 <= j <= 99 ->
     audio_path null_text i = audio_path null_text j -> i = j)
  /\ (0 <= i <= 99 -> audio_path null_text i <> SdCard.AUDIO_DIR)
  /\ (99 < i -> 99 < j -> audio_path null_text i = audio_path null_text j).
Proof.
  split; [|split].
  - apply audio_path_inj.
  - apply audio_path_not_dir.
  - intros Hi Hj. unfold audio_path, SdCard.generate_new_audio_header.
    destruct (Z.gtb_spec i 99); [|lia]. destruct (Z.gtb_spec j 99); [|lia].
    reflexivity.
Qed.

Lemma audio_files_do_not_collide_witness :
  audio_path "(null)" 7 <> audio_path "(null)" 17
  /\ audio_path "(null)" 100 = audio_path "(null)" 255.
Proof.
  destruct (audio_files_do_not_collide "(null)" 7 17) as (Hinj & _ & _).
  destruct (audio_files_do_not_collide "(null)" 100 255) as (_ & _ & Hnull).
  split.
  - intros Heq. apply Hinj in Heq; lia.
  - apply Hnull; lia.
Defined.

(** X23.  [clear_audio_directory] gives up at the first audio file it
    cannot delete.  When [file_count] is not 1, the files above k exist and
    file k does not, it returns -1 after deleting exactly the files
    file_count down to k + 1: the directory and every other path stay, the
    only calls are the [fs_unlink]s down to file k, and [file_count] and
    both cursors keep their values. *)
Theorem clear_audio_directory_stops_at_missing_file
    (null_text : string) (k : Z) (s : SdCard.sd) :
  SdCard.file_count s <> 1 ->
  1 <= k <= SdCard.file_count s -> SdCard.file_count s <= 99 ->
  (forall i, k < i <= SdCard.file_count s ->
     audio_path null_text i ∈ SdCard.fs_paths (SdCard.fs s)) ->
  audio_path null_text k ∉ SdCard.fs_paths (SdCard.fs s) ->
  let n := Z.to_nat (SdCard.file_count s) in
  let r := SdCard.clear_audio_directory null_text s in
  fst r = -1
  /\ SdCard.fs_paths (SdCard.fs (snd r))
     = SdCard.fs_paths (SdCard.fs s)
       ∖ (numbered null_text n ∖ numbered null_text (Z.to_nat k))
  /\ SdCard.fs_calls (SdCard.fs (snd r))
     = SdCard.fs_calls (SdCard.fs s)
       ++ take (S (n - Z.to_nat k)) (unlinks_down_from null_text n)
  /\ SdCard.file_count (snd r) = SdCard.file_count s
  /\ SdCard.current_read_file (snd r) = SdCard.current_read_file s
  /\ SdCard.current_write_file (snd r) = SdCard.current_write_file s
  /\ SdCard.read_buffer (snd r) = SdCard.read_buffer s
  /\ SdCard.write_buffer (snd r) = SdCard.write_buffer s.
Proof.
  intros Hne Hk Hmax Hfiles Hmiss n r. subst r.
  unfold SdCard.clear_audio_directory.
  destruct (Z.eqb_spec (SdCard.file_count s) 1) as [|_]; [contradiction|].
  fold n.
  pose proof (delete_down_from_stops null_text (n - Z.to_nat k) (Z.to_nat k) s)
    as Hloop.
  cbv zeta in Hloop.
  replace (Z.to_nat k + (n - Z.to_nat k))%nat with n in Hloop by (unfold n; lia).
  destruct (SdCard.delete_down_from null_text n s) as [res s1].
  cbn [fst snd] in Hloop.
  destruct Hloop as (-> & Hp & Hc & _ & Hrest).
  - lia.
  - unfold n. lia.
  - intros i Hi. apply Hfiles. unfold n in Hi. lia.
  - rewrite Z2Nat.id by lia. exact Hmiss.
  - cbn [negb Z.eqb fst snd]. split; [reflexivity|].
    split; [exact Hp|]. split; [exact Hc | exact Hrest].
Qed.

Lemma clear_audio_directory_stops_at_missing_file_witness :
  let s := SdCard.with_fs
             (SdCard.mk_fs
                (list_to_set ["/SD:/audio"; "/SD:audio/a01.txt";
                              "/SD:audio/a02.txt"; "/SD:audio/a04.txt";
                              "/SD:audio/a05.txt"]) false [])
             sd_five_files in
  let r := SdCard.clear_audio_directory "(null)" s in
  fst r = -1
  /\ SdCard.file_count (snd r) = 5
  /\ elements (SdCard.fs_paths (SdCard.fs (snd r)))
     = ["/SD:/audio"; "/SD:audio/a01.txt"; "/SD:audio/a02.txt"].
Proof.
  cbv zeta.
  destruct (clear_audio_directory_stops_at_missing_file "(null)" 3
              (SdCard.with_fs
                 (SdCard.mk_fs
                    (list_to_set ["/SD:/audio"; "/SD:audio/a01.txt";
                                  "/SD:audio/a02.txt"; "/SD:audio/a04.txt";
                                  "/SD:audio/a05.txt"]) false [])
                 sd_five_files))
    as (H0 & Hp & _ & Hfc & _).
  - vm_compute. discriminate.
  - vm_compute. split; discriminate.
  - vm_compute. discriminate.
  - intros i Hi.
    change (SdCard.file_count _) with 5 in Hi.
    assert (Hc : i = 4 \/ i = 5) by lia.
    destruct Hc as [-> | ->]; vm_compute; reflexivity.
  - vm_compute. discriminate.
  - split; [exact H0|]. split; [exact Hfc|].
    rewrite Hp. vm_compute. reflexivity.
Defined.

(** X24.  [clear_audio_file] for a file number from 0 to 99 deletes the file
    and creates it again.  When the file does not exist it returns -1
    after the failed [fs_unlink] and creates nothing.  When the file exists
    and the card has room it returns 0 with the same set of paths.  When
    the file exists and the card is full it returns -1 and the file is
    gone.  The file count and both cursors never change. *)
Theorem clear_audio_file_outcomes
    (null_text : string) (num : Z) (s : SdCard.sd) :
  0 <= num <= 99 ->
  let p := audio_path null_text num in
  let r := SdCard.clear_audio_file null_text num s in
  let f := SdCard.fs s in
  SdCard.file_count (snd r) = SdCard.file_count s
  /\ SdCard.current_read_file (snd r) = SdCard.current_read_file s
  /\ SdCard.current_write_file (snd r) = SdCard.current_write_file s
  /\ SdCard.current_full_path (snd r) = p
  /\ (p ∉ SdCard.fs_paths f ->
      fst r = -1
      /\ SdCard.fs_paths (SdCard.fs (snd r)) = SdCard.fs_paths f
      /\ SdCard.fs_calls (SdCard.fs (snd r))
         = SdCard.fs_calls f ++ [SdCard.FsUnlink p])
  /\ (p ∈ SdCard.fs_paths f -> SdCard.fs_full f = false ->
      fst r = 0
      /\ SdCard.fs_paths (SdCard.fs (snd r)) = SdCard.fs_paths f
      /\ SdCard.fs_calls (SdCard.fs (snd r))
         = SdCard.fs_calls f ++ [SdCard.FsUnlink p; SdCard.FsCreate p])
  /\ (p ∈ SdCard.fs_paths f -> SdCard.fs_full f = true ->
      fst r = -1
      /\ SdCard.fs_paths (SdCard.fs (snd r)) = SdCard.fs_paths f ∖ {[p]}).
Proof.
  intros Hnum p r f. subst r.
  unfold SdCard.clear_audio_file, SdCard.create_file.
  assert (Hhdr : exists h, SdCard.generate_new_audio_header num = Some h
                           /\ SdCard.SD_MOUNT_PT +:+ h = p).
  { unfold p, audio_path, SdCard.mount_path, SdCard.generate_new_audio_header.
    destruct (Z.gtb_spec num 99); [lia|]. eexists. split; reflexivity. }
  destruct Hhdr as (h & Hh & Hpath).
  fold (audio_path null_text num). fold p.
  rewrite Hh.
  cbn [SdCard.current_full_path SdCard.with_current_full_path SdCard.fs
       SdCard.with_fs].
  rewrite Hpath.
  unfold SdCard.fs_unlink. fold f.
  destruct (decide (p ∈ SdCard.fs_paths f)) as [Hin|Hout].
  - cbn [negb Z.eqb SdCard.fs SdCard.with_fs SdCard.with_current_full_path
         SdCard.current_full_path].
    unfold SdCard.fs_open_create.
    cbn [SdCard.fs_paths SdCard.fs_full SdCard.fs_calls].
    rewrite decide_False by set_solver.
    destruct (SdCard.fs_full f) eqn:Hfull.
    + change (- SdCard.ENOSPC) with (-28).
      cbn [negb Z.eqb fst snd SdCard.fs SdCard.with_fs SdCard.fs_paths
           SdCard.fs_calls SdCard.file_count SdCard.current_read_file
           SdCard.current_write_file SdCard.current_full_path
           SdCard.with_current_full_path].
      repeat split; try reflexivity; try contradiction; discriminate.
    + cbn [negb Z.eqb fst snd SdCard.fs SdCard.with_fs SdCard.fs_paths
           SdCard.fs_calls SdCard.file_count SdCard.current_read_file
           SdCard.current_write_file SdCard.current_full_path
           SdCard.with_current_full_path].
      repeat split; try reflexivity; try contradiction; try discriminate.
      * apply set_eq. intros q.
        rewrite elem_of_union, elem_of_difference, !elem_of_singleton.
        split; [intros [->|[Hq _]]; assumption|].
        intros Hq. destruct (decide (q = p)); [left|right]; auto.
      * rewrite <- app_assoc. reflexivity.
  - change (- ENOENT) with (-2).
    cbn [negb Z.eqb fst snd SdCard.fs SdCard.with_fs SdCard.fs_paths
         SdCard.fs_calls SdCard.file_count SdCard.current_read_file
         SdCard.current_write_file SdCard.current_full_path
         SdCard.with_current_full_path].
    repeat split; try reflexivity; contradiction.
Qed.

Lemma clear_audio_file_outcomes_witness :
  fst (SdCard.clear_audio_file "(null)" 2 sd_five_files) = 0
  /\ fst (SdCard.clear_audio_file "(null)" 9 sd_five_files) = -1
  /\ SdCard.fs_paths (SdCard.fs (snd (SdCard.clear_audio_file "(null)" 9
                                        sd_five_files)))
     = SdCard.fs_paths card_five_files.
Proof.
  destruct (clear_audio_file_outcomes "(null)" 2 sd_five_files)
    as (_ & _ & _ & _ & _ & Hok & _); [lia|].
  destruct (clear_audio_file_outcomes "(null)" 9 sd_five_files)
    as (_ & _ & _ & _ & Hmiss & _); [lia|].
  destruct Hok as (H0 & _); [vm_compute; reflexivity | reflexivity |].
  destruct Hmiss as (H1 & Hp & _); [vm_compute; discriminate|].
  split; [exact H0|]. split; [exact H1 | exact Hp].
Defined.

(** X25.  [get_file_contents] on a directory of regular entries returns
    their number and stores their sizes in [file_num_array] as long as
    there are at most two; a third entry is stored past the end of the
    two-element array. *)
Theorem get_file_contents_counts
    (zdp : SdCard.fs_dir_t) (file_num_array : list Z) :
  length file_num_array = 2%nat ->
  Forall regular_entry zdp ->
  ((length zdp <= 2)%nat ->
     SdCard.get_file_contents zdp file_num_array
     = Some (Z.of_nat (length zdp),
             entry_sizes zdp ++ drop (length zdp) file_num_array))
  /\ ((2 < length zdp)%nat ->
      SdCard.get_file_contents zdp file_num_array = None).
Proof.
  intros Harr Hreg. unfold SdCard.get_file_contents.
  destruct zdp as [|[ret entry] rest].
  - split; [reflexivity | cbn [length]; lia].
  - apply Forall_cons in Hreg as [[Hret Hname] Hreg]. cbn [fst snd] in *.
    subst ret. cbn [SdCard.fs_readdir negb Z.eqb]. rewrite Hname.
    unfold SdCard.store_file_num. rewrite decide_True by lia.
    cbn [mbind option_bind length]. split; intros Hlen.
    + rewrite get_file_contents_loop_fits;
        [|exact Hreg|lia|rewrite length_insert; lia].
      f_equal. f_equal; [lia|].
      destruct file_num_array as [|a [|b [|]]]; cbn [length] in Harr; try lia.
      cbn [entry_sizes map snd]. fold (entry_sizes rest).
      reflexivity.
    + apply get_file_contents_loop_overflow;
        rewrite ?length_insert; [exact Hreg|lia|lia].
Qed.

Lemma get_file_contents_counts_witness :
  SdCard.get_file_contents [listed "a01.txt" 4000; listed "a02.txt" 12] [0; 0]
  = Some (2, [4000; 12])
  /\ SdCard.get_file_contents
       [listed "a01.txt" 4000; listed "a02.txt" 12; listed "a03.txt" 0] [0; 0]
     = None.
Proof.
  assert (Hreg : forall name size, SdCard.name_is_empty name = false ->
                   regular_entry (listed name size)).
  { intros name size H. split; [reflexivity | exact H]. }
  destruct (get_file_contents_counts
              [listed "a01.txt" 4000; listed "a02.txt" 12] [0; 0] eq_refl)
    as [Hfit _].
  { repeat constructor. }
  destruct (get_file_contents_counts
              [listed "a01.txt" 4000; listed "a02.txt" 12; listed "a03.txt" 0]
              [0; 0] eq_refl) as [_ Hover].
  { repeat constructor. }
  split.
  - rewrite Hfit by (cbn; lia). reflexivity.
  - apply Hover. cbn. lia.
Defined.

Section IoExtra.
Import SdCardIo.

Lemma card_eta c : with_vol (vol c) c = c.
Proof. destruct c; reflexivity. Qed.

Lemma offset_bytes_value offset :
  0 <= offset < 4294967296 ->
  Speaker.read_uint32
    [Z.land offset 255; Z.land (Z.shiftr offset 8) 255;
     Z.land (Z.shiftr offset 16) 255; Z.land (Z.shiftr offset 24) 255]
  = Some offset.
Proof.
  intros H. unfold Speaker.read_uint32.
  cbn [lookup list_lookup mbind option_bind]. f_equal.
  change 255 with (Z.ones 8). rewrite !Z.land_ones by lia.
  rewrite !Z.shiftr_div_pow2 by lia.
  change (2 ^ 8) with 256. change (2 ^ 16) with 65536.
  change (2 ^ 24) with 16777216.
  rewrite little_endian_value
    by (unfold is_uint8;
        match goal with |- 0 <= ?a mod 256 <= 255 =>
          pose proof (Z.mod_pos_bound a 256); lia end).
  Z.div_mod_to_equations. lia.
Qed.

Lemma to_int32_small x : 0 <= x < 2147483648 -> to_int32 x = x.
Proof. intros H. unfold to_int32. rewrite Z.mod_small by lia. lia. Qed.

Lemma to_int32_large x :
  2147483648 <= x < 4294967296 -> to_int32 x = x - 4294967296.
Proof.
  intros H. unfold to_int32.
  replace (x + 2147483648) with (x - 2147483648 + 1 * 4294967296) by lia.
  rewrite Z.mod_add by lia. rewrite Z.mod_small by lia. lia.
Qed.

(** [get_offset] on a volume whose info file starts with the four bytes of
    [offset]. *)
Lemma get_offset_reads offset rest c :
  0 <= offset < 4294967296 ->
  vol c !! "/SD:/info.txt"
  = Some ([Z.land offset 255; Z.land (Z.shiftr offset 8) 255;
           Z.land (Z.shiftr offset 16) 255; Z.land (Z.shiftr offset 24) 255]
          ++ rest) ->
  get_offset c = Some (to_int32 offset).
Proof.
  intros Hoff Hfile. unfold get_offset, fs_open. rewrite Hfile.
  cbn [Z.ltb Z.compare]. unfold fs_seek. cbn [f_path]. rewrite Hfile.
  rewrite decide_True by lia. cbn [Z.ltb Z.compare].
  unfold fs_read. cbn [f_path f_pos Z.to_nat]. rewrite Hfile.
  cbn [drop app take length Z.of_nat Pos.of_succ_nat Pos.succ Z.ltb Z.compare].
  change (Z.to_nat 0) with 0%nat.
  cbn [drop skipn take firstn length Z.of_nat Pos.of_succ_nat Pos.succ Z.ltb
       Z.compare].
  rewrite offset_bytes_value by exact Hoff. reflexivity.
Qed.

End IoExtra.

(** X26.  [save_offset] followed by [get_offset]: for an offset below
    2^32, [save_offset] returns 0, writes the four little-endian bytes at
    the start of /SD:/info.txt (creating it if needed, keeping what
    follows the four bytes) and touches no other file; [get_offset] then
    returns the offset converted to a signed 32-bit integer, that is the
    offset itself below 2^31 and a negative number from 2^31 on. *)
Theorem offset_round_trip (offset : Z) (c : SdCardIo.card) :
  0 <= offset < 4294967296 ->
  exists c',
    SdCardIo.save_offset offset c = Some (0, c')
    /\ SdCardIo.get_offset c' = Some (to_int32 offset)
    /\ (offset < 2147483648 -> SdCardIo.get_offset c' = Some offset)
    /\ (2147483648 <= offset ->
        SdCardIo.get_offset c' = Some (offset - 4294967296))
    /\ (forall p, p <> "/SD:/info.txt" ->
          SdCardIo.vol c' !! p = SdCardIo.vol c !! p)
    /\ (exists b0 b1 b2 b3,
          SdCardIo.vol c' !! "/SD:/info.txt"
          = Some ([b0; b1; b2; b3]
                  ++ drop 4 (default [] (SdCardIo.vol c !! "/SD:/info.txt"))))
    /\ SdCardIo.sd_card_state c' = SdCardIo.sd_card_state c.
Proof.
  intros Hoff.
  set (buf := [Z.land offset 255; Z.land (Z.shiftr offset 8) 255;
               Z.land (Z.shiftr offset 16) 255;
               Z.land (Z.shiftr offset 24) 255]).
  set (old := default [] (SdCardIo.vol c !! "/SD:/info.txt")).
  exists (SdCardIo.with_vol
            (<["/SD:/info.txt" := buf ++ drop 4 old]> (SdCardIo.vol c)) c).
  assert (Hsave : SdCardIo.save_offset offset c
                  = Some (0, SdCardIo.with_vol
                               (<["/SD:/info.txt" := buf ++ drop 4 old]>
                                  (SdCardIo.vol c)) c)).
  { unfold SdCardIo.save_offset, SdCardIo.fs_open. fold buf. subst old.
    destruct (SdCardIo.vol c !! "/SD:/info.txt") as [bytes|] eqn:Hfile.
    - cbn [negb Z.eqb SdCardIo.vol SdCardIo.with_vol default].
      unfold SdCardIo.fs_write. cbn [SdCardIo.f_path SdCardIo.f_append
        SdCardIo.f_pos]. rewrite Hfile.
      rewrite decide_True by (cbn; lia).
      cbn [mbind option_bind take app Nat.add Z.of_nat Pos.of_succ_nat Pos.succ
           Z.ltb Z.compare SdCardIo.vol SdCardIo.with_vol
           SdCardIo.sd_card_state SdCardIo.read_buffer SdCardIo.write_buffer].
      reflexivity.
    - cbn [negb Z.eqb SdCardIo.vol SdCardIo.with_vol default].
      unfold SdCardIo.fs_write. cbn [SdCardIo.f_path SdCardIo.f_append
        SdCardIo.f_pos]. rewrite lookup_insert_eq.
      rewrite decide_True by (cbn; lia).
      cbn [mbind option_bind take drop app Nat.add Z.of_nat Pos.of_succ_nat
           Pos.succ Z.ltb Z.compare SdCardIo.vol SdCardIo.with_vol
           SdCardIo.sd_card_state SdCardIo.read_buffer SdCardIo.write_buffer].
      rewrite insert_insert_eq. reflexivity. }
  assert (Hget : SdCardIo.get_offset
                   (SdCardIo.with_vol
                      (<["/SD:/info.txt" := buf ++ drop 4 old]> (SdCardIo.vol c))
                      c) = Some (to_int32 offset)).
  { apply (get_offset_reads offset (drop 4 old)); [exact Hoff|].
    cbn [SdCardIo.vol SdCardIo.with_vol]. apply lookup_insert_eq. }
  split; [exact Hsave|]. split; [exact Hget|].
  split; [intros H; rewrite Hget, to_int32_small by lia; reflexivity|].
  split; [intros H; rewrite Hget, to_int32_large by lia; reflexivity|].
  split; [|split].
  - intros p Hp. cbn [SdCardIo.vol SdCardIo.with_vol].
    apply lookup_insert_ne. congruence.
  - eexists _, _, _, _. cbn [SdCardIo.vol SdCardIo.with_vol].
    rewrite lookup_insert_eq. reflexivity.
  - reflexivity.
Qed.

Lemma offset_round_trip_witness :
  exists c',
    SdCardIo.save_offset 70000
      (SdCardIo.mk_card SdCardIo.SD_CARD_MOUNTED ∅ "" "") = Some (0, c')
    /\ SdCardIo.get_offset c' = Some 70000.
Proof.
  destruct (offset_round_trip 70000
              (SdCardIo.mk_card SdCardIo.SD_CARD_MOUNTED ∅ "" ""))
    as (c' & Hsave & _ & Hget & _); [lia|].
  exists c'. split; [exact Hsave|]. apply Hget. lia.
Defined.

(** X27.  [get_offset] without a usable info file: when /SD:/info.txt does
    not exist it returns -ENOENT; when the file holds fewer than four
    bytes it reads bytes of its buffer that were never written. *)
Theorem get_offset_without_saved_offset (c : SdCardIo.card) :
  (SdCardIo.vol c !! "/SD:/info.txt" = None ->
     SdCardIo.get_offset c = Some (- ENOENT))
  /\ (forall bytes,
        SdCardIo.vol c !! "/SD:/info.txt" = Some bytes ->
        (length bytes < 4)%nat ->
        SdCardIo.get_offset c = None).
Proof.
  split.
  - intros Hfile. unfold SdCardIo.get_offset, SdCardIo.fs_open.
    rewrite Hfile. reflexivity.
  - intros bytes Hfile Hlen.
    unfold SdCardIo.get_offset, SdCardIo.fs_open. rewrite Hfile.
    cbn [Z.ltb Z.compare]. unfold SdCardIo.fs_seek. cbn [SdCardIo.f_path].
    rewrite Hfile. rewrite decide_True by lia. cbn [Z.ltb Z.compare].
    unfold SdCardIo.fs_read. cbn [SdCardIo.f_path SdCardIo.f_pos].
    rewrite Hfile. change (Z.to_nat 0) with 0%nat.
    destruct bytes as [|b0 [|b1 [|b2 [|b3 rest]]]];
      cbn [length] in Hlen; try lia; reflexivity.
Qed.

Lemma get_offset_without_saved_offset_witness :
  SdCardIo.get_offset (SdCardIo.mk_card SdCardIo.SD_CARD_MOUNTED ∅ "" "")
  = Some (-2)
  /\ SdCardIo.get_offset
       (SdCardIo.mk_card SdCardIo.SD_CARD_MOUNTED
          {["/SD:/info.txt" := [7; 0; 0]]} "" "") = None.
Proof.
  destruct (get_offset_without_saved_offset
              (SdCardIo.mk_card SdCardIo.SD_CARD_MOUNTED ∅ "" ""))
    as [Hnone _].
  destruct (get_offset_without_saved_offset
              (SdCardIo.mk_card SdCardIo.SD_CARD_MOUNTED
                 {["/SD:/info.txt" := [7; 0; 0]]} "" ""))
    as [_ Hshort].
  split.
  - apply Hnone. reflexivity.
  - apply (Hshort [7; 0; 0]); [reflexivity | cbn; lia].
Defined.

(** X28.  [write_to_file] appends to the file named by the write cursor
    and always returns 0.  When that file exists, the data is added at its
    end and [read_audio_data] on the same file, at the old length, returns
    the number of bytes and the very bytes written; when it does not
    exist, nothing is written and nothing is created. *)
Theorem write_then_read_back (data old : list Z) (c : SdCardIo.card) :
  (SdCardIo.vol c !! SdCardIo.write_buffer c = Some old ->
   SdCardIo.read_buffer c = SdCardIo.write_buffer c ->
   Z.of_nat (length data) < 4294967296 ->
   exists c',
     SdCardIo.write_to_file data (Z.of_nat (length data)) c = Some (0, c')
     /\ SdCardIo.vol c'
        = <[SdCardIo.write_buffer c := old ++ data]> (SdCardIo.vol c)
     /\ SdCardIo.read_audio_data (Z.of_nat (length data))
          (Z.of_nat (length old)) c'
        = (Z.of_nat (length data), data))
  /\ (SdCardIo.vol c !! SdCardIo.write_buffer c = None ->
      forall length, SdCardIo.write_to_file data length c = Some (0, c)).
Proof.
  split.
  - intros Hfile Hsame Hsize.
    exists (SdCardIo.with_vol
              (<[SdCardIo.write_buffer c := old ++ data]> (SdCardIo.vol c)) c).
    split; [|split].
    + unfold SdCardIo.write_to_file, SdCardIo.fs_open. rewrite Hfile.
      cbn [SdCardIo.vol SdCardIo.with_vol SdCardIo.write_buffer].
      unfold SdCardIo.fs_write.
      cbn [SdCardIo.f_path SdCardIo.f_append SdCardIo.f_pos].
      rewrite Hfile, Nat2Z.id. rewrite decide_True by lia.
      cbn [mbind option_bind].
      rewrite firstn_all, firstn_all, drop_ge, app_nil_r by lia.
      destruct c; reflexivity.
    + reflexivity.
    + unfold SdCardIo.read_audio_data, SdCardIo.fs_open.
      cbn [SdCardIo.vol SdCardIo.with_vol SdCardIo.read_buffer].
      rewrite Hsame, lookup_insert_eq.
      unfold SdCardIo.fs_seek. cbn [SdCardIo.f_path SdCardIo.f_append].
      rewrite lookup_insert_eq.
      rewrite decide_True by (rewrite length_app; lia).
      unfold SdCardIo.fs_read. cbn [SdCardIo.f_path SdCardIo.f_pos].
      rewrite lookup_insert_eq.
      unfold to_uint32. rewrite Z.mod_small by lia. rewrite !Nat2Z.id.
      rewrite drop_app_length, firstn_all. reflexivity.
  - intros Hfile n.
    unfold SdCardIo.write_to_file, SdCardIo.fs_open. rewrite Hfile.
    cbn [SdCardIo.fs_write mbind option_bind SdCardIo.vol SdCardIo.with_vol].
    destruct c; reflexivity.
Qed.

Lemma write_then_read_back_witness :
  let c := SdCardIo.mk_card SdCardIo.SD_CARD_MOUNTED
             {["/SD:audio/a01.txt" := [1; 2; 3]]}
             "/SD:audio/a01.txt" "/SD:audio/a01.txt" in
  (exists c',
     SdCardIo.write_to_file [10; 20] 2 c = Some (0, c')
     /\ SdCardIo.vol c' = {["/SD:audio/a01.txt" := [1; 2; 3; 10; 20]]}
     /\ SdCardIo.read_audio_data 2 3 c' = (2, [10; 20]))
  /\ SdCardIo.write_to_file [10; 20] 2
       (SdCardIo.mk_card SdCardIo.SD_CARD_MOUNTED ∅ "" "/SD:audio/a02.txt")
     = Some (0, SdCardIo.mk_card SdCardIo.SD_CARD_MOUNTED ∅ ""
                  "/SD:audio/a02.txt").
Proof.
  cbv zeta. split.
  - destruct (write_then_read_back [10; 20] [1; 2; 3]
                (SdCardIo.mk_card SdCardIo.SD_CARD_MOUNTED
                   {["/SD:audio/a01.txt" := [1; 2; 3]]}
                   "/SD:audio/a01.txt" "/SD:audio/a01.txt")) as [H _].
    destruct (H eq_refl eq_refl ltac:(cbn; lia)) as (c' & Hw & Hv & Hr).
    exists c'. split; [exact Hw|]. split; [|exact Hr].
    rewrite Hv. cbn [SdCardIo.vol SdCardIo.write_buffer app].
    apply insert_singleton_eq.
  - destruct (write_then_read_back [10; 20] []
                (SdCardIo.mk_card SdCardIo.SD_CARD_MOUNTED ∅ ""
                   "/SD:audio/a02.txt")) as [_ H].
    apply H. reflexivity.
Defined.

Section TestText.
Import SdCardIo.

Lemma snprintf_path_test : snprintf_path "test.txt" = "/SD:/test.txt".
Proof. reflexivity. Qed.

Lemma c_str_test_text_then rest :
  c_str (test_text ++ 0 :: rest) = test_text.
Proof. reflexivity. Qed.

Lemma c_str_test_text_longer b rest :
  b <> 0 -> c_str (test_text ++ b :: rest) <> test_text.
Proof.
  intros Hb. unfold test_text. cbn.
  destruct (Z.eqb_spec b 0); [contradiction|]. discriminate.
Qed.

End TestText.

Section TestSteps.
Import SdCardIo.

Lemma create_test_file c :
  is_mounted (sd_card_state c) = true ->
  sd_card_create_file "test.txt" (Some "Hello from OMI Triangle v2 SD Card!") c
  = Some (0, with_vol
               (<["/SD:/test.txt" :=
                    test_text
                    ++ drop 35 (default [] (vol c !! "/SD:/test.txt"))]>
                  (vol c)) c).
Proof.
  intros Hm. unfold sd_card_create_file. rewrite Hm. cbn [negb].
  rewrite snprintf_path_test.
  change (c_str (bytes_of_string "Hello from OMI Triangle v2 SD Card!"))
    with test_text.
  unfold fs_open.
  destruct (vol c !! "/SD:/test.txt") as [bytes|] eqn:Hfile.
  - cbn [negb Z.eqb vol with_vol default]. unfold fs_write.
    cbn [f_path f_pos f_append]. rewrite Hfile.
    rewrite decide_True by lia.
    cbn [mbind option_bind]. rewrite firstn_all.
    change (length test_text) with 35%nat.
    cbn [take firstn app Nat.add Z.of_nat Pos.of_succ_nat Z.ltb Z.compare
         vol with_vol sd_card_state read_buffer write_buffer].
    reflexivity.
  - cbn [negb Z.eqb vol with_vol default]. unfold fs_write.
    cbn [f_path f_pos f_append]. rewrite lookup_insert_eq.
    rewrite decide_True by lia.
    cbn [mbind option_bind]. rewrite firstn_all.
    change (length test_text) with 35%nat.
    cbn [take firstn drop skipn app Nat.add Z.of_nat Pos.of_succ_nat Z.ltb
         Z.compare vol with_vol sd_card_state read_buffer write_buffer].
    rewrite insert_insert_eq. reflexivity.
Qed.

Lemma read_test_file c stack content :
  is_mounted (sd_card_state c) = true ->
  vol c !! "/SD:/test.txt" = Some content ->
  (length (take 255 content) < length stack)%nat ->
  sd_card_read_file "test.txt" stack 256 c
  = Some (Z.of_nat (length (take 255 content)),
          take 255 content ++ 0 :: drop (S (length (take 255 content))) stack).
Proof.
  intros Hm Hfile Hroom. unfold sd_card_read_file. rewrite Hm. cbn [negb].
  rewrite snprintf_path_test. unfold fs_open. rewrite Hfile.
  cbn [negb Z.eqb]. unfold fs_read. cbn [f_path f_pos]. rewrite Hfile.
  change (Z.to_nat (to_uint32 (256 - 1))) with 255%nat.
  change (drop 0 content) with content.
  destruct (Z.ltb_spec (Z.of_nat (length (take 255 content))) 0); [lia|].
  rewrite decide_True by exact Hroom. reflexivity.
Qed.

Lemma delete_test_file c :
  is_mounted (sd_card_state c) = true ->
  is_Some (vol c !! "/SD:/test.txt") ->
  sd_card_delete_file "test.txt" c
  = (0, with_vol (delete "/SD:/test.txt" (vol c)) c).
Proof.
  intros Hm [bytes Hfile]. unfold sd_card_delete_file. rewrite Hm. cbn [negb].
  rewrite snprintf_path_test. unfold fs_unlink. rewrite Hfile. reflexivity.
Qed.

End TestSteps.

(** X29.  [sd_card_test_read_write]: on a card that is not mounted it
    returns -ENODEV and touches nothing; on a mounted volume without
    /SD:/test.txt it returns 0 and leaves the volume exactly as it was;
    when /SD:/test.txt already exists with at most 35 bytes it returns 0
    and the file is gone; when the file holds more than 35 bytes and the
    36th is not 0, the test fails with -EIO and leaves the file with its
    first 35 bytes overwritten. *)
Theorem sd_card_self_test (stack : list Z) (c : SdCardIo.card) :
  length stack = 256%nat ->
  (SdCardIo.is_mounted (SdCardIo.sd_card_state c) = false ->
     SdCardIo.sd_card_test_read_write stack c = Some (- ENODEV, c))
  /\ (SdCardIo.is_mounted (SdCardIo.sd_card_state c) = true ->
      SdCardIo.vol c !! "/SD:/test.txt" = None ->
      SdCardIo.sd_card_test_read_write stack c = Some (0, c))
  /\ (forall old,
        SdCardIo.is_mounted (SdCardIo.sd_card_state c) = true ->
        SdCardIo.vol c !! "/SD:/test.txt" = Some old ->
        (length old <= 35)%nat ->
        SdCardIo.sd_card_test_read_write stack c
        = Some (0, SdCardIo.with_vol
                     (delete "/SD:/test.txt" (SdCardIo.vol c)) c))
  /\ (forall old b,
        SdCardIo.is_mounted (SdCardIo.sd_card_state c) = true ->
        SdCardIo.vol c !! "/SD:/test.txt" = Some old ->
        old !! 35%nat = Some b -> b <> 0 ->
        SdCardIo.sd_card_test_read_write stack c
        = Some (- EIO,
                SdCardIo.with_vol
                  (<["/SD:/test.txt" := test_text ++ drop 35 old]>
                     (SdCardIo.vol c)) c)).
Proof.
  intros Hstack.
  assert (Hpass : forall v,
            SdCardIo.is_mounted (SdCardIo.sd_card_state c) = true ->
            drop 35 (default [] (SdCardIo.vol c !! "/SD:/test.txt")) = [] ->
            delete "/SD:/test.txt" (SdCardIo.vol c) = v ->
            SdCardIo.sd_card_test_read_write stack c
            = Some (0, SdCardIo.with_vol v c)).
  { intros v Hm Htail Hdel. unfold SdCardIo.sd_card_test_read_write.
    rewrite create_test_file by exact Hm. rewrite Htail, app_nil_r.
    cbn [mbind option_bind negb Z.eqb].
    rewrite (read_test_file _ stack test_text);
      [|exact Hm|apply lookup_insert_eq|rewrite Hstack; cbn; lia].
    cbn [mbind option_bind].
    change (take 255 test_text) with test_text.
    change (Z.of_nat (length test_text) <? 0) with false. cbv iota.
    change (SdCardIo.c_str
              (SdCardIo.bytes_of_string "Hello from OMI Triangle v2 SD Card!"))
      with test_text.
    rewrite c_str_test_text_then.
    rewrite bool_decide_eq_true_2 by reflexivity. cbn [negb].
    rewrite delete_test_file;
      [|exact Hm|cbn [SdCardIo.vol SdCardIo.with_vol];
                 rewrite lookup_insert_eq; eexists; reflexivity].
    cbn [negb Z.eqb SdCardIo.vol SdCardIo.with_vol].
    rewrite delete_insert_eq, Hdel. destruct c; reflexivity. }
  split; [|split; [|split]].
  - intros Hm. unfold SdCardIo.sd_card_test_read_write,
      SdCardIo.sd_card_create_file. rewrite Hm. reflexivity.
  - intros Hm Hfile.
    rewrite (Hpass (SdCardIo.vol c)); [destruct c; reflexivity|exact Hm| |].
    + rewrite Hfile. reflexivity.
    + apply delete_id. exact Hfile.
  - intros old Hm Hfile Hlen. apply Hpass; [exact Hm| |reflexivity].
    rewrite Hfile. change (default [] (Some old)) with old.
    apply drop_ge. exact Hlen.
  - intros old b Hm Hfile Hb Hnz.
    unfold SdCardIo.sd_card_test_read_write.
    rewrite create_test_file by exact Hm. rewrite Hfile.
    change (default [] (Some old)) with old.
    cbn [mbind option_bind negb Z.eqb].
    assert (Htail : exists rest, drop 35 old = b :: rest).
    { exists (drop 36 old). apply drop_S. exact Hb. }
    destruct Htail as (rest & Htail). rewrite Htail.
    assert (Htake : take 255 (test_text ++ b :: rest)
                    = test_text ++ b :: take 219 rest) by reflexivity.
    rewrite (read_test_file _ stack (test_text ++ b :: rest));
      [|exact Hm|apply lookup_insert_eq|].
    2:{ rewrite Hstack. pose proof (length_take_le (test_text ++ b :: rest) 255).
        rewrite length_take. lia. }
    cbn [mbind option_bind]. rewrite Htake.
    destruct (Z.ltb_spec
                (Z.of_nat (length (test_text ++ b :: take 219 rest))) 0);
      [lia|].
    change (SdCardIo.c_str
              (SdCardIo.bytes_of_string "Hello from OMI Triangle v2 SD Card!"))
      with test_text.
    rewrite <- app_assoc. cbn [app].
    rewrite bool_decide_eq_false_2
      by (change (test_text ++ b :: ?x) with (test_text ++ b :: x);
          apply c_str_test_text_longer; exact Hnz).
    reflexivity.
Qed.

Lemma sd_card_self_test_witness :
  SdCardIo.sd_card_test_read_write (replicate 256 7)
    (SdCardIo.mk_card SdCardIo.SD_CARD_MOUNTED ∅ "" "")
  = Some (0, SdCardIo.mk_card SdCardIo.SD_CARD_MOUNTED ∅ "" "")
  /\ SdCardIo.sd_card_test_read_write (replicate 256 7)
       (SdCardIo.mk_card SdCardIo.SD_CARD_INITIALIZED ∅ "" "")
     = Some (-19, SdCardIo.mk_card SdCardIo.SD_CARD_INITIALIZED ∅ "" "").
Proof.
  destruct (sd_card_self_test (replicate 256 7)
              (SdCardIo.mk_card SdCardIo.SD_CARD_MOUNTED ∅ "" "")
              (length_replicate _ _)) as (_ & Hok & _).
  destruct (sd_card_self_test (replicate 256 7)
              (SdCardIo.mk_card SdCardIo.SD_CARD_INITIALIZED ∅ "" "")
              (length_replicate _ _)) as (Hoff & _).
  split; [exact (Hok eq_refl eq_refl) | exact (Hoff eq_refl)].
Defined.
